(** * Kursova_DO_CyberPunk: the presentation layer, embedded in Rocq

    Source files covered:
      - [ui/plot_view.py]   : class [PlotView]
      - [ui/main_window.py] : class [MainWindow]

    Python [float] is IEEE-754 binary64 and is embedded as Rocq's primitive
    [float], which is the same format with the same rounding; Python [int]
    is [Z]; [str] is [string] (UTF-8 bytes).  Statements that may raise are
    written in a state-and-exception monad: a raise leaves every mutation
    made so far in place, as in Python.

    numpy and matplotlib are not part of the repository.  The handful of
    their functions the two classes call are given small executable models
    in the modules [Np] and [Mpl] below. *)

From Stdlib Require Import ZArith QArith Qabs String Ascii List Bool Lia Lqa.
From Stdlib Require Import DecimalString.
From Stdlib Require Import Floats.
Import ListNotations.

Set Warnings "-inexact-float,-register-all".
Set Implicit Arguments.

Local Open Scope Z_scope.
Local Open Scope string_scope.
Local Open Scope list_scope.

(* ================================================================== *)
(** * Python: exceptions, results, the statement monad                 *)
(* ================================================================== *)

Module Py.

(** The exception classes the modelled code can meet.  [UserError] stands
  for whatever a caller-supplied callable raises. *)
Inductive exn : Type :=
| ValueError (msg : string)
| TypeError (msg : string)
| OverflowError (msg : string)
| IndexError (msg : string)
| AttributeError (msg : string)
| UserError (tag : string).

Inductive result (A : Type) : Type :=
| Ok (a : A)
| Raise (e : exn).
Arguments Ok {A} a.
Arguments Raise {A} e.

Definition is_ok {A} (r : result A) : bool :=
match r with Ok _ => true | Raise _ => false end.

Definition and_then {A B} (r : result A) (k : A -> result B) : result B :=
match r with Ok a => k a | Raise e => Raise e end.

(** A statement run on a mutable world [W]. *)
Definition M (W A : Type) : Type := W -> result A * W.

Definition ret {W A} (a : A) : M W A := fun w => (Ok a, w).

Definition bind {W A B} (m : M W A) (k : A -> M W B) : M W B :=
fun w =>
  match m w with
  | (Ok a, w') => k a w'
  | (Raise e, w') => (Raise e, w')
  end.

Definition raise {W A} (e : exn) : M W A := fun w => (Raise e, w).

(** A pure expression that may raise, used as a statement. *)
Definition lift {W A} (r : result A) : M W A := fun w => (r, w).

(** A mutation that cannot raise. *)
Definition modify {W} (g : W -> W) : M W unit := fun w => (Ok tt, g w).

Definition gets {W A} (g : W -> A) : M W A := fun w => (Ok (g w), w).

(** [self.attr.method(...)]: run a method of a sub-object in place. *)
Record Attr (W V : Type) : Type := mkAttr {
getattr : W -> V;
setattr : V -> W -> W
}.

Definition on {W V A} (a : Attr W V) (m : M V A) : M W A :=
fun w => let (r, v') := m (getattr a w) in (r, setattr a v' w).

(** [for x in xs: acc = body(x, acc)] *)
Fixpoint for_each {W A B} (xs : list A) (acc : B) (body : A -> B -> M W B)
: M W B :=
match xs with
| [] => ret acc
| x :: xs' => bind (body x acc) (fun acc' => for_each xs' acc' body)
end.

(** [[body(x) for x in xs]] *)
Fixpoint comprehension {W A B} (xs : list A) (body : A -> M W B)
: M W (list B) :=
match xs with
| [] => ret []
| x :: xs' =>
    bind (body x) (fun b =>
    bind (comprehension xs' body) (fun bs => ret (b :: bs)))
end.

(** [range(n)] *)
Definition range (n : Z) : list Z := map Z.of_nat (seq 0 (Z.to_nat n)).

(** Result of a statement and the world it leaves. *)
Definition outcome {W A} (m : M W A) (w : W) : result A := fst (m w).
Definition after {W A} (m : M W A) (w : W) : W := snd (m w).

End Py.
Import Py.

Declare Scope py_scope.
Delimit Scope py_scope with py.
Notation "x <- m ;; k" := (bind m (fun x => k))
  (at level 61, m at next level, right associativity) : py_scope.
Notation "m ;; k" := (bind m (fun _ => k))
  (at level 61, right associativity) : py_scope.
Local Open Scope py_scope.

(* ================================================================== *)
(** * Python floats and ints                                           *)
(* ================================================================== *)

Module PyNum.

Local Open Scope float_scope.

(** The exact rational value of a finite float. *)
Definition exact (x : float) : option Q :=
match Prim2SF x with
| S754_zero _ => Some 0%Q
| S754_finite s m e =>
    let v := (inject_Z (Z.pos m) * Qpower 2 e)%Q in
    Some (if s then Qopp v else v)
| S754_infinity _ | S754_nan => None
end.

(** [float(n)] for an int: round to nearest even; too large raises. *)
Definition float_of_int (n : Z) : result float :=
match binary_normalize prec emax n 0 false with
| S754_infinity _ => Raise (OverflowError "int too large to convert to float")
| sf => Ok (SF2Prim sf)
end.

(** [int(x)] for a float: truncation toward zero. *)
Definition int_of_float (x : float) : result Z :=
match Prim2SF x with
| S754_zero _ => Ok 0%Z
| S754_finite s m e =>
    let mag := (if (0 <=? e)%Z then Z.pos m * 2 ^ e
                else Z.pos m / 2 ^ (- e))%Z in
    Ok (if s then (- mag)%Z else mag)
| S754_infinity _ =>
    Raise (OverflowError "cannot convert float infinity to integer")
| S754_nan => Raise (ValueError "cannot convert float NaN to integer")
end.

(** [str(n)] *)
Definition str_of_int (n : Z) : string :=
NilZero.string_of_int (Z.to_int n).

(** ** [format(x, '.3e')] and friends

  The digits are those of the exact binary value, rounded half-even,
  which is what CPython's correctly rounded conversion produces. *)

(** Largest [E] in the searched window with [10^E <= n/d]. *)
Fixpoint decimal_exponent (fuel : nat) (E : Z) (n d : Z) : Z :=
match fuel with
| O => E
| S fuel' =>
    if (if (0 <=? E)%Z then (10 ^ E * d <=? n)%Z
        else (d <=? n * 10 ^ (- E))%Z)
    then E
    else decimal_exponent fuel' (E - 1)%Z n d
end.

(** [n/d * 10^k] rounded to an integer, ties to even. *)
Definition round_scaled (n d k : Z) : Z :=
let N := (if (0 <=? k)%Z then n * 10 ^ k else n)%Z in
let D := (if (0 <=? k)%Z then d else d * 10 ^ (- k))%Z in
let q := (N / D)%Z in
let r := (N mod D)%Z in
match (2 * r ?= D)%Z with
| Gt => (q + 1)%Z
| Eq => if Z.even q then q else (q + 1)%Z
| Lt => q
end.

Definition pad2 (s : string) : string :=
if (String.length s <? 2)%nat then "0" ++ s else s.

Definition exponent_field (E : Z) : string :=
(if (E <? 0)%Z then "e-" else "e+") ++ pad2 (str_of_int (Z.abs E)).

(** Mantissa digits [k] (with [p+1] digits) printed as [d.ddd]. *)
Definition mantissa_field (p : nat) (k : Z) : string :=
let ds := str_of_int k in
match ds with
| EmptyString => ""
| String c rest =>
    match p with
    | O => String c EmptyString
    | _ => String c ("." ++ rest)
    end
end.

Definition format_e (p : nat) (x : float) : string :=
match Prim2SF x with
| S754_nan => "nan"
| S754_infinity s => if s then "-inf" else "inf"
| S754_zero s =>
    (if s then "-" else "") ++
    mantissa_field p (0%Z) ++ String.concat "" (repeat "0" p) ++ "e+00"
| S754_finite s m e =>
    let n := (if (0 <=? e)%Z then Z.pos m * 2 ^ e else Z.pos m)%Z in
    let d := (if (0 <=? e)%Z then 1 else 2 ^ (- e))%Z in
    let E := decimal_exponent 700 (309%Z) n d in
    let k := round_scaled n d (Z.of_nat p - E) in
    let carry := (10 ^ (Z.of_nat p + 1) <=? k)%Z in
    let k' := if carry then (10 ^ Z.of_nat p)%Z else k in
    let E' := if carry then (E + 1)%Z else E in
    (if s then "-" else "") ++ mantissa_field p k' ++ exponent_field E'
end.

End PyNum.

(* ================================================================== *)
(** * Dynamically typed arguments                                      *)
(* ================================================================== *)

(** [add_iteration_row] takes untyped "primitives".  The values followed
    here are [None], [bool], [int], [float] and (nested) lists of them. *)
Inductive PyVal : Type :=
| PNone
| PBool (b : bool)
| PInt (n : Z)
| PFloat (x : float)
| PList (l : list PyVal).

Module PyVal_ops.

Local Open Scope float_scope.

(** Truth value testing: [None], [False], zero of any numeric type and
  empty sequences are false. *)
Definition truthy (v : PyVal) : bool :=
match v with
| PNone => false
| PBool b => b
| PInt n => negb (n =? 0)%Z
| PFloat x => negb (x =? 0)
| PList l => match l with [] => false | _ => true end
end.

(** [a or b] *)
Definition or_ (a b : PyVal) : PyVal := if truthy a then a else b.

(** [float(v)] *)
Definition float_ (v : PyVal) : result float :=
match v with
| PFloat x => Ok x
| PInt n => PyNum.float_of_int n
| PBool b => Ok (if b then 1 else 0)
| PNone =>
    Raise (TypeError "float() argument must be a string or a real number, not 'NoneType'")
| PList _ =>
    Raise (TypeError "float() argument must be a string or a real number, not 'list'")
end.

(** [int(v)] *)
Definition int_ (v : PyVal) : result Z :=
match v with
| PInt n => Ok n
| PBool b => Ok (if b then 1 else 0)%Z
| PFloat x => PyNum.int_of_float x
| PNone =>
    Raise (TypeError "int() argument must be a string, a bytes-like object or a real number, not 'NoneType'")
| PList _ =>
    Raise (TypeError "int() argument must be a string, a bytes-like object or a real number, not 'list'")
end.

End PyVal_ops.

(* ================================================================== *)
(** * numpy, as far as the two classes use it                          *)
(* ================================================================== *)

Module Np.

Local Open Scope float_scope.

(** A float64 array: its shape and its elements in row-major order. *)
Record ndarray : Type := mk_ndarray {
shape : list nat;
data : list float
}.

Definition ndim (a : ndarray) : nat := List.length (shape a).

Definition scalar (x : float) : ndarray := mk_ndarray [] [x].

(** A one-dimensional array. *)
Definition vec (l : list float) : ndarray := mk_ndarray [List.length l] l.

Definition shape_eqb (s t : list nat) : bool :=
if list_eq_dec Nat.eq_dec s t then true else false.

(** What [np.array] raises on sub-arrays of different shapes: it names
the shape it could settle, which is the number of sub-arrays followed by
the dimensions all of them start with. *)
Fixpoint common_prefix (s t : list nat) : list nat :=
match s, t with
| a :: s', b :: t' => if (a =? b)%nat then a :: common_prefix s' t' else []
| _, _ => []
end.

Definition detected_shape (shapes : list (list nat)) : list nat :=
List.length shapes ::
match shapes with
| [] => []
| s :: rest => fold_left common_prefix rest s
end.

(** [repr] of a tuple of ints. *)
Definition tuple_repr (l : list nat) : string :=
match l with
| [] => "()"
| [a] => ("(" ++ PyNum.str_of_int (Z.of_nat a) ++ ",)")%string
| a :: rest =>
    ("(" ++ PyNum.str_of_int (Z.of_nat a)
     ++ String.concat ""
          (map (fun b => (", " ++ PyNum.str_of_int (Z.of_nat b))%string) rest)
     ++ ")")%string
end.

Definition inhomogeneous (shapes : list (list nat)) : exn :=
ValueError
  ("setting an array element with a sequence. The requested array has an "
   ++ "inhomogeneous shape after "
   ++ PyNum.str_of_int (Z.of_nat (List.length (detected_shape shapes)))
   ++ " dimensions. The detected shape was "
   ++ tuple_repr (detected_shape shapes) ++ " + inhomogeneous part.").

(** [np.array([a_1, ..., a_n], dtype=float)] for arrays [a_i]: the
  arrays are stacked along a new leading axis; sub-arrays of different
  shapes raise [ValueError]. *)
Definition stack (l : list ndarray) : result ndarray :=
match l with
| [] => Ok (mk_ndarray [O] [])
| a :: rest =>
    if forallb (fun b => shape_eqb (shape b) (shape a)) rest
    then Ok (mk_ndarray (List.length l :: shape a) (concat (map data l)))
    else Raise (inhomogeneous (map shape l))
end.

(** [np.array(v, dtype=float)] for a Python value. *)
Fixpoint array (v : PyVal) : result ndarray :=
match v with
| PNone => Ok (scalar nan)
| PBool b => Ok (scalar (if b then 1 else 0))
| PInt n =>
    match PyNum.float_of_int n with
    | Ok x => Ok (scalar x)
    | Raise e => Raise e
    end
| PFloat x => Ok (scalar x)
| PList l =>
    match
      (fix each (l : list PyVal) : result (list ndarray) :=
         match l with
         | [] => Ok []
         | v :: l' =>
             match array v with
             | Ok a =>
                 match each l' with
                 | Ok r => Ok (a :: r)
                 | Raise e => Raise e
                 end
             | Raise e => Raise e
             end
         end) l
    with
    | Ok subs => stack subs
    | Raise e => Raise e
    end
end.

(** Python indexing of a sequence by an int, negative indices counting
  from the end. *)
Definition getitem {A} (l : list A) (i : Z) : result A :=
let n := Z.of_nat (List.length l) in
let j := (if i <? 0 then i + n else i)%Z in
if ((0 <=? j) && (j <? n))%Z then
  match nth_error l (Z.to_nat j) with
  | Some a => Ok a
  | None => Raise (IndexError "index out of bounds")
  end
else Raise (IndexError "index out of bounds").

(** The rows of an array taken as a matrix of [w] columns. *)
Fixpoint chunks (n w : nat) (d : list float) : list (list float) :=
match n with
| O => []
| S n' => firstn w d :: chunks n' w (skipn w d)
end.

Definition rows (a : ndarray) : list (list float) :=
match shape a with
| [n; w] => chunks n w (data a)
| _ => []
end.

(** [a[:, j]] for a two-dimensional array. *)
Definition column (a : ndarray) (j : nat) : list float :=
map (fun r => nth j r nan) (rows a).

(** [for x in a] over a two-dimensional array: its rows as 1-d arrays. *)
Definition iter_rows (a : ndarray) : list ndarray := map vec (rows a).

(** [min] and [max] of two elements as the reductions take them: a NaN
  on either side wins; otherwise the element met first is kept only when
  it is strictly smaller (greater), so that of two equal elements, zeros
  of different sign among them, the later one is kept. *)
Definition min2 (a b : float) : float :=
if is_nan a then a else if a <? b then a else b.

Definition max2 (a b : float) : float :=
if is_nan a then a else if b <? a then a else b.

Definition empty_reduction : exn :=
ValueError "zero-size array to reduction operation which has no identity".

(** [a.min()], [a.max()] *)
Definition amin (l : list float) : result float :=
match l with
| [] => Raise empty_reduction
| a :: rest => Ok (fold_left min2 rest a)
end.

Definition amax (l : list float) : result float :=
match l with
| [] => Raise empty_reduction
| a :: rest => Ok (fold_left max2 rest a)
end.

(** [float(n)] for the loop counters of [linspace]; they are small. *)
Definition of_index (n : Z) : float :=
SF2Prim (binary_normalize prec emax n 0 false).

Definition negative_samples (num : Z) : exn :=
ValueError
  ("Number of samples, " ++ PyNum.str_of_int num ++ ", must be non-negative.").

(** [np.linspace(start, stop, num)] with the default [endpoint=True]:
  [num] evenly spaced samples, the last one set to [stop] itself.
  A negative [num] raises [ValueError]. *)
Definition linspace (start stop : float) (num : Z) : result (list float) :=
if (num <? 0)%Z then
  Raise (negative_samples num)
else
  let div := (num - 1)%Z in
  let delta := stop - start in
  let y := map of_index (range num) in
  let y :=
    if (0 <? div)%Z then
      let step := delta / of_index div in
      if step =? 0
      then map (fun t => t / of_index div * delta) y
      else map (fun t => t * step) y
    else map (fun t => t * delta) y in
  let y := map (fun t => t + start) y in
  Ok (if (1 <? num)%Z then removelast y ++ [stop] else y).

(** [np.meshgrid(xv, yv)] with the default ['xy'] indexing: both results
  have one row per element of [yv] and one column per element of [xv]. *)
Definition meshgrid (xv yv : list float)
: list (list float) * list (list float) :=
(map (fun _ => xv) yv, map (fun y => map (fun _ => y) xv) yv).

(** [np.zeros_like(m)] *)
Definition zeros_like (m : list (list float)) : list (list float) :=
map (map (fun _ => 0)) m.

(** [m[i, j]] *)
Definition getitem2 (m : list (list float)) (i j : Z) : result float :=
match getitem m i with
| Ok r => getitem r j
| Raise e => Raise e
end.

Fixpoint set_nth {A} (l : list A) (n : nat) (a : A) : list A :=
match l, n with
| [], _ => []
| _ :: t, O => a :: t
| h :: t, S n' => h :: set_nth t n' a
end.

(** [m[i, j] = v] for indices in [0, len) *)
Definition setitem2 (m : list (list float)) (i j : Z) (v : float)
: result (list (list float)) :=
match getitem m i with
| Ok r =>
    match getitem r j with
    | Ok _ => Ok (set_nth m (Z.to_nat i) (set_nth r (Z.to_nat j) v))
    | Raise e => Raise e
    end
| Raise e => Raise e
end.

End Np.

(* ================================================================== *)
(** * matplotlib, as far as [PlotView] uses it                         *)
(* ================================================================== *)

Module Mpl.

(** Arguments of drawing calls. *)
Inductive Arg : Type :=
| Str (s : string)
| Num (x : float)
| Int (n : Z)
| Flag (b : bool)
| Ints (l : list Z)
| Vec (l : list float)
| Mat (m : list (list float))
| TransAxes                      (* [ax.transAxes] of the axes drawn on *)
| ContourSet.                    (* the object [ax.contour] returned *)

(** One method call on an axes, as written at the call site. *)
Record Call : Type := mk_call {
method : string;
args : list Arg;
kwargs : list (string * Arg)
}.

(** What an axes shows is determined by the calls made on it since it
  was last cleared, together with the properties that [Axes.clear()]
  leaves alone: the projection, the face colour and the spine style. *)
Record Axes : Type := mk_axes {
projection : string;
facecolor : option string;
spine_color : option string;
spine_linewidth : option float;
calls : list Call
}.

Definition new_axes (proj : string) : Axes := mk_axes proj None None None [].

(** [ax.clear()] *)
Definition clear : M Axes unit :=
modify (fun ax =>
  mk_axes (projection ax) (facecolor ax) (spine_color ax)
          (spine_linewidth ax) []).

(** [ax.set_facecolor(c)] *)
Definition set_facecolor (c : string) : M Axes unit :=
modify (fun ax =>
  mk_axes (projection ax) (Some c) (spine_color ax) (spine_linewidth ax)
          (calls ax)).

(** [for spine in ax.spines.values(): spine.set_color(c)] *)
Definition spines_set_color (c : string) : M Axes unit :=
modify (fun ax =>
  mk_axes (projection ax) (facecolor ax) (Some c) (spine_linewidth ax)
          (calls ax)).

(** [for spine in ax.spines.values(): spine.set_linewidth(lw)] *)
Definition spines_set_linewidth (lw : float) : M Axes unit :=
modify (fun ax =>
  mk_axes (projection ax) (facecolor ax) (spine_color ax) (Some lw)
          (calls ax)).

(** A method that draws or sets a property: recorded with its
arguments. *)
Definition invoke (name : string) (a : list Arg) (kw : list (string * Arg))
: M Axes unit :=
modify (fun ax =>
  mk_axes (projection ax) (facecolor ax) (spine_color ax)
          (spine_linewidth ax) (calls ax ++ [mk_call name a kw])).

(** [ax.contour(X, Y, Z, **kwargs)]: matplotlib refuses a [Z] with fewer
than two rows or two columns with [TypeError]; otherwise the call is
recorded.  What matplotlib makes of [levels] is not modelled. *)
Definition shape2 (m : list (list float)) : nat * nat :=
(List.length m, List.length (hd [] m)).

Definition too_small (m : list (list float)) : exn :=
TypeError
  ("Input z must be at least a (2, 2) shaped array, but has shape ("
   ++ PyNum.str_of_int (Z.of_nat (fst (shape2 m))) ++ ", "
   ++ PyNum.str_of_int (Z.of_nat (snd (shape2 m))) ++ ")").

Definition contour (X Y Zm : list (list float)) (kw : list (string * Arg))
: M Axes unit :=
if ((fst (shape2 Zm) <? 2) || (snd (shape2 Zm) <? 2))%nat
then raise (too_small Zm)
else invoke "contour" [Mat X; Mat Y; Mat Zm] kw.

(** The 3-d axes.  Its [text] is [Axes3D.text(x, y, z, s, zdir=None,
**kwargs)], not [Axes.text(x, y, s, **kwargs)]: Python binds the
positional arguments to [x], [y], [z], [s] in this order, and raises
[TypeError] when one of the four is left without a value. *)
Module Axes3D.

Definition required : list string := ["x"; "y"; "z"; "s"].

Definition missing (a : list Arg) (kw : list (string * Arg)) : list string :=
filter (fun p => negb (existsb (String.eqb p) (map fst kw)))
       (skipn (List.length a) required).

Definition quoted (p : string) : string := ("'" ++ p ++ "'")%string.

(** The names as Python lists them: ['s'], ['z' and 's'],
['y', 'z', and 's']. *)
Definition listed (ps : list string) : string :=
match ps with
| [] => ""
| [p] => quoted p
| [p; q] => (quoted p ++ " and " ++ quoted q)%string
| p :: rest =>
    (fix commas (p : string) (rest : list string) : string :=
       match rest with
       | [] => ("and " ++ quoted p)%string
       | q :: rest' => (quoted p ++ ", " ++ commas q rest')%string
       end) p rest
end.

Definition missing_arguments (ps : list string) : exn :=
TypeError
  ("Axes3D.text() missing " ++ PyNum.str_of_int (Z.of_nat (List.length ps))
   ++ " required positional argument"
   ++ (if (List.length ps =? 1)%nat then "" else "s") ++ ": " ++ listed ps).

Definition text (a : list Arg) (kw : list (string * Arg)) : M Axes unit :=
match missing a kw with
| [] => invoke "text" a kw
| ps => raise (missing_arguments ps)
end.

End Axes3D.

(** The figure together with its canvas. *)
Record Figure : Type := mk_figure {
figsize : float * float;
fig_facecolor : string;
layout_pad : option float;      (* last [tight_layout(pad=...)] *)
draw_requested : bool           (* [canvas.draw_idle()] was called *)
}.

(** [fig.tight_layout(pad=...)].  The figure keeps the padding it was
last laid out with.  The subplot geometry matplotlib derives from it, and
its refusal of axes whose limits are not finite, lie below this model. *)
Definition tight_layout (pad : float) : M Figure unit :=
modify (fun g =>
  mk_figure (figsize g) (fig_facecolor g) (Some pad) (draw_requested g)).

Definition draw_idle : M Figure unit :=
modify (fun g =>
  mk_figure (figsize g) (fig_facecolor g) (layout_pad g) true).

End Mpl.

(* ================================================================== *)
(** * core.iteration_result                                            *)
(* ================================================================== *)

Module IterationResult.

(** Modelled from the spec: [core/iteration_result.py] is not among the
  sources.  The spec describes the record as "an integer index, a
  numeric vector x (the current point), a scalar objective value f, a
  scalar step-norm, and free-form metadata"; the keyword names are
  those of the constructor call in [MainWindow.add_iteration_row]. *)
Record t : Type := mk {
index : Z;
x : Np.ndarray;
f : float;
step_norm : float;
meta : list (string * PyVal)
}.

End IterationResult.

(* ================================================================== *)
(** * ui/plot_view.py                                                  *)
(* ================================================================== *)

Module plot_view.

Import Mpl.
Local Open Scope float_scope.

Definition _BG_COLOR := "#050714".
Definition _PANEL_BORDER := "#22d3ee".
Definition _TEXT_MAIN := "#e0f2fe".
Definition _TEXT_MUTED := "#64748b".
Definition _ACCENT_1 := "#22c55e".
Definition _ACCENT_2 := "#e879f9".
Definition _ACCENT_3 := "#0ea5e9".

Definition nl : string := String (ascii_of_nat 10) EmptyString.

(** The widget.  Qt geometry and style sheets are written once in
  [_build_ui] and touched by no method, so the record keeps the
  figure and the three axes. *)
Record PlotView : Type := mk_PlotView {
figure : Figure;
ax_surface : Axes;
ax_fk : Axes;
ax_contour : Axes
}.

Definition self_figure : Attr PlotView Figure :=
mkAttr figure
  (fun v s => mk_PlotView v (ax_surface s) (ax_fk s) (ax_contour s)).
Definition self_ax_surface : Attr PlotView Axes :=
mkAttr ax_surface
  (fun v s => mk_PlotView (figure s) v (ax_fk s) (ax_contour s)).
Definition self_ax_fk : Attr PlotView Axes :=
mkAttr ax_fk
  (fun v s => mk_PlotView (figure s) (ax_surface s) v (ax_contour s)).
Definition self_ax_contour : Attr PlotView Axes :=
mkAttr ax_contour
  (fun v s => mk_PlotView (figure s) (ax_surface s) (ax_fk s) v).

(** ** Styling *)

Definition _style_2d_axes : M Axes unit :=
set_facecolor "#020617" ;;
invoke "tick_params" []
  [("colors", Str _TEXT_MUTED); ("which", Str "both"); ("labelsize", Int 8)] ;;
spines_set_color _PANEL_BORDER ;;
spines_set_linewidth 0.8 ;;
invoke "grid" [Flag true]
  [("color", Str "#1f2937"); ("linestyle", Str "--");
   ("linewidth", Num 0.6); ("alpha", Num 0.7)] ;;
invoke "xaxis.label.set_color" [Str _TEXT_MAIN] [] ;;
invoke "yaxis.label.set_color" [Str _TEXT_MAIN] [] ;;
invoke "title.set_color" [Str _ACCENT_2] [] ;;
invoke "title.set_fontsize" [Int 10] [].

Definition _style_3d_axes : M Axes unit :=
set_facecolor "#020617" ;;
invoke "tick_params" []
  [("colors", Str _TEXT_MUTED); ("which", Str "both"); ("labelsize", Int 7)] ;;
invoke "xaxis.label.set_color" [Str _TEXT_MAIN] [] ;;
invoke "yaxis.label.set_color" [Str _TEXT_MAIN] [] ;;
invoke "zaxis.label.set_color" [Str _TEXT_MAIN] [] ;;
invoke "title.set_color" [Str _ACCENT_1] [] ;;
invoke "title.set_fontsize" [Int 10] [].

Definition _apply_cyberpunk_style_all : M PlotView unit :=
on self_ax_surface _style_3d_axes ;;
on self_ax_fk _style_2d_axes ;;
on self_ax_contour _style_2d_axes.

Definition _clear_all_axes : M PlotView unit :=
on self_ax_fk clear ;;
on self_ax_contour clear ;;
on self_ax_surface clear.

Definition _redraw : M PlotView unit :=
on self_figure (tight_layout 2.0) ;;
on self_figure draw_idle.

(** ** Public methods *)

Definition placeholder_caption : string :=
"Графіки процесу мінімізації" ++ nl ++ "з'являться після запуску".

Definition show_placeholder : M PlotView unit :=
_clear_all_axes ;;
_apply_cyberpunk_style_all ;;

on self_ax_fk (invoke "text"
  [Num 0.5; Num 0.5; Str placeholder_caption]
  [("ha", Str "center"); ("va", Str "center"); ("transform", TransAxes);
   ("color", Str _ACCENT_3); ("fontsize", Int 10)]) ;;
on self_ax_fk (invoke "set_xticks" [Vec []] []) ;;
on self_ax_fk (invoke "set_yticks" [Vec []] []) ;;
on self_ax_fk (invoke "set_title" [Str ""] []) ;;

on self_ax_contour (invoke "set_xticks" [Vec []] []) ;;
on self_ax_contour (invoke "set_yticks" [Vec []] []) ;;
on self_ax_contour (invoke "set_title" [Str ""] []) ;;

on self_ax_surface (invoke "set_xticks" [Vec []] []) ;;
on self_ax_surface (invoke "set_yticks" [Vec []] []) ;;
on self_ax_surface (invoke "set_zticks" [Vec []] []) ;;
on self_ax_surface (invoke "set_title" [Str ""] []) ;;

_redraw.

(** [not iterations] *)
Definition is_empty {A} (l : list A) : bool :=
match l with [] => true | _ => false end.

Definition plot_fk (iterations : list IterationResult.t) : M PlotView unit :=
if is_empty iterations then
  show_placeholder
else
  on self_ax_fk clear ;;
  on self_ax_fk _style_2d_axes ;;

  let ks := map IterationResult.index iterations in
  let fs := map IterationResult.f iterations in

  on self_ax_fk (invoke "plot" [Ints ks; Vec fs]
    [("marker", Str "o"); ("linestyle", Str "-"); ("linewidth", Num 1.5);
     ("markersize", Int 4); ("color", Str _ACCENT_3)]) ;;
  on self_ax_fk (invoke "set_xlabel" [Str "k (номер ітерації)"] []) ;;
  on self_ax_fk (invoke "set_ylabel" [Str "f(xₖ)"] []) ;;
  on self_ax_fk (invoke "set_title" [Str "Графік f(k)"] []) ;;

  _redraw.

(** [PlotView.__init__] with [_build_ui]: the figure and the three axes
  are created, styled, laid out, and the placeholder is shown. *)
Definition _build_ui : M PlotView unit :=
_apply_cyberpunk_style_all ;;
on self_figure (tight_layout 2.0) ;;
show_placeholder.

Definition unbuilt : PlotView :=
mk_PlotView (mk_figure (7, 6) _BG_COLOR None false)
            (new_axes "3d") (new_axes "rectilinear") (new_axes "rectilinear").

Definition __init__ : PlotView := after _build_ui unbuilt.

(** ** The contour and surface plot *)

(** The plotting interval on one axis, from the smallest and the largest
  trajectory coordinate on it: lines 280-290 for one axis. *)
Definition expand_degenerate (lo hi : float) : float * float :=
if abs (hi - lo) <? 1e-9 then (lo - 1.0, hi + 1.0) else (lo, hi).

Definition apply_padding (padding : float) (b : float * float)
: float * float :=
(fst b - padding, snd b + padding).

Definition axis_bounds (padding lo hi : float) : float * float :=
apply_padding padding (expand_degenerate lo hi).

(** Lines 277-290: the extreme coordinates of the trajectory on the two
  axes, and from them the two plotting intervals. *)
Definition grid_domain (padding : float) (xs : Np.ndarray)
: result ((float * float) * (float * float)) :=
and_then (Np.amin (Np.column xs 0)) (fun x1_min =>
and_then (Np.amax (Np.column xs 0)) (fun x1_max =>
and_then (Np.amin (Np.column xs 1)) (fun x2_min =>
and_then (Np.amax (Np.column xs 1)) (fun x2_max =>
Ok (axis_bounds padding x1_min x1_max,
    axis_bounds padding x2_min x2_max))))).

Section WithObjective.

(** The caller-supplied [func] is arbitrary Python: it may keep state
of its own (type [S]) and it may raise. *)
Variable S : Type.
Definition Callable : Type := Np.ndarray -> S -> result float * S.

(** The world of one call of [plot_contour_trajectory]: the widget,
the state of [func], and a record of every call of [func] made so
far with its argument and how it ended. *)
Record Frame : Type := mk_Frame {
self : PlotView;
callee : S;
evaluations : list (Np.ndarray * result float)
}.

Definition self_ : Attr Frame PlotView :=
mkAttr self (fun v w => mk_Frame v (callee w) (evaluations w)).

(** [func(x)] *)
Definition call (func : Callable) (x : Np.ndarray) : M Frame float :=
fun w =>
let (r, s') := func x (callee w) in
(r, mk_Frame (self w) s' (evaluations w ++ [(x, r)])).

Definition plot_contour_trajectory
(func : Callable) (iterations : list IterationResult.t)
(levels : Z) (padding : float) (grid_size : Z) : M Frame unit :=
on self_ (on self_ax_contour clear) ;;
on self_ (on self_ax_surface clear) ;;

if is_empty iterations then
on self_ show_placeholder
else

xs <- lift (Np.stack (map IterationResult.x iterations)) ;;
if negb (Np.ndim xs =? 2)%nat
 || negb (nth 1 (Np.shape xs) O =? 2)%nat then
on self_ (on self_ax_contour _style_2d_axes) ;;
on self_ (on self_ax_surface _style_3d_axes) ;;

on self_ (on self_ax_contour (invoke "text"
  [Num 0.5; Num 0.5;
   Str ("Contour / поверхня доступні" ++ nl ++ "лише для задачі в R²")]
  [("ha", Str "center"); ("va", Str "center");
   ("transform", TransAxes); ("color", Str _ACCENT_2)])) ;;
on self_ (on self_ax_surface (Axes3D.text
  [Num 0.5; Num 0.5;
   Str ("Неможливо побудувати" ++ nl ++ "3D-поверхню")]
  [("ha", Str "center"); ("va", Str "center");
   ("transform", TransAxes); ("color", Str _ACCENT_2)])) ;;
on self_ _redraw
else

domain <- lift (grid_domain padding xs) ;;
let (x1_min, x1_max) := fst domain in
let (x2_min, x2_max) := snd domain in

x1_vals <- lift (Np.linspace x1_min x1_max grid_size) ;;
x2_vals <- lift (Np.linspace x2_min x2_max grid_size) ;;
let (X1, X2) := Np.meshgrid x1_vals x2_vals in

Z <- for_each (range grid_size) (Np.zeros_like X1) (fun i Z =>
     for_each (range grid_size) Z (fun j Z =>
       a <- lift (Np.getitem2 X1 i j) ;;
       b <- lift (Np.getitem2 X2 i j) ;;
       let x_vec := Np.vec [a; b] in
       v <- call func x_vec ;;
       lift (Np.setitem2 Z i j v))) ;;

on self_ (on self_ax_contour _style_2d_axes) ;;
on self_ (on self_ax_contour (contour X1 X2 Z
[("levels", Int levels); ("cmap", Str "plasma")])) ;;
on self_ (on self_ax_contour (invoke "clabel"
[ContourSet]
[("inline", Flag true); ("fontsize", Int 7); ("fmt", Str "%.2f");
 ("colors", Str _TEXT_MUTED)])) ;;

let x1_traj := Np.column xs 0 in
let x2_traj := Np.column xs 1 in
x1_first <- lift (Np.getitem x1_traj 0) ;;
x2_first <- lift (Np.getitem x2_traj 0) ;;
x1_last <- lift (Np.getitem x1_traj (-1)) ;;
x2_last <- lift (Np.getitem x2_traj (-1)) ;;

on self_ (on self_ax_contour (invoke "plot"
[Vec x1_traj; Vec x2_traj]
[("marker", Str "o"); ("linestyle", Str "-"); ("linewidth", Num 1.4);
 ("markersize", Int 4); ("color", Str _ACCENT_3);
 ("label", Str "Траєкторія")])) ;;
on self_ (on self_ax_contour (invoke "scatter"
[Num x1_first; Num x2_first]
[("marker", Str "s"); ("s", Int 50); ("color", Str _ACCENT_1);
 ("label", Str "Старт"); ("zorder", Int 5)])) ;;
on self_ (on self_ax_contour (invoke "scatter"
[Num x1_last; Num x2_last]
[("marker", Str "*"); ("s", Int 120); ("color", Str _ACCENT_2);
 ("label", Str "Мінімум"); ("zorder", Int 5)])) ;;

on self_ (on self_ax_contour (invoke "set_xlabel" [Str "x₁"] [])) ;;
on self_ (on self_ax_contour (invoke "set_ylabel" [Str "x₂"] [])) ;;
on self_ (on self_ax_contour (invoke "set_title"
[Str "Рівні функції та траєкторія"] [])) ;;
on self_ (on self_ax_contour (invoke "legend" []
[("loc", Str "best"); ("fontsize", Int 7);
 ("facecolor", Str "#020617"); ("edgecolor", Str _PANEL_BORDER)])) ;;

on self_ (on self_ax_surface _style_3d_axes) ;;

on self_ (on self_ax_surface (invoke "plot_surface"
[Mat X1; Mat X2; Mat Z]
[("rstride", Int 1); ("cstride", Int 1); ("cmap", Str "plasma");
 ("edgecolor", Str "#020617"); ("linewidth", Num 0.2);
 ("alpha", Num 0.9)])) ;;

z_traj <- comprehension (Np.iter_rows xs) (fun x => call func x) ;;

on self_ (on self_ax_surface (invoke "plot"
[Vec x1_traj; Vec x2_traj; Vec z_traj]
[("color", Str "#020617"); ("linewidth", Num 4.0);
 ("alpha", Num 0.9); ("zorder", Int 9)])) ;;

on self_ (on self_ax_surface (invoke "plot"
[Vec x1_traj; Vec x2_traj; Vec z_traj]
[("color", Str _ACCENT_1); ("marker", Str "o"); ("linestyle", Str "-");
 ("linewidth", Num 2.2); ("markersize", Int 5);
 ("markerfacecolor", Str _ACCENT_1);
 ("markeredgecolor", Str "#020617"); ("markeredgewidth", Num 0.8);
 ("zorder", Int 10); ("label", Str "Траєкторія")])) ;;

z_first <- lift (Np.getitem z_traj 0) ;;
z_last <- lift (Np.getitem z_traj (-1)) ;;
on self_ (on self_ax_surface (invoke "scatter"
[Vec [x1_first]; Vec [x2_first]; Vec [z_first]]
[("color", Str _ACCENT_1); ("marker", Str "s"); ("s", Int 60);
 ("edgecolor", Str "#020617"); ("linewidths", Num 1.0);
 ("label", Str "Старт"); ("zorder", Int 11)])) ;;
on self_ (on self_ax_surface (invoke "scatter"
[Vec [x1_last]; Vec [x2_last]; Vec [z_last]]
[("color", Str _ACCENT_2); ("marker", Str "*"); ("s", Int 110);
 ("edgecolor", Str "#020617"); ("linewidths", Num 1.0);
 ("label", Str "Мінімум"); ("zorder", Int 12)])) ;;

on self_ (on self_ax_surface (invoke "set_xlabel" [Str "x₁"] [])) ;;
on self_ (on self_ax_surface (invoke "set_ylabel" [Str "x₂"] [])) ;;
on self_ (on self_ax_surface (invoke "set_zlabel" [Str "f(x₁, x₂)"] [])) ;;
on self_ (on self_ax_surface (invoke "set_title"
[Str "Поверхня f(x₁, x₂) + траєкторія"] [])) ;;

on self_ _redraw.

End WithObjective.

End plot_view.

(* ================================================================== *)
(** * ui.table_view                                                    *)
(* ================================================================== *)

Module table_view.

(** Modelled from the spec: [ui/table_view.py] is not among the sources.
  The spec says that [add_iteration] "append[s] one row to the table"
  and that clearing "resets the table ... to an empty ... state"; a
  freshly constructed table is empty.  A row keeps the two arguments
  [MainWindow.add_iteration] hands over. *)
Record Row : Type := mk_Row {
iteration : IterationResult.t;
step_value : PyVal
}.

Record IterationsTableWidget : Type := mk_Table { rows : list Row }.

Definition __init__ : IterationsTableWidget := mk_Table [].

Definition clear_table : M IterationsTableWidget unit :=
modify (fun _ => mk_Table []).

Definition add_iteration (it : IterationResult.t) (step : PyVal)
: M IterationsTableWidget unit :=
modify (fun t => mk_Table (rows t ++ [mk_Row it step])).

End table_view.

(* ================================================================== *)
(** * ui/main_window.py                                                *)
(* ================================================================== *)

Module main_window.

Import plot_view.
Local Open Scope float_scope.

(** The window: what its menus and panels show.  [iterations_table] is
  optional because [clear_iterations_table] asks [hasattr] first. *)
Record MainWindow : Type := mk_MainWindow {
window_title : string;
status_message : string;
plot_view : PlotView;
iterations_table : option table_view.IterationsTableWidget;
label_func_evals : string;
label_outer_iters : string;
label_last_step : string
}.

Definition self_plot_view : Attr MainWindow PlotView :=
mkAttr plot_view
  (fun v s => mk_MainWindow (window_title s) (status_message s) v
                (iterations_table s) (label_func_evals s)
                (label_outer_iters s) (label_last_step s)).

Definition set_iterations_table (t : table_view.IterationsTableWidget)
  (s : MainWindow) : MainWindow :=
mk_MainWindow (window_title s) (status_message s) (plot_view s) (Some t)
  (label_func_evals s) (label_outer_iters s) (label_last_step s).

(** [self.iterations_table.<method>(...)]; a missing attribute raises. *)
Definition on_iterations_table {A}
  (m : M table_view.IterationsTableWidget A) : M MainWindow A :=
fun s =>
  match iterations_table s with
  | Some t => let (r, t') := m t in (r, set_iterations_table t' s)
  | None =>
      (Raise (AttributeError "'MainWindow' object has no attribute 'iterations_table'"), s)
  end.

(** [QLabel.setText] on each of the three labels, [showMessage] on the
  status bar. *)
Definition label_func_evals_setText (t : string) : M MainWindow unit :=
modify (fun s =>
  mk_MainWindow (window_title s) (status_message s) (plot_view s)
    (iterations_table s) t (label_outer_iters s) (label_last_step s)).

Definition label_outer_iters_setText (t : string) : M MainWindow unit :=
modify (fun s =>
  mk_MainWindow (window_title s) (status_message s) (plot_view s)
    (iterations_table s) (label_func_evals s) t (label_last_step s)).

Definition label_last_step_setText (t : string) : M MainWindow unit :=
modify (fun s =>
  mk_MainWindow (window_title s) (status_message s) (plot_view s)
    (iterations_table s) (label_func_evals s) (label_outer_iters s) t).

Definition statusBar_showMessage (t : string) : M MainWindow unit :=
modify (fun s =>
  mk_MainWindow (window_title s) t (plot_view s)
    (iterations_table s) (label_func_evals s) (label_outer_iters s)
    (label_last_step s)).

(** ** Public API *)

Definition update_run_stats
  (func_evals : option Z) (last_step : option float)
  (n_outer_iters : option Z) : M MainWindow unit :=
label_func_evals_setText
  ("f evals: " ++
   match func_evals with Some n => PyNum.str_of_int n | None => "–" end) ;;
label_outer_iters_setText
  ("outer iters: " ++
   match n_outer_iters with Some n => PyNum.str_of_int n | None => "–" end) ;;
label_last_step_setText
  (match last_step with
   | None => "step: –"
   | Some x => "step: " ++ PyNum.format_e 3 x
   end).

Definition clear_iterations_table : M MainWindow unit :=
fun s =>
  match iterations_table s with        (* hasattr *)
  | Some _ => on_iterations_table table_view.clear_table s
  | None => (Ok tt, s)
  end.

Definition clear_results : M MainWindow unit :=
clear_iterations_table ;;
on self_plot_view show_placeholder ;;
update_run_stats None None None.

Definition add_iteration (iteration : IterationResult.t) (step_value : PyVal)
: M MainWindow unit :=
on_iterations_table (table_view.add_iteration iteration step_value).

(** The record [add_iteration_row] rebuilds from primitives; the
  keyword arguments are evaluated left to right. *)
Definition rebuild (k x f_val step_value : PyVal)
: result IterationResult.t :=
match PyVal_ops.int_ k with
| Raise e => Raise e
| Ok index =>
match Np.array x with
| Raise e => Raise e
| Ok xa =>
match PyVal_ops.float_ f_val with
| Raise e => Raise e
| Ok fv =>
match PyVal_ops.float_ (PyVal_ops.or_ step_value (PFloat 0.0)) with
| Raise e => Raise e
| Ok sn => Ok (IterationResult.mk index xa fv sn [])
end end end end.

Definition add_iteration_row (k x f_val step_value : PyVal)
: M MainWindow unit :=
it <- lift (rebuild k x f_val step_value) ;;
add_iteration it step_value.

Definition update_fk_plot (iterations : list IterationResult.t)
: M MainWindow unit :=
on self_plot_view (plot_fk iterations).

(** [func] comes with the state it starts in; what it does to that state
  is its own business and not part of the window. *)
Definition update_contour_trajectory {S} (func : Callable S) (s0 : S)
  (iterations : list IterationResult.t) : M MainWindow unit :=
fun w =>
  let (r, fr) :=
    plot_contour_trajectory func iterations 20 0.5 100
      (mk_Frame (plot_view w) s0 []) in
  (r, setattr self_plot_view (self fr) w).

Definition _on_clear_requested : M MainWindow unit :=
clear_results ;;
statusBar_showMessage "Очищено".

(** ** Construction

  [__init__]: title, status bar, the three panels with their freshly
  constructed widgets and label texts, then the initial reset of the
  statistics. *)
Definition unreset : MainWindow :=
mk_MainWindow "Мінімізація функцій — Studio Mode" "Готово"
  plot_view.__init__ (Some table_view.__init__)
  "f evals: –" "outer iters: –" "step: –".

Definition __init__ : MainWindow :=
after (update_run_stats None None None) unreset.

(** ** Sessions: what the engine may do to a window *)

Inductive Request : Type :=
| AddIteration (it : IterationResult.t) (step_value : PyVal)
| AddIterationRow (k x f_val step_value : PyVal)
| UpdateFkPlot (iterations : list IterationResult.t)
| UpdateContourTrajectory (S : Type) (func : Callable S) (s0 : S)
  (iterations : list IterationResult.t)
| UpdateRunStats (func_evals : option Z) (last_step : option float)
  (n_outer_iters : option Z).

Definition perform (r : Request) : M MainWindow unit :=
match r with
| AddIteration it sv => add_iteration it sv
| AddIterationRow k x f_val sv => add_iteration_row k x f_val sv
| UpdateFkPlot its => update_fk_plot its
| UpdateContourTrajectory func s0 its =>
    update_contour_trajectory func s0 its
| UpdateRunStats fe ls n => update_run_stats fe ls n
end.

(** The requests are made one after the other; a request that raises
  leaves the window as it was at the raise, and the next one goes on
  from there. *)
Fixpoint session (rs : list Request) (w : MainWindow) : MainWindow :=
match rs with
| [] => w
| r :: rs' => session rs' (after (perform r) w)
end.

End main_window.

(* ================================================================== *)
(** * Vocabulary of the statements                                     *)
(* ================================================================== *)

(** The order of binary64 on numbers (NaN excluded). *)
Module FloatOrder.

Local Open Scope Z_scope.

(** A number is ranked by sign class, then exponent, then mantissa;
  comparing two numbers is comparing their ranks lexicographically. *)
Definition rank (x : spec_float) : Z * Z * Z :=
match x with
| S754_infinity true => (-2, 0, 0)
| S754_finite true m e => (-1, - e, - Z.pos m)
| S754_zero _ => (0, 0, 0)
| S754_finite false m e => (1, e, Z.pos m)
| S754_infinity false => (2, 0, 0)
| S754_nan => (0, 0, 0)
end.

Definition lex (p q : Z * Z * Z) : comparison :=
let '(a, b, c) := p in
let '(a', b', c') := q in
match a ?= a' with
| Eq => match b ?= b' with Eq => c ?= c' | r => r end
| r => r
end.

Definition lex_le (p q : Z * Z * Z) : Prop :=
let '(a, b, c) := p in
let '(a', b', c') := q in
a < a' \/ (a = a' /\ (b < b' \/ (b = b' /\ c <= c'))).

(** [x] is a number. *)
Definition number (x : float) : Prop := is_nan x = false.

Definition le (x y : float) : Prop :=
lex_le (rank (Prim2SF x)) (rank (Prim2SF y)).

End FloatOrder.

Module Trajectory.

Import Np Mpl plot_view.
Local Open Scope float_scope.

(** The point [(a, b)] as the array an iteration record holds. *)
Definition point (p : float * float) : ndarray := vec [fst p; snd p].

(** [its] is the trajectory [pts] in the plane. *)
Definition planar (its : list IterationResult.t) (pts : list (float * float))
: Prop :=
map IterationResult.x its = map point pts.

(** Every point of [its] is an array of shape [sh]. *)
Definition uniform (sh : list nat) (its : list IterationResult.t) : Prop :=
forall it, In it its -> shape (IterationResult.x it) = sh.

(** What [np.array] makes of a planar trajectory. *)
Definition stacked (pts : list (float * float)) : ndarray :=
mk_ndarray [List.length pts; 2%nat] (concat (map data (map point pts))).

(** The test of lines 280 and 283. *)
Definition degenerate (lo hi : float) : bool := abs (hi - lo) <? 1e-9.

(** [x] is finite and its value is the rational [q]. *)
Definition exactly (x : float) (q : Q) : Prop :=
match PyNum.exact x with
| Some v => (v == q)%Q
| None => False
end.

(** Axis 0 is x1, axis 1 is x2. *)
Definition coordinate (axis : nat) (p : float * float) : float :=
match axis with O => fst p | _ => snd p end.

Definition interval {A} (axis : nat) (d : A * A) : A :=
match axis with O => fst d | _ => snd d end.

(** The plotting domain [plot_contour_trajectory] computes for [its]:
  line 249 followed by lines 277-290. *)
Definition trajectory_domain (padding : float) (its : list IterationResult.t)
: result ((float * float) * (float * float)) :=
and_then (stack (map IterationResult.x its)) (grid_domain padding).

(** An interval at least two units plus the padding on each side wide. *)
Definition covers_two_plus_padding (padding : float) (b : float * float)
: Prop :=
exists qlo qhi qp,
  exactly (fst b) qlo /\ exactly (snd b) qhi /\ exactly padding qp /\
  (2 + 2 * qp <= qhi - qlo)%Q.

Definition step (k : Z) (a b : float) : IterationResult.t :=
IterationResult.mk k (point (a, b)) 0 0 [].

(** Sample trajectories. *)
Definition far_away : list IterationResult.t :=
[step 0 1e17 0; step 1 1e17 1].

Definition upright : list IterationResult.t :=
[step 0 3 1; step 1 3 2].

Definition mixed : list IterationResult.t :=
[IterationResult.mk 0 (vec [1]) 0 0 [];
 IterationResult.mk 1 (vec [1; 2; 3]) 0 0 []].

Definition spatial : list IterationResult.t :=
[IterationResult.mk 0 (vec [1; 2; 3]) 0 0 [];
 IterationResult.mk 1 (vec [4; 5; 6]) 0 0 []].

(** The two captions of the fallback for problems outside the plane. *)
Definition contour_caption : Call :=
mk_call "text"
  [Num 0.5; Num 0.5;
   Str ("Contour / поверхня доступні" ++ nl ++ "лише для задачі в R²")]
  [("ha", Str "center"); ("va", Str "center");
   ("transform", TransAxes); ("color", Str _ACCENT_2)].

Definition surface_caption : Call :=
mk_call "text"
  [Num 0.5; Num 0.5;
   Str ("Неможливо побудувати" ++ nl ++ "3D-поверхню")]
  [("ha", Str "center"); ("va", Str "center");
   ("transform", TransAxes); ("color", Str _ACCENT_2)].

(** Sample objectives: a paraboloid, and one that refuses every point. *)
Definition paraboloid : Callable unit :=
fun a _ =>
  (match data a with
   | [u; v] => Ok (u * u + v * v)
   | _ => Raise (UserError "dimension")
   end, tt).

Definition refusing : Callable unit :=
fun _ _ => (Raise (UserError "refused"), tt).

(** What no method of the widget writes to an axes: its projection and,
on the 3-d axes, the spine style. *)
Definition untouched (ax : Axes) : string * option string * option float :=
(projection ax, spine_color ax, spine_linewidth ax).

(** What the constructor fixes for good: the figure's size and colour,
the projection of each axes, the spines of the 3-d axes. *)
Definition shell (v : PlotView)
: (float * float) * string * (string * option string * option float)
  * string * string :=
(figsize (figure v), fig_facecolor (figure v),
 untouched (ax_surface v), projection (ax_fk v),
 projection (ax_contour v)).

End Trajectory.

(** Reasoning about statements. *)
Module Logic.

Import Np plot_view.

(** The statement [m] leaves the observation [h] of its world alone,
whether it returns or raises. *)
Definition preserves {W A B} (h : W -> B) (m : M W A) : Prop :=
forall w, h (after m w) = h w.

(** The statement never raises. *)
Definition total {W A} (m : M W A) : Prop :=
forall w, exists a, outcome m w = Ok a.

Section OnFrame.

Variable S : Type.

(** A statement of [plot_contour_trajectory] is sound when it keeps
the shell of the widget, only appends to the record of calls of
[func], and passes on what [func] raises: a call that raised is
the last one made and its exception is the statement's outcome. *)
Definition sound {A} (m : M (Frame S) A) : Prop :=
forall w,
Trajectory.shell (self (after m w)) = Trajectory.shell (self w) /\
exists new,
evaluations (after m w) = evaluations w ++ new /\
forall p e, In (p, Raise e) new ->
outcome m w = Raise e /\ exists earlier, new = earlier ++ [(p, Raise e)].

(** A statement that returns has made [n] calls of [func]. *)
Definition counts {A} (m : M (Frame S) A) (n : nat) : Prop :=
forall w,
is_ok (outcome m w) = true ->
List.length (evaluations (after m w))
= (List.length (evaluations w) + n)%nat.

End OnFrame.

End Logic.

Module Window.

Import plot_view main_window.

(** What every window reachable from a freshly constructed one has in
common with it: the title, the status message, a table, and the shell of
the plot widget. *)
Definition built (w : MainWindow) : Prop :=
window_title w = window_title main_window.__init__ /\
status_message w = status_message main_window.__init__ /\
(exists t, iterations_table w = Some t) /\
Trajectory.shell (plot_view w) = Trajectory.shell plot_view.__init__.

(** A frame for running [plot_contour_trajectory] on a fresh widget with
a stateless objective. *)
Definition fresh_frame : Frame unit := mk_Frame plot_view.__init__ tt [].

End Window.

Module Canvas.

Import Mpl plot_view.

(** The widget [v] with other drawings on its contour and surface axes. *)
Definition repaint (contour surface : list Call) (v : PlotView) : PlotView :=
mk_PlotView (figure v)
(mk_axes (projection (ax_surface v)) (facecolor (ax_surface v))
(spine_color (ax_surface v)) (spine_linewidth (ax_surface v)) surface)
(ax_fk v)
(mk_axes (projection (ax_contour v)) (facecolor (ax_contour v))
(spine_color (ax_contour v)) (spine_linewidth (ax_contour v)) contour).

(** The widget [v] with other drawings on its f(k) axes. *)
Definition repaint_fk (fk : list Call) (v : PlotView) : PlotView :=
mk_PlotView (figure v) (ax_surface v)
(mk_axes (projection (ax_fk v)) (facecolor (ax_fk v))
(spine_color (ax_fk v)) (spine_linewidth (ax_fk v)) fk)
(ax_contour v).

(** The frame [w] around another widget. *)
Definition with_self {S} (v : PlotView) (w : Frame S) : Frame S :=
mk_Frame v (callee w) (evaluations w).

(** The widget as the first two statements of [plot_contour_trajectory]
leave it: contour and surface axes cleared. *)
Definition blanked (v : PlotView) : PlotView :=
after (on self_ax_contour clear ;; on self_ax_surface clear) v.

End Canvas.

Module Requests.

Import plot_view main_window.

(** The three parts of a window the engine writes to. *)
Definition labels (w : MainWindow) : string * string * string :=
(label_func_evals w, label_outer_iters w, label_last_step w).


(** A freshly constructed window after the Clear button. *)
Definition cleared : MainWindow :=
after (statusBar_showMessage "Очищено") main_window.__init__.

End Requests.

Module Grid.

Import Np plot_view.

(** A statement that returns has evaluated [func] at the points [ps], in
this order. *)
Definition visits {S A} (m : M (Frame S) A) (ps : list ndarray) : Prop :=
forall w,
is_ok (outcome m w) = true ->
map fst (evaluations (after m w)) = map fst (evaluations w) ++ ps.

(** The node in row [i] and column [j] of the grid spanned by the samples
[xv] on the x1 axis and [yv] on the x2 axis, if there is one. *)
Definition cell (xv yv : list float) (i j : Z) : list ndarray :=
match nth_error yv (Z.to_nat i) with
| Some b =>
match nth_error xv (Z.to_nat j) with
| Some a => [vec [a; b]]
| None => []
end
| None => []
end.

(** The nodes of the grid, row by row: x2 is fixed along a row and x1
runs fastest. *)
Definition grid_nodes (xv yv : list float) : list ndarray :=
flat_map (fun b => map (fun a => vec [a; b]) xv) yv.

End Grid.

Module Drawing.

Import Np Mpl plot_view.

(** The values [func] returned, in the order of the evaluations. *)
Definition returned (new : list (ndarray * result float)) : list float :=
flat_map (fun ev => match snd ev with Ok v => [v] | Raise _ => [] end) new.

(** A statement on an axes that only adds calls. *)
Definition appends {A} (m : M Axes A) : Prop :=
forall ax, exists cs, calls (after m ax) = calls ax ++ cs.

(** A statement on the widget, or on a frame, under which the calls on the
axes [h] only grow, whether it returns or raises. *)
Definition grows_view {A} (h : PlotView -> Axes) (m : M PlotView A) : Prop :=
forall v, exists cs, calls (h (after m v)) = calls (h v) ++ cs.

Definition grows {S A} (h : PlotView -> Axes) (m : M (Frame S) A) : Prop :=
forall w, exists cs, calls (h (self (after m w))) = calls (h (self w)) ++ cs.

(** A statement that, when it returns, has left the call [c] on the axes
[h]. *)
Definition draws {S A} (h : PlotView -> Axes) (m : M (Frame S) A) (c : Call)
: Prop :=
forall w, is_ok (outcome m w) = true -> In c (calls (h (self (after m w)))).

(** A loop that, when it returns, returns a matrix of [n] rows of [n]
values which are, row after row, the values [func] returned during the
loop. *)
Definition fills {S} (m : M (Frame S) (list (list float))) (n : nat) : Prop :=
forall w Zm w',
m w = (Ok Zm, w') ->
List.length Zm = n /\
Forall (fun r => List.length r = n) Zm /\
exists new,
evaluations w' = evaluations w ++ new /\ returned new = concat Zm.

(** The two calls that draw the function: lines 305-311 and 366-376. *)
Definition contour_call (X1 X2 Zm : list (list float)) (levels : Z) : Call :=
mk_call "contour" [Mat X1; Mat X2; Mat Zm]
[("levels", Int levels); ("cmap", Str "plasma")].

Definition surface_call (X1 X2 Zm : list (list float)) : Call :=
mk_call "plot_surface" [Mat X1; Mat X2; Mat Zm]
[("rstride", Int 1); ("cstride", Int 1); ("cmap", Str "plasma");
("edgecolor", Str "#020617"); ("linewidth", Num 0.2%float);
("alpha", Num 0.9%float)].

(** The three calls that draw the trajectory on the contour axes: lines
324-351. *)
Definition trajectory_call (xs ys : list float) : Call :=
mk_call "plot" [Vec xs; Vec ys]
[("marker", Str "o"); ("linestyle", Str "-"); ("linewidth", Num 1.4%float);
("markersize", Int 4); ("color", Str _ACCENT_3);
("label", Str "Траєкторія")].

Definition start_call (p : float * float) : Call :=
mk_call "scatter" [Num (fst p); Num (snd p)]
[("marker", Str "s"); ("s", Int 50); ("color", Str _ACCENT_1);
("label", Str "Старт"); ("zorder", Int 5)].

Definition minimum_call (p : float * float) : Call :=
mk_call "scatter" [Num (fst p); Num (snd p)]
[("marker", Str "*"); ("s", Int 120); ("color", Str _ACCENT_2);
("label", Str "Мінімум"); ("zorder", Int 5)].

(** A statement that, when it returns, has ended with evaluating [func]
at the points [ps], and has left on the axes [h] the calls [cs zs] made
of the values [zs] returned there. *)
Definition traces {S A} (h : PlotView -> Axes) (m : M (Frame S) A)
(ps : list ndarray) (cs : list float -> list Call) : Prop :=
forall w,
is_ok (outcome m w) = true ->
exists earlier zs,
List.length zs = List.length ps /\
evaluations (after m w)
= evaluations w ++ earlier ++ combine ps (map Ok zs) /\
forall c, In c (cs zs) -> In c (calls (h (self (after m w)))).

(** The three calls that draw the trajectory on the surface axes: lines
392-429. *)
Definition surface_trajectory_call (xs ys zs : list float) : Call :=
mk_call "plot" [Vec xs; Vec ys; Vec zs]
[("color", Str _ACCENT_1); ("marker", Str "o"); ("linestyle", Str "-");
("linewidth", Num 2.2%float); ("markersize", Int 5);
("markerfacecolor", Str _ACCENT_1);
("markeredgecolor", Str "#020617"); ("markeredgewidth", Num 0.8%float);
("zorder", Int 10); ("label", Str "Траєкторія")].

Definition surface_start_call (p : float * float) (z : float) : Call :=
mk_call "scatter" [Vec [fst p]; Vec [snd p]; Vec [z]]
[("color", Str _ACCENT_1); ("marker", Str "s"); ("s", Int 60);
("edgecolor", Str "#020617"); ("linewidths", Num 1.0%float);
("label", Str "Старт"); ("zorder", Int 11)].

Definition surface_minimum_call (p : float * float) (z : float) : Call :=
mk_call "scatter" [Vec [fst p]; Vec [snd p]; Vec [z]]
[("color", Str _ACCENT_2); ("marker", Str "*"); ("s", Int 110);
("edgecolor", Str "#020617"); ("linewidths", Num 1.0%float);
("label", Str "Мінімум"); ("zorder", Int 12)].

(** The contour and the surface left on the widget are drawn over one
mesh, and the samples of that mesh on [axis] are
[np.linspace(lo, hi, grid_size)] for the bounds [b = (lo, hi)]. *)
Definition sampled {S} (w : Frame S) (levels grid_size : Z) (axis : nat)
(b : float * float) : Prop :=
exists xv yv Zm,
linspace (fst b) (snd b) grid_size = Ok (Trajectory.interval axis (xv, yv)) /\
In (contour_call (fst (meshgrid xv yv)) (snd (meshgrid xv yv)) Zm levels)
 (calls (ax_contour (self w))) /\
In (surface_call (fst (meshgrid xv yv)) (snd (meshgrid xv yv)) Zm)
 (calls (ax_surface (self w))).

(** Whether it returns or raises, the statement has evaluated [func] at
the first so many of the points [ps], in their order, and nowhere else; at
all of them when it returns. *)
Definition visits_part {S A} (m : M (Frame S) A) (ps : list ndarray) : Prop :=
forall w,
exists done rest,
ps = done ++ rest /\
map fst (evaluations (after m w)) = map fst (evaluations w) ++ done /\
(is_ok (outcome m w) = true -> rest = []).

(** Whether it returns or raises, the statement has evaluated [func] at
least once. *)
Definition begins {S A} (m : M (Frame S) A) : Prop :=
forall w,
exists x r rest, evaluations (after m w) = evaluations w ++ (x, r) :: rest.

End Drawing.

(* ================================================================== *)
(** * Facts about the order of binary64                                *)
(* ================================================================== *)

Import Np Mpl plot_view main_window FloatOrder Trajectory Logic Window.
Import Canvas Requests Grid Drawing.
Local Open Scope Z_scope.


Lemma lex_not_Gt p q : lex p q <> Gt <-> lex_le p q.
Proof.
  destruct p as [[a b] c], q as [[a' b'] c']. unfold lex, lex_le.
  destruct (Z.compare_spec a a'), (Z.compare_spec b b'),
    (Z.compare_spec c c'); split; intros Hyp; try congruence; try lia.
Qed.

Lemma lex_Lt p q : lex p q = Lt -> lex_le p q.
Proof. intros H. apply lex_not_Gt. congruence. Qed.

Lemma lex_not_Lt p q : lex q p <> Lt -> lex_le p q.
Proof.
  destruct p as [[a b] c], q as [[a' b'] c']. unfold lex, lex_le.
  destruct (Z.compare_spec a' a), (Z.compare_spec b' b),
    (Z.compare_spec c' c); intros Hyp; try congruence; try lia.
Qed.

Lemma lex_le_refl p : lex_le p p.
Proof. destruct p as [[a b] c]. unfold lex_le. lia. Qed.

Lemma lex_le_trans p q r : lex_le p q -> lex_le q r -> lex_le p r.
Proof.
  destruct p as [[a b] c], q as [[a' b'] c'], r as [[a'' b''] c''].
  unfold lex_le. lia.
Qed.

Lemma SFcompare_rank f g :
  f <> S754_nan -> g <> S754_nan ->
  SFcompare f g = Some (lex (rank f) (rank g)).
Proof.
  intros Hf Hg.
  destruct f as [sf|sf| |sf mf ef], g as [sg|sg| |sg mg eg];
    try congruence; try (destruct sf, sg; reflexivity);
    try (destruct sf; reflexivity); try (destruct sg; reflexivity).
  destruct sf, sg; cbn [SFcompare rank lex]; try reflexivity.
  rewrite !Z.compare_opp, (Z.compare_antisym ef eg).
    destruct (ef ?= eg); cbn [CompOpp]; try reflexivity.
    f_equal. change (Pos.compare_cont Eq mf mg) with (Pos.compare mf mg).
    cbn [Z.compare]. now rewrite (Pos.compare_antisym mf mg).
Qed.

Local Open Scope float_scope.

Lemma number_spec x : number x -> Prim2SF x <> S754_nan.
Proof.
  unfold number, is_nan. rewrite eqb_spec. intros H E. rewrite E in H.
  discriminate.
Qed.

Lemma leb_le x y : number x -> number y -> ((x <=? y) = true <-> le x y).
Proof.
  intros Hx Hy. rewrite leb_spec. unfold SFleb, le.
  rewrite (SFcompare_rank (number_spec Hx) (number_spec Hy)).
  rewrite <- lex_not_Gt.
  destruct (lex _ _); split; congruence.
Qed.

Lemma leb_refl x : number x -> (x <=? x) = true.
Proof. intros H. apply (leb_le H H). apply lex_le_refl. Qed.

Lemma leb_trans x y z :
  number x -> number y -> number z ->
  (x <=? y) = true -> (y <=? z) = true -> (x <=? z) = true.
Proof.
  intros Hx Hy Hz Hxy Hyz. apply (leb_le Hx Hz).
  apply (leb_le Hx Hy) in Hxy. apply (leb_le Hy Hz) in Hyz.
  exact (lex_le_trans _ _ _ Hxy Hyz).
Qed.

Lemma ltb_leb x y : number x -> number y -> (x <? y) = true -> (x <=? y) = true.
Proof.
  intros Hx Hy. rewrite ltb_spec, leb_spec. unfold SFltb, SFleb.
  destruct (SFcompare _ _) as [[]|]; congruence.
Qed.

Lemma not_ltb_leb x y :
  number x -> number y -> (y <? x) = false -> (x <=? y) = true.
Proof.
  intros Hx Hy H. apply (leb_le Hx Hy). unfold le.
  apply lex_not_Lt. rewrite ltb_spec in H. unfold SFltb in H.
  rewrite (SFcompare_rank (number_spec Hy) (number_spec Hx)) in H.
  destruct (lex _ _); congruence.
Qed.

(* ================================================================== *)
(** * Facts about numpy on planar trajectories                         *)
(* ================================================================== *)


Lemma chunks_points (pts : list (float * float)) :
  chunks (List.length pts) 2 (concat (map data (map point pts)))
  = map (fun p => [fst p; snd p]) pts.
Proof.
  induction pts as [|p pts IH]; simpl; [reflexivity|].
  now rewrite IH.
Qed.

Lemma stack_points (pts : list (float * float)) :
  pts <> [] ->
  stack (map point pts)
  = Ok (mk_ndarray [List.length pts; 2%nat]
          (concat (map data (map point pts)))).
Proof.
  destruct pts as [|p pts]; [congruence|intros _].
  unfold stack; cbn [map].
  match goal with
  | |- context [forallb ?g ?l] => assert (E : forallb g l = true)
  end.
  { apply forallb_forall. intros a Ha.
    apply in_map_iff in Ha. destruct Ha as [q [<- _]]. reflexivity. }
  rewrite E. cbn [List.length shape point vec]. now rewrite !length_map.
Qed.

Lemma rows_stacked pts :
  rows (stacked pts) = map (fun p => [fst p; snd p]) pts.
Proof. unfold rows, stacked; simpl. apply chunks_points. Qed.

Lemma column_0_stacked pts : column (stacked pts) 0 = map fst pts.
Proof.
  unfold column. rewrite rows_stacked, map_map. reflexivity.
Qed.

Lemma column_1_stacked pts : column (stacked pts) 1 = map snd pts.
Proof.
  unfold column. rewrite rows_stacked, map_map. reflexivity.
Qed.

Lemma iter_rows_stacked pts : iter_rows (stacked pts) = map point pts.
Proof.
  unfold iter_rows. rewrite rows_stacked, map_map. reflexivity.
Qed.

Lemma planar_length its pts : planar its pts -> List.length its = List.length pts.
Proof.
  unfold planar. intros H.
  rewrite <- (length_map IterationResult.x its), H. apply length_map.
Qed.

Lemma planar_nonempty its pts : planar its pts -> its <> [] -> pts <> [].
Proof.
  intros H Hne ->. destruct its; [congruence|discriminate].
Qed.

Lemma min2_same c : min2 c c = c.
Proof. unfold min2. destruct (is_nan c), (c <? c); reflexivity. Qed.

Lemma max2_same c : max2 c c = c.
Proof. unfold max2. destruct (is_nan c), (c <? c); reflexivity. Qed.

Lemma fold_min2_const c l :
  (forall y, In y l -> y = c) -> fold_left min2 l c = c.
Proof.
  induction l as [|y l IH]; intros H; simpl; [reflexivity|].
  rewrite (H y (or_introl eq_refl)), min2_same.
  apply IH. intros z Hz. apply H. now right.
Qed.

Lemma fold_max2_const c l :
  (forall y, In y l -> y = c) -> fold_left max2 l c = c.
Proof.
  induction l as [|y l IH]; intros H; simpl; [reflexivity|].
  rewrite (H y (or_introl eq_refl)), max2_same.
  apply IH. intros z Hz. apply H. now right.
Qed.

Lemma amin_const c l :
  l <> [] -> (forall y, In y l -> y = c) -> amin l = Ok c.
Proof.
  destruct l as [|a l]; [congruence|]. intros _ H. simpl.
  rewrite (H a (or_introl eq_refl)). f_equal.
  apply fold_min2_const. intros; apply H; now right.
Qed.

Lemma amax_const c l :
  l <> [] -> (forall y, In y l -> y = c) -> amax l = Ok c.
Proof.
  destruct l as [|a l]; [congruence|]. intros _ H. simpl.
  rewrite (H a (or_introl eq_refl)). f_equal.
  apply fold_max2_const. intros; apply H; now right.
Qed.

(** The reductions return an element of a non-empty column. *)
Lemma fold_min2_In l a : In (fold_left min2 l a) (a :: l).
Proof.
  revert a. induction l as [|y l IH]; intros a; simpl; [now left|].
  destruct (IH (min2 a y)) as [H|H].
  - rewrite <- H. unfold min2.
    destruct (is_nan a); [now left|].
    destruct (a <? y); [now left|right; now left].
  - right. now right.
Qed.

Lemma fold_max2_In l a : In (fold_left max2 l a) (a :: l).
Proof.
  revert a. induction l as [|y l IH]; intros a; simpl; [now left|].
  destruct (IH (max2 a y)) as [H|H].
  - rewrite <- H. unfold max2.
    destruct (is_nan a); [now left|].
    destruct (y <? a); [now left|right; now left].
  - right. now right.
Qed.

Lemma column_stacked axis pts :
  (axis < 2)%nat ->
  column (stacked pts) axis = map (coordinate axis) pts.
Proof.
  intros H. destruct axis as [|[|n]]; [apply column_0_stacked|apply column_1_stacked|lia].
Qed.

Lemma amin_total l : l <> [] -> exists m, amin l = Ok m /\ In m l.
Proof.
  destruct l as [|a l]; [congruence|intros _].
  eexists; split; [reflexivity|apply fold_min2_In].
Qed.

Lemma amax_total l : l <> [] -> exists m, amax l = Ok m /\ In m l.
Proof.
  destruct l as [|a l]; [congruence|intros _].
  eexists; split; [reflexivity|apply fold_max2_In].
Qed.

Lemma map_nonempty {A B} (g : A -> B) (l : list A) : l <> [] -> map g l <> [].
Proof. destruct l; [congruence|discriminate]. Qed.

(** On a planar trajectory the domain is computed, without a raise, from
    the least and the greatest coordinate on each axis. *)
Lemma trajectory_domain_planar padding its pts :
  its <> [] -> planar its pts ->
  exists lo1 hi1 lo2 hi2,
    amin (map fst pts) = Ok lo1 /\ amax (map fst pts) = Ok hi1 /\
    amin (map snd pts) = Ok lo2 /\ amax (map snd pts) = Ok hi2 /\
    trajectory_domain padding its
    = Ok (axis_bounds padding lo1 hi1, axis_bounds padding lo2 hi2).
Proof.
  intros Hne Hpl.
  pose proof (planar_nonempty Hpl Hne) as Hpts.
  destruct (amin_total (map_nonempty fst Hpts)) as [lo1 [E1 _]].
  destruct (amax_total (map_nonempty fst Hpts)) as [hi1 [E2 _]].
  destruct (amin_total (map_nonempty snd Hpts)) as [lo2 [E3 _]].
  destruct (amax_total (map_nonempty snd Hpts)) as [hi2 [E4 _]].
  exists lo1, hi1, lo2, hi2. repeat split; trivial.
  unfold trajectory_domain. rewrite Hpl, (stack_points Hpts).
  cbn [and_then]. fold (stacked pts). unfold grid_domain.
  rewrite column_0_stacked, column_1_stacked, E1, E2, E3, E4.
  reflexivity.
Qed.

Lemma axis_bounds_unfold padding lo hi :
  axis_bounds padding lo hi
  = if degenerate lo hi then ((lo - 1.0) - padding, (hi + 1.0) + padding)
    else (lo - padding, hi + padding).
Proof.
  unfold axis_bounds, expand_degenerate, apply_padding, degenerate.
  destruct (abs (hi - lo) <? 1e-9); reflexivity.
Qed.

Lemma trajectory_domain_axis axis padding its pts :
  (axis < 2)%nat -> its <> [] -> planar its pts ->
  exists lo hi d,
    amin (map (coordinate axis) pts) = Ok lo /\
    amax (map (coordinate axis) pts) = Ok hi /\
    trajectory_domain padding its = Ok d /\
    interval axis d = axis_bounds padding lo hi.
Proof.
  intros Hax Hne Hpl.
  destruct (trajectory_domain_planar padding Hne Hpl)
    as [lo1 [hi1 [lo2 [hi2 [E1 [E2 [E3 [E4 E]]]]]]]].
  destruct axis as [|[|n]]; [| |lia].
  - exists lo1, hi1; eexists; repeat split; eauto.
  - exists lo2, hi2; eexists; repeat split; eauto.
Qed.

Lemma min2_number a b : number a -> number b -> number (min2 a b).
Proof.
  unfold min2, number. intros Ha Hb. rewrite Ha.
  destruct (a <? b); assumption.
Qed.

Lemma max2_number a b : number a -> number b -> number (max2 a b).
Proof.
  unfold max2, number. intros Ha Hb. rewrite Ha.
  destruct (b <? a); assumption.
Qed.

Lemma min2_below a b :
  number a -> number b ->
  (min2 a b <=? a) = true /\ (min2 a b <=? b) = true.
Proof.
  intros Ha Hb. unfold min2. rewrite Ha.
  destruct (a <? b) eqn:E.
  - split; [now apply leb_refl|now apply ltb_leb].
  - split; [now apply not_ltb_leb|now apply leb_refl].
Qed.

Lemma max2_above a b :
  number a -> number b ->
  (a <=? max2 a b) = true /\ (b <=? max2 a b) = true.
Proof.
  intros Ha Hb. unfold max2. rewrite Ha.
  destruct (b <? a) eqn:E.
  - split; [now apply leb_refl|now apply ltb_leb].
  - split; [now apply not_ltb_leb|now apply leb_refl].
Qed.

Lemma fold_min2_below l : forall a,
  number a -> (forall y, In y l -> number y) ->
  number (fold_left min2 l a) /\
  forall y, In y (a :: l) -> (fold_left min2 l a <=? y) = true.
Proof.
  induction l as [|b l IH]; intros a Ha Hl; cbn [fold_left].
  - split; [exact Ha|]. intros y [<-|[]]. now apply leb_refl.
  - assert (Hb : number b) by (apply Hl; now left).
    assert (Hm : number (min2 a b)) by now apply min2_number.
    destruct (IH (min2 a b) Hm) as [Hn Hle].
    { intros y Hy. apply Hl. now right. }
    split; [exact Hn|].
    destruct (min2_below Ha Hb) as [H1 H2].
    pose proof (Hle _ (or_introl eq_refl)) as H0.
    intros y [<-|[<-|Hy]].
    + now apply (leb_trans Hn Hm Ha).
    + now apply (leb_trans Hn Hm Hb).
    + apply Hle. now right.
Qed.

Lemma fold_max2_above l : forall a,
  number a -> (forall y, In y l -> number y) ->
  number (fold_left max2 l a) /\
  forall y, In y (a :: l) -> (y <=? fold_left max2 l a) = true.
Proof.
  induction l as [|b l IH]; intros a Ha Hl; cbn [fold_left].
  - split; [exact Ha|]. intros y [<-|[]]. now apply leb_refl.
  - assert (Hb : number b) by (apply Hl; now left).
    assert (Hm : number (max2 a b)) by now apply max2_number.
    destruct (IH (max2 a b) Hm) as [Hn Hle].
    { intros y Hy. apply Hl. now right. }
    split; [exact Hn|].
    destruct (max2_above Ha Hb) as [H1 H2].
    pose proof (Hle _ (or_introl eq_refl)) as H0.
    intros y [<-|[<-|Hy]].
    + now apply (leb_trans Ha Hm Hn).
    + now apply (leb_trans Hb Hm Hn).
    + apply Hle. now right.
Qed.

Lemma amin_below l m :
  amin l = Ok m -> (forall y, In y l -> number y) ->
  forall y, In y l -> (m <=? y) = true.
Proof.
  destruct l as [|a l]; [discriminate|]. cbn [amin]. intros E Hl.
  injection E as <-. apply fold_min2_below.
  - apply Hl. now left.
  - intros y Hy. apply Hl. now right.
Qed.

Lemma amax_above l m :
  amax l = Ok m -> (forall y, In y l -> number y) ->
  forall y, In y l -> (y <=? m) = true.
Proof.
  destruct l as [|a l]; [discriminate|]. cbn [amax]. intros E Hl.
  injection E as <-. apply fold_max2_above.
  - apply Hl. now left.
  - intros y Hy. apply Hl. now right.
Qed.

Lemma amin_In l m : amin l = Ok m -> In m l.
Proof.
  destruct l as [|a l]; [discriminate|]. cbn [amin]. intros E.
  injection E as <-. apply fold_min2_In.
Qed.

Lemma amax_In l m : amax l = Ok m -> In m l.
Proof.
  destruct l as [|a l]; [discriminate|]. cbn [amax]. intros E.
  injection E as <-. apply fold_max2_In.
Qed.


(* ================================================================== *)
(** * Facts about statements                                           *)
(* ================================================================== *)

Lemma preserves_bind {W A B C} (h : W -> C) (m : M W A) (k : A -> M W B) :
  preserves h m -> (forall a, preserves h (k a)) -> preserves h (bind m k).
Proof.
  intros Hm Hk w. unfold after, bind. specialize (Hm w). unfold after in Hm.
  destruct (m w) as [[a|e] w']; cbn [snd] in *.
  - rewrite <- Hm. apply Hk.
  - exact Hm.
Qed.

Lemma preserves_lift {W A C} (h : W -> C) (r : result A) :
  preserves h (lift (W := W) r).
Proof. intros w. reflexivity. Qed.

Lemma preserves_ret {W A C} (h : W -> C) (a : A) :
  preserves h (ret (W := W) a).
Proof. intros w. reflexivity. Qed.

Lemma preserves_for_each {W A B C} (h : W -> C) (xs : list A)
    (body : A -> B -> M W B) :
  (forall x acc, preserves h (body x acc)) ->
  forall acc, preserves h (for_each xs acc body).
Proof.
  intros Hb. induction xs as [|x xs IH]; intros acc; cbn [for_each].
  - apply preserves_ret.
  - apply preserves_bind; [apply Hb|intros; apply IH].
Qed.

Lemma preserves_comprehension {W A B C} (h : W -> C) (xs : list A)
    (body : A -> M W B) :
  (forall x, preserves h (body x)) ->
  preserves h (comprehension xs body).
Proof.
  intros Hb. induction xs as [|x xs IH]; cbn [comprehension].
  - apply preserves_ret.
  - apply preserves_bind; [apply Hb|intros].
    apply preserves_bind; [apply IH|intros; apply preserves_ret].
Qed.

Lemma total_bind {W A B} (m : M W A) (k : A -> M W B) :
  total m -> (forall a, total (k a)) -> total (bind m k).
Proof.
  intros Hm Hk w. destruct (Hm w) as [a Ha]. unfold outcome, bind in *.
  destruct (m w) as [r w']; cbn [fst] in Ha; subst r. apply Hk.
Qed.

Lemma total_modify {W} (g : W -> W) : total (modify g).
Proof. intros w. now exists tt. Qed.

Lemma total_on {W V A} (a : Attr W V) (m : M V A) : total m -> total (on a m).
Proof.
  intros Hm w. destruct (Hm (getattr a w)) as [x Hx]. exists x.
  unfold outcome, on in *. destruct (m (getattr a w)); exact Hx.
Qed.

(** ** The axes and the figure *)

Lemma clear_projection : preserves projection clear.
Proof. intros ax. reflexivity. Qed.

Lemma set_facecolor_projection c : preserves projection (set_facecolor c).
Proof. intros ax. reflexivity. Qed.

Lemma spines_set_color_projection c : preserves projection (spines_set_color c).
Proof. intros ax. reflexivity. Qed.

Lemma spines_set_linewidth_projection lw :
  preserves projection (spines_set_linewidth lw).
Proof. intros ax. reflexivity. Qed.

Lemma invoke_projection name a kw : preserves projection (invoke name a kw).
Proof. intros ax. reflexivity. Qed.

Lemma clear_untouched : preserves untouched clear.
Proof. intros ax. reflexivity. Qed.

Lemma set_facecolor_untouched c : preserves untouched (set_facecolor c).
Proof. intros ax. reflexivity. Qed.

Lemma invoke_untouched name a kw : preserves untouched (invoke name a kw).
Proof. intros ax. reflexivity. Qed.

Lemma contour_projection X Y Zm kw : preserves projection (contour X Y Zm kw).
Proof. intros ax. unfold contour. destruct (_ || _); reflexivity. Qed.

Lemma Axes3D_text_untouched a kw : preserves untouched (Axes3D.text a kw).
Proof. intros ax. unfold Axes3D.text. destruct (Axes3D.missing a kw); reflexivity. Qed.

Ltac axes_keep :=
  repeat
    match goal with
    | |- preserves _ (bind _ _) => apply preserves_bind; [|intros ?]
    | |- preserves projection clear => apply clear_projection
    | |- preserves projection (set_facecolor _) => apply set_facecolor_projection
    | |- preserves projection (spines_set_color _) =>
        apply spines_set_color_projection
    | |- preserves projection (spines_set_linewidth _) =>
        apply spines_set_linewidth_projection
    | |- preserves projection (invoke _ _ _) => apply invoke_projection
    | |- preserves untouched clear => apply clear_untouched
    | |- preserves untouched (set_facecolor _) => apply set_facecolor_untouched
    | |- preserves untouched (invoke _ _ _) => apply invoke_untouched
    end.

Lemma _style_2d_axes_projection : preserves projection _style_2d_axes.
Proof. unfold _style_2d_axes. axes_keep. Qed.

Lemma _style_3d_axes_untouched : preserves untouched _style_3d_axes.
Proof. unfold _style_3d_axes. axes_keep. Qed.

Lemma on_ax_fk_shell {A} (m : M Axes A) :
  preserves projection m -> preserves shell (on self_ax_fk m).
Proof.
  intros H v. specialize (H (ax_fk v)). unfold after, on, shell in *.
  cbn [getattr self_ax_fk] in *. destruct (m (ax_fk v)) as [r a].
  cbn in *. now rewrite H.
Qed.

Lemma on_ax_contour_shell {A} (m : M Axes A) :
  preserves projection m -> preserves shell (on self_ax_contour m).
Proof.
  intros H v. specialize (H (ax_contour v)). unfold after, on, shell in *.
  cbn [getattr self_ax_contour] in *. destruct (m (ax_contour v)) as [r a].
  cbn in *. now rewrite H.
Qed.

Lemma on_ax_surface_shell {A} (m : M Axes A) :
  preserves untouched m -> preserves shell (on self_ax_surface m).
Proof.
  intros H v. specialize (H (ax_surface v)). unfold after, on, shell in *.
  cbn [getattr self_ax_surface] in *. destruct (m (ax_surface v)) as [r a].
  cbn in *. now rewrite H.
Qed.

Lemma tight_layout_shell pad : preserves shell (on self_figure (tight_layout pad)).
Proof. intros v. reflexivity. Qed.

Lemma draw_idle_shell : preserves shell (on self_figure draw_idle).
Proof. intros v. reflexivity. Qed.

Ltac view_keep :=
  repeat
    match goal with
    | |- preserves _ (bind _ _) => apply preserves_bind; [|intros ?]
    | |- preserves shell (on self_figure (tight_layout _)) =>
        apply tight_layout_shell
    | |- preserves shell (on self_figure draw_idle) => apply draw_idle_shell
    | |- preserves shell (on self_ax_fk _) => apply on_ax_fk_shell
    | |- preserves shell (on self_ax_contour _) => apply on_ax_contour_shell
    | |- preserves shell (on self_ax_surface _) => apply on_ax_surface_shell
    | |- preserves projection _style_2d_axes => apply _style_2d_axes_projection
    | |- preserves untouched _style_3d_axes => apply _style_3d_axes_untouched
    | |- preserves projection clear => apply clear_projection
    | |- preserves projection (invoke _ _ _) => apply invoke_projection
    | |- preserves untouched clear => apply clear_untouched
    | |- preserves untouched (invoke _ _ _) => apply invoke_untouched
    | |- preserves projection (contour _ _ _ _) => apply contour_projection
    | |- preserves untouched (Axes3D.text _ _) => apply Axes3D_text_untouched
    end.

Lemma _redraw_shell : preserves shell _redraw.
Proof. unfold _redraw. view_keep. Qed.

Lemma _apply_cyberpunk_style_all_shell : preserves shell _apply_cyberpunk_style_all.
Proof. unfold _apply_cyberpunk_style_all. view_keep. Qed.

Lemma _clear_all_axes_shell : preserves shell _clear_all_axes.
Proof. unfold _clear_all_axes. view_keep. Qed.

Lemma show_placeholder_shell : preserves shell show_placeholder.
Proof.
  unfold show_placeholder.
  repeat
    match goal with
    | |- preserves _ (bind _ _) => apply preserves_bind; [|intros ?]
    | |- preserves shell _clear_all_axes => apply _clear_all_axes_shell
    | |- preserves shell _apply_cyberpunk_style_all =>
        apply _apply_cyberpunk_style_all_shell
    | |- preserves shell _redraw => apply _redraw_shell
    end; view_keep.
Qed.

Lemma plot_fk_shell its : preserves shell (plot_fk its).
Proof.
  unfold plot_fk. destruct (is_empty its); [apply show_placeholder_shell|].
  repeat
    match goal with
    | |- preserves _ (bind _ _) => apply preserves_bind; [|intros ?]
    | |- preserves shell _redraw => apply _redraw_shell
    end; view_keep.
Qed.

(** ** Statements of [plot_contour_trajectory] *)

Section FrameRules.

Variable S : Type.
Implicit Types w : Frame S.

Lemma sound_ret {A} (a : A) : sound (ret (W := Frame S) a).
Proof.
intros w. split; [reflexivity|]. exists []. split.
- cbn. now rewrite app_nil_r.
- intros p e [].
Qed.

Lemma sound_lift {A} (r : result A) : sound (lift (W := Frame S) r).
Proof.
intros w. split; [reflexivity|]. exists []. split.
- cbn. now rewrite app_nil_r.
- intros p e [].
Qed.

Lemma sound_on_self {A} (m : M PlotView A) :
preserves shell m -> sound (on (self_ S) m).
Proof.
intros H w. specialize (H (self w)). unfold after, on in *.
cbn [getattr self_] in *. destruct (m (self w)) as [r v].
cbn in *. split; [exact H|]. exists []. split.
- now rewrite app_nil_r.
- intros p e [].
Qed.

Lemma sound_call (func : Callable S) (x : ndarray) : sound (call func x).
Proof.
intros w. unfold after, outcome, call. destruct (func x (callee w)) as [r s'].
cbn. split; [reflexivity|]. exists [(x, r)]. split; [reflexivity|].
intros p e [H|[]]. injection H as -> ->. split; [reflexivity|].
now exists [].
Qed.

Lemma sound_bind {A B} (m : M (Frame S) A) (k : A -> M (Frame S) B) :
sound m -> (forall a, sound (k a)) -> sound (bind m k).
Proof.
intros Hm Hk w. destruct (Hm w) as [Hs [new1 [E1 P1]]].
unfold after, outcome, bind in *.
destruct (m w) as [[a|e] w1]; cbn [fst snd] in *.
- destruct (Hk a w1) as [Hs2 [new2 [E2 P2]]].
  unfold after, outcome in *.
  split; [now rewrite Hs2|]. exists (new1 ++ new2). split.
  + now rewrite E2, E1, app_assoc.
  + intros p e Hin. apply in_app_or in Hin. destruct Hin as [H1|H2].
    * destruct (P1 _ _ H1) as [contra _]. discriminate.
    * destruct (P2 _ _ H2) as [Ho [earlier Heq]]. split; [exact Ho|].
      exists (new1 ++ earlier). now rewrite Heq, app_assoc.
- split; [exact Hs|]. exists new1. split; [exact E1|].
  intros p e0 Hin. destruct (P1 _ _ Hin) as [Ho Hx].
  injection Ho as ->. split; [reflexivity|exact Hx].
Qed.

Lemma sound_for_each {A B} (xs : list A) (body : A -> B -> M (Frame S) B) :
(forall x acc, sound (body x acc)) ->
forall acc, sound (for_each xs acc body).
Proof.
intros Hb. induction xs as [|x xs IH]; intros acc; cbn [for_each].
- apply sound_ret.
- apply sound_bind; [apply Hb|intros; apply IH].
Qed.

Lemma sound_comprehension {A B} (xs : list A) (body : A -> M (Frame S) B) :
(forall x, sound (body x)) -> sound (comprehension xs body).
Proof.
intros Hb. induction xs as [|x xs IH]; cbn [comprehension].
- apply sound_ret.
- apply sound_bind; [apply Hb|intros].
  apply sound_bind; [apply IH|intros; apply sound_ret].
Qed.

Lemma counts_ret {A} (a : A) : counts (ret (W := Frame S) a) 0.
Proof. intros w _. cbn. lia. Qed.

Lemma counts_lift {A} (r : result A) : counts (lift (W := Frame S) r) 0.
Proof. intros w _. cbn. lia. Qed.

Lemma counts_on_self {A} (m : M PlotView A) : counts (on (self_ S) m) 0.
Proof.
intros w _. unfold after, on. cbn [getattr self_].
destruct (m (self w)). cbn. lia.
Qed.

Lemma counts_call (func : Callable S) (x : ndarray) : counts (call func x) 1.
Proof.
intros w _. unfold after, call. destruct (func x (callee w)).
cbn. rewrite length_app. reflexivity.
Qed.

Lemma counts_bind {A B} (m : M (Frame S) A) (k : A -> M (Frame S) B) a b :
counts m a -> (forall x, counts (k x) b) -> counts (bind m k) (a + b).
Proof.
intros Hm Hk w. specialize (Hm w). unfold after, outcome, bind in *.
destruct (m w) as [[x|e] w1]; cbn [fst snd] in *.
- intros Hok. specialize (Hk x w1 Hok). unfold after in Hk.
  rewrite Hk, Hm by reflexivity. lia.
- discriminate.
Qed.

Lemma counts_for_each {A B} (xs : list A) (body : A -> B -> M (Frame S) B) c :
(forall x acc, counts (body x acc) c) ->
forall acc, counts (for_each xs acc body) (List.length xs * c).
Proof.
intros Hb. induction xs as [|x xs IH]; intros acc; cbn [for_each List.length].
- apply counts_ret.
- cbn [Nat.mul]. apply counts_bind; [apply Hb|intros; apply IH].
Qed.

Lemma counts_comprehension {A B} (xs : list A) (body : A -> M (Frame S) B) c :
(forall x, counts (body x) c) ->
counts (comprehension xs body) (List.length xs * c).
Proof.
intros Hb. induction xs as [|x xs IH]; cbn [comprehension List.length].
- apply counts_ret.
- cbn [Nat.mul]. apply counts_bind; [apply Hb|intros].
  replace (List.length xs * c)%nat with (List.length xs * c + 0)%nat by lia.
  apply counts_bind; [apply IH|intros; apply counts_ret].
Qed.

Lemma counts_eq {A} (m : M (Frame S) A) n n' :
counts m n -> n = n' -> counts m n'.
Proof. now intros H <-. Qed.

End FrameRules.

Ltac keep_shell :=
  repeat
    match goal with
    | |- preserves _ (bind _ _) => apply preserves_bind; [|intros ?]
    | |- preserves shell show_placeholder => apply show_placeholder_shell
    | |- preserves shell _redraw => apply _redraw_shell
    end; view_keep.

Ltac sound_steps :=
  repeat
    match goal with
    | |- sound (bind _ _) => apply sound_bind; [|intros ?]
    | |- sound (on _ _) => apply sound_on_self; keep_shell
    | |- sound (lift _) => apply sound_lift
    | |- sound (call _ _) => apply sound_call
    | |- sound (for_each _ _ _) => apply sound_for_each; intros ? ?
    | |- sound (comprehension _ _) => apply sound_comprehension; intros ?
    | |- sound (if ?b then _ else _) => destruct b
    | |- sound (let (_, _) := ?p in _) => destruct p
    end.

Lemma plot_contour_trajectory_sound S (func : Callable S) its levels padding grid_size :
  sound (plot_contour_trajectory func its levels padding grid_size).
Proof.
  unfold plot_contour_trajectory. sound_steps.
Qed.

(** ** The three branches of [plot_contour_trajectory] *)

Lemma bind_lift_Ok {W A B} (a : A) (k : A -> M W B) :
  bind (lift (Ok a)) k = k a.
Proof. reflexivity. Qed.

Lemma bind_lift_Raise {W A B} (e : exn) (k : A -> M W B) :
  bind (lift (Raise e)) k = lift (Raise e).
Proof. reflexivity. Qed.

Lemma if_true {A} (a b : A) : (if true then a else b) = a.
Proof. reflexivity. Qed.

Lemma if_false {A} (a b : A) : (if false then a else b) = b.
Proof. reflexivity. Qed.

Lemma shape_eqb_refl s : shape_eqb s s = true.
Proof. unfold shape_eqb. destruct (list_eq_dec Nat.eq_dec s s); congruence. Qed.

Lemma stack_uniform sh its :
  its <> [] -> uniform sh its ->
  stack (map IterationResult.x its)
  = Ok (mk_ndarray (List.length its :: sh)
          (concat (map data (map IterationResult.x its)))).
Proof.
  destruct its as [|it its]; [congruence|intros _ H].
  unfold stack; cbn [map].
  match goal with
  | |- context [forallb ?g ?l] => assert (E : forallb g l = true)
  end.
  { apply forallb_forall. intros a Ha.
    apply in_map_iff in Ha. destruct Ha as [q [<- Hq]].
    rewrite (H q (or_intror Hq)), (H it (or_introl eq_refl)).
    apply shape_eqb_refl. }
  rewrite E. cbn [List.length]. rewrite length_map.
  now rewrite (H it (or_introl eq_refl)).
Qed.

Lemma not_planar_test sh n d :
  sh <> [2%nat] ->
  negb (ndim (mk_ndarray (n :: sh) d) =? 2)%nat
  || negb (nth 1 (shape (mk_ndarray (n :: sh) d)) O =? 2)%nat = true.
Proof.
  intros H. destruct sh as [|k [|k' sh]]; try reflexivity.
  cbn. destruct (Nat.eqb_spec k 2); [subst; congruence|reflexivity].
Qed.

Lemma planar_test n d :
  negb (ndim (mk_ndarray [n; 2%nat] d) =? 2)%nat
  || negb (nth 1 (shape (mk_ndarray [n; 2%nat] d)) O =? 2)%nat = false.
Proof. reflexivity. Qed.

Lemma planar_stack its pts :
  its <> [] -> planar its pts ->
  stack (map IterationResult.x its) = Ok (stacked pts).
Proof.
  intros Hne Hpl. rewrite Hpl. apply stack_points.
  exact (planar_nonempty Hpl Hne).
Qed.

Lemma length_range n : List.length (range n) = Z.to_nat n.
Proof. unfold range. now rewrite length_map, length_seq. Qed.

Lemma linspace_negative a b n :
  (n < 0)%Z -> linspace a b n = Raise (negative_samples n).
Proof.
  intros H. unfold linspace. destruct (Z.ltb_spec n 0); [reflexivity|lia].
Qed.

Ltac take_else :=
  match goal with
  | |- context [if false then ?a else ?b] =>
      change (if false then a else b) with b
  end.

Ltac take_then :=
  match goal with
  | |- context [if true then ?a else ?b] =>
      change (if true then a else b) with a
  end.

Ltac counts_steps :=
  repeat
    match goal with
    | |- counts (bind _ _) _ => eapply counts_bind; [|intros ?]
    | |- counts (on _ _) _ => apply counts_on_self
    | |- counts (lift _) _ => apply counts_lift
    | |- counts (call _ _) _ => apply counts_call
    | |- counts (for_each _ _ _) _ => eapply counts_for_each; intros ? ?
    | |- counts (comprehension _ _) _ => eapply counts_comprehension; intros ?
    | |- counts (let (_, _) := ?p in _) _ => destruct p
    end.

(** On a planar trajectory, a call that returns has evaluated [func] once
    per grid cell and once per trajectory point. *)
Lemma plot_contour_trajectory_counts S (func : Callable S) its pts levels padding grid_size :
  its <> [] -> planar its pts ->
  counts (plot_contour_trajectory func its levels padding grid_size)
         (Z.to_nat grid_size * Z.to_nat grid_size + List.length its).
Proof.
  intros Hne Hpl. unfold plot_contour_trajectory.
  rewrite (planar_stack Hne Hpl).
  destruct its as [|it its]; [congruence|]. cbn [is_empty].
  rewrite bind_lift_Ok. unfold stacked at 1 2. rewrite planar_test. try take_else.
  eapply counts_eq.
  - counts_steps.
  - rewrite !length_range, iter_rows_stacked, length_map.
    rewrite <- (planar_length Hpl). cbn [List.length]. lia.
Qed.

Lemma planar_grid_domain padding its pts :
  its <> [] -> planar its pts ->
  exists d, grid_domain padding (stacked pts) = Ok d.
Proof.
  intros Hne Hpl.
  destruct (trajectory_domain_planar padding Hne Hpl)
    as [lo1 [hi1 [lo2 [hi2 [_ [_ [_ [_ E]]]]]]]].
  unfold trajectory_domain in E. rewrite (planar_stack Hne Hpl) in E.
  cbn [and_then] in E. eauto.
Qed.

(** A negative [grid_size] on a planar trajectory: [np.linspace] raises
    before [func] is evaluated anywhere. *)
Lemma plot_contour_trajectory_negative_grid S (func : Callable S) its pts levels padding grid_size :
  its <> [] -> planar its pts -> (grid_size < 0)%Z ->
  forall w,
    plot_contour_trajectory func its levels padding grid_size w
    = (Raise (negative_samples grid_size),
       after (on (self_ S) (on self_ax_contour clear) ;;
              on (self_ S) (on self_ax_surface clear)) w).
Proof.
  intros Hne Hpl Hneg. unfold plot_contour_trajectory.
  rewrite (planar_stack Hne Hpl).
  destruct (planar_grid_domain padding Hne Hpl) as [[[a b] [c d]] Hd].
  destruct its as [|it its]; [congruence|]. cbn [is_empty].
  rewrite bind_lift_Ok. unfold stacked at 1 2. rewrite planar_test.
  try take_else. rewrite Hd, bind_lift_Ok. cbn [fst snd].
  rewrite (linspace_negative _ _ Hneg), bind_lift_Raise.
  intros w. reflexivity.
Qed.

(** C9: whatever [func] raises during [plot_contour_trajectory] is the
    outcome of the call: if the record of evaluations made by the call
    holds a point at which [func] raised [e], the call itself raises [e],
    and that evaluation is the last one made. *)
Theorem C9_objective_exception_propagates :
  forall (S : Type) (func : Callable S) (its : list IterationResult.t)
         (levels : Z) (padding : float) (grid_size : Z) (w : Frame S)
         (new : list (ndarray * result float)) (p : ndarray) (e : exn),
    evaluations (after (plot_contour_trajectory func its levels padding grid_size) w)
    = evaluations w ++ new ->
    In (p, Raise e) new ->
    outcome (plot_contour_trajectory func its levels padding grid_size) w = Raise e /\
    exists earlier, new = earlier ++ [(p, Raise e)].
Proof.
  intros S func its levels padding grid_size w new p e E Hin.
  destruct (plot_contour_trajectory_sound func its levels padding grid_size w)
    as [_ [new' [E' P]]].
  rewrite E' in E. apply app_inv_head in E. subst new'. now apply P.
Qed.

Lemma C9_objective_exception_propagates_witness :
  outcome (plot_contour_trajectory refusing upright 20 0.5 3)
          (mk_Frame plot_view.__init__ tt [])
  = Raise (UserError "refused") /\
  exists earlier,
    [(vec [1.5; 0.5], @Raise float (UserError "refused"))]
    = earlier ++ [(vec [1.5; 0.5], Raise (UserError "refused"))].
Proof.
  apply (@C9_objective_exception_propagates unit refusing upright 20 0.5 3
           (mk_Frame plot_view.__init__ tt [])
           [(vec [1.5; 0.5], Raise (UserError "refused"))]
           (vec [1.5; 0.5]) (UserError "refused")).
  - vm_compute. reflexivity.
  - left. reflexivity.
Defined.

(** C10: on a non-empty planar trajectory of n points, a call of
    [plot_contour_trajectory] that returns has evaluated [func] exactly
    grid_size * grid_size + n times. *)
Theorem C10_objective_call_count :
  forall (S : Type) (func : Callable S) (its : list IterationResult.t)
         (pts : list (float * float)) (levels : Z) (padding : float)
         (grid_size : Z) (w : Frame S),
    its <> [] -> planar its pts ->
    outcome (plot_contour_trajectory func its levels padding grid_size) w = Ok tt ->
    exists new,
      evaluations (after (plot_contour_trajectory func its levels padding grid_size) w)
      = evaluations w ++ new /\
      Z.of_nat (List.length new)
      = (grid_size * grid_size + Z.of_nat (List.length its))%Z.
Proof.
  intros S func its pts levels padding grid_size w Hne Hpl Hok.
  destruct (plot_contour_trajectory_sound func its levels padding grid_size w)
    as [_ [new [E _]]].
  exists new. split; [exact E|].
  assert (Hg : (0 <= grid_size)%Z).
  { destruct (Z.lt_ge_cases grid_size 0) as [Hneg|]; [|assumption].
    unfold outcome in Hok.
    rewrite (plot_contour_trajectory_negative_grid func levels padding Hne Hpl Hneg) in Hok.
    discriminate. }
  pose proof (plot_contour_trajectory_counts func levels padding grid_size Hne Hpl w) as Hc.
  rewrite Hok in Hc. specialize (Hc eq_refl).
  rewrite E, length_app in Hc. nia.
Qed.

Lemma C10_objective_call_count_witness :
  exists new,
    evaluations (after (plot_contour_trajectory paraboloid upright 20 0.5 3)
                       (mk_Frame plot_view.__init__ tt []))
    = [] ++ new /\
    Z.of_nat (List.length new) = (3 * 3 + Z.of_nat (List.length upright))%Z.
Proof.
  apply (@C10_objective_call_count unit paraboloid upright [(3, 1); (3, 2)]
           20 0.5 3 (mk_Frame plot_view.__init__ tt [])).
  - discriminate.
  - reflexivity.
  - vm_compute. reflexivity.
Defined.

(** C1: on an empty iteration sequence [plot_fk] and
    [plot_contour_trajectory] do exactly what [show_placeholder] does, to
    the widget and to everything else, and [show_placeholder] returns
    without raising. *)
Theorem C1_empty_input_is_placeholder :
  (forall v : PlotView, plot_fk [] v = show_placeholder v) /\
  (forall (S : Type) (func : Callable S) (levels : Z) (padding : float)
          (grid_size : Z) (w : Frame S),
      plot_contour_trajectory func [] levels padding grid_size w
      = on (self_ S) show_placeholder w) /\
  (forall v : PlotView, outcome show_placeholder v = Ok tt).
Proof.
  split; [|split].
  - intros v. unfold plot_fk. cbn [is_empty]. reflexivity.
  - intros. unfold plot_contour_trajectory. cbn [is_empty].
    vm_compute. reflexivity.
  - intros v. vm_compute. reflexivity.
Qed.

(* ================================================================== *)
(** * The fallback outside the plane                                   *)
(* ================================================================== *)

(** C2, as the code has it: on a non-empty sequence whose points all have
    one shape other than that of a 2-vector, [plot_contour_trajectory]
    draws the caption on the contour axes and then raises [TypeError] at
    line 264: [self.ax_surface] is the 3-d axes, whose [text] takes
    [x, y, z, s], and the call passes three positional arguments.  The
    caption of the surface axes is not drawn, which are left cleared and
    styled; [_redraw] is not reached, so the figure is as it was; the f(k)
    axes are left alone and [func] is not evaluated. *)
Theorem C2_surface_caption_raises :
  forall (S : Type) (func : Callable S) (its : list IterationResult.t)
         (sh : list nat) (levels : Z) (padding : float) (grid_size : Z)
         (w : Frame S),
    its <> [] -> uniform sh its -> sh <> [2%nat] ->
    let run := plot_contour_trajectory func its levels padding grid_size in
    outcome run w
    = Raise (TypeError "Axes3D.text() missing 1 required positional argument: 's'") /\
    calls (ax_contour (self (after run w)))
    = removelast (calls (ax_contour (self (after run w)))) ++ [contour_caption] /\
    calls (ax_surface (self (after run w)))
    = calls (after (clear ;; _style_3d_axes) (ax_surface (self w))) /\
    ~ In surface_caption (calls (ax_surface (self (after run w)))) /\
    figure (self (after run w)) = figure (self w) /\
    ax_fk (self (after run w)) = ax_fk (self w) /\
    evaluations (after run w) = evaluations w /\
    callee (after run w) = callee w.
Proof.
  intros S func its sh levels padding grid_size w Hne Hu Hsh run.
  subst run. unfold plot_contour_trajectory.
  rewrite (stack_uniform Hne Hu).
  destruct its as [|it its]; [congruence|]. cbn [is_empty].
  rewrite bind_lift_Ok, (not_planar_test _ _ Hsh). try take_then.
  unfold outcome, after. vm_compute.
  repeat match goal with |- _ /\ _ => split end; try reflexivity.
  intros H. repeat (destruct H as [H|H]; [discriminate H|]). exact H.
Qed.

Lemma C2_surface_caption_raises_witness :
  let run := plot_contour_trajectory paraboloid spatial 20 0.5 100 in
  outcome run fresh_frame
  = Raise (TypeError "Axes3D.text() missing 1 required positional argument: 's'") /\
  calls (ax_contour (self (after run fresh_frame)))
  = removelast (calls (ax_contour (self (after run fresh_frame)))) ++ [contour_caption] /\
  calls (ax_surface (self (after run fresh_frame)))
  = calls (after (clear ;; _style_3d_axes) (ax_surface (self fresh_frame))) /\
  ~ In surface_caption (calls (ax_surface (self (after run fresh_frame)))) /\
  figure (self (after run fresh_frame)) = figure (self fresh_frame) /\
  ax_fk (self (after run fresh_frame)) = ax_fk (self fresh_frame) /\
  evaluations (after run fresh_frame) = evaluations fresh_frame /\
  callee (after run fresh_frame) = callee fresh_frame.
Proof.
  apply (@C2_surface_caption_raises unit paraboloid spatial [3%nat] 20 0.5 100 fresh_frame).
  - discriminate.
  - intros it [<-|[<-|[]]]; reflexivity.
  - discriminate.
Defined.

(* ================================================================== *)
(** * The main window                                                  *)
(* ================================================================== *)

(** C6: the three labels after [update_run_stats(None, None)] and after
    [update_run_stats(42, 0.0013, 7)], on any window. *)
Theorem C6_update_run_stats_labels :
  forall w : MainWindow,
    (let w' := after (update_run_stats None None None) w in
     label_func_evals w' = "f evals: –" /\
     label_outer_iters w' = "outer iters: –" /\
     label_last_step w' = "step: –") /\
    (let w' := after (update_run_stats (Some 42%Z) (Some 0.0013) (Some 7%Z)) w in
     label_func_evals w' = "f evals: 42" /\
     label_outer_iters w' = "outer iters: 7" /\
     label_last_step w' = "step: 1.300e-03").
Proof.
  intros w. split; vm_compute; repeat split.
Qed.

(** C7: [add_iteration_row(3, [1.0, 2.0], 5.5, 0.1)] rebuilds the record
    with index 3, point [1.0, 2.0], value 5.5, step norm 0.1 and empty
    metadata, and appends it to the table of a window that has one. *)
Theorem C7_add_iteration_row_rebuilds_record :
  rebuild (PInt 3) (PList [PFloat 1.0; PFloat 2.0]) (PFloat 5.5) (PFloat 0.1)
  = Ok (IterationResult.mk 3 (vec [1.0; 2.0]) 5.5 0.1 []) /\
  forall (w : MainWindow) (t : table_view.IterationsTableWidget),
    iterations_table w = Some t ->
    add_iteration_row (PInt 3) (PList [PFloat 1.0; PFloat 2.0]) (PFloat 5.5)
                      (PFloat 0.1) w
    = (Ok tt,
       set_iterations_table
         (table_view.mk_Table
            (table_view.rows t ++
             [table_view.mk_Row (IterationResult.mk 3 (vec [1.0; 2.0]) 5.5 0.1 [])
                                (PFloat 0.1)]))
         w).
Proof.
  split; [vm_compute; reflexivity|].
  intros w t Ht. unfold add_iteration_row.
  replace (rebuild (PInt 3) (PList [PFloat 1.0; PFloat 2.0]) (PFloat 5.5) (PFloat 0.1))
    with (Ok (IterationResult.mk 3 (vec [1.0; 2.0]) 5.5 0.1 []))
    by (vm_compute; reflexivity).
  rewrite bind_lift_Ok. unfold add_iteration, on_iterations_table.
  rewrite Ht. reflexivity.
Qed.

Lemma C7_add_iteration_row_rebuilds_record_witness :
  add_iteration_row (PInt 3) (PList [PFloat 1.0; PFloat 2.0]) (PFloat 5.5)
                    (PFloat 0.1) main_window.__init__
  = (Ok tt,
     set_iterations_table
       (table_view.mk_Table
          (table_view.rows table_view.__init__ ++
           [table_view.mk_Row (IterationResult.mk 3 (vec [1.0; 2.0]) 5.5 0.1 [])
                              (PFloat 0.1)]))
       main_window.__init__).
Proof.
  apply (proj2 C7_add_iteration_row_rebuilds_record main_window.__init__
           table_view.__init__).
  reflexivity.
Defined.

(** C8: whatever the index, the point and the value, on any window,
    [add_iteration_row] with a step of 0.0 and with a missing step end the
    same way, and when they return on a window that has a table each has
    appended one row to it, the two rows hold one and the same record, and
    that record has step norm 0.0 and the index, the point and the value
    the three coercions give.  (The rows differ in the step the table is
    handed beside the record: 0.0 and None.) *)
Theorem C8_zero_step_is_missing_step :
  forall (k x f_val : PyVal) (w : MainWindow),
    outcome (add_iteration_row k x f_val (PFloat 0.0)) w
    = outcome (add_iteration_row k x f_val PNone) w /\
    forall t : table_view.IterationsTableWidget,
      iterations_table w = Some t ->
      outcome (add_iteration_row k x f_val PNone) w = Ok tt ->
      exists index xa fv,
        PyVal_ops.int_ k = Ok index /\ array x = Ok xa /\
        PyVal_ops.float_ f_val = Ok fv /\
        let it := IterationResult.mk index xa fv 0.0 [] in
        IterationResult.step_norm it = 0.0 /\
        after (add_iteration_row k x f_val (PFloat 0.0)) w
        = set_iterations_table
            (table_view.mk_Table
               (table_view.rows t ++ [table_view.mk_Row it (PFloat 0.0)])) w /\
        after (add_iteration_row k x f_val PNone) w
        = set_iterations_table
            (table_view.mk_Table
               (table_view.rows t ++ [table_view.mk_Row it PNone])) w.
Proof.
  intros k x f_val w. unfold add_iteration_row, outcome, after.
  change (rebuild k x f_val (PFloat 0.0)) with (rebuild k x f_val PNone).
  unfold rebuild.
  destruct (PyVal_ops.int_ k) as [index|e];
    [|split; [reflexivity|intros t _ H; discriminate H]].
  destruct (array x) as [xa|e];
    [|split; [reflexivity|intros t _ H; discriminate H]].
  destruct (PyVal_ops.float_ f_val) as [fv|e];
    [|split; [reflexivity|intros t _ H; discriminate H]].
  cbn [PyVal_ops.or_ PyVal_ops.truthy PyVal_ops.float_].
  rewrite !bind_lift_Ok. unfold add_iteration, on_iterations_table.
  split.
  - destruct (iterations_table w); reflexivity.
  - intros t Ht _. rewrite Ht. exists index, xa, fv.
    repeat match goal with |- _ /\ _ => split end; reflexivity.
Qed.

Lemma C8_zero_step_is_missing_step_witness :
  exists index xa fv,
    PyVal_ops.int_ (PInt 3) = Ok index /\
    array (PList [PFloat 1.0; PFloat 2.0]) = Ok xa /\
    PyVal_ops.float_ (PFloat 5.5) = Ok fv /\
    let it := IterationResult.mk index xa fv 0.0 [] in
    IterationResult.step_norm it = 0.0 /\
    after (add_iteration_row (PInt 3) (PList [PFloat 1.0; PFloat 2.0])
             (PFloat 5.5) (PFloat 0.0)) main_window.__init__
    = set_iterations_table
        (table_view.mk_Table
           (table_view.rows table_view.__init__
            ++ [table_view.mk_Row it (PFloat 0.0)])) main_window.__init__ /\
    after (add_iteration_row (PInt 3) (PList [PFloat 1.0; PFloat 2.0])
             (PFloat 5.5) PNone) main_window.__init__
    = set_iterations_table
        (table_view.mk_Table
           (table_view.rows table_view.__init__
            ++ [table_view.mk_Row it PNone])) main_window.__init__.
Proof.
  apply (proj2 (C8_zero_step_is_missing_step
                  (PInt 3) (PList [PFloat 1.0; PFloat 2.0]) (PFloat 5.5)
                  main_window.__init__) table_view.__init__).
  - reflexivity.
  - vm_compute. reflexivity.
Defined.

(** ** Windows reachable from a fresh one *)

Lemma built_init : built main_window.__init__.
Proof.
  unfold built. repeat split. now exists table_view.__init__.
Qed.

Lemma on_plot_view_built {A} (m : M PlotView A) w :
  preserves shell m -> built w -> built (after (on self_plot_view m) w).
Proof.
  intros Hm [Ht [Hs [Htab Hsh]]]. specialize (Hm (plot_view w)).
  unfold after, on in *. cbn [getattr self_plot_view] in *.
  destruct (m (plot_view w)) as [r v]. cbn [snd] in *.
  unfold built. cbn [setattr self_plot_view window_title status_message
                     iterations_table plot_view].
  repeat split; trivial. now rewrite Hm.
Qed.

Lemma on_iterations_table_built {A} (m : M table_view.IterationsTableWidget A) w :
  built w -> built (after (on_iterations_table m) w).
Proof.
  intros [Ht [Hs [[t Htab] Hsh]]]. unfold after, on_iterations_table.
  rewrite Htab. destruct (m t) as [r t']. cbn [snd].
  unfold built, set_iterations_table.
  cbn [window_title status_message iterations_table plot_view].
  repeat split; trivial. now exists t'.
Qed.

Lemma update_run_stats_built fe ls n w :
  built w -> built (after (update_run_stats fe ls n) w).
Proof.
  intros [Ht [Hs [Htab Hsh]]]. unfold built. repeat split; assumption.
Qed.

Lemma update_contour_trajectory_built S (func : Callable S) s0 its w :
  built w -> built (after (update_contour_trajectory func s0 its) w).
Proof.
  intros [Ht [Hs [Htab Hsh]]].
  unfold after, update_contour_trajectory.
  pose proof (plot_contour_trajectory_sound func its 20 0.5 100
                (mk_Frame (plot_view w) s0 [])) as [Hk _].
  unfold after in Hk.
  destruct (plot_contour_trajectory func its 20 0.5 100
              (mk_Frame (plot_view w) s0 [])) as [r fr].
  cbn [snd self] in *.
  unfold built. cbn [setattr self_plot_view window_title status_message
                     iterations_table plot_view].
  repeat split; trivial. now rewrite Hk.
Qed.

Lemma perform_built r w : built w -> built (after (perform r) w).
Proof.
  intros Hw. destruct r as [it sv|k x f_val sv|its|S func s0 its|fe ls n];
    cbn [perform].
  - now apply on_iterations_table_built.
  - unfold add_iteration_row. destruct (rebuild k x f_val sv) as [it|e].
    + rewrite bind_lift_Ok. now apply on_iterations_table_built.
    + rewrite bind_lift_Raise. exact Hw.
  - apply on_plot_view_built; [apply plot_fk_shell|exact Hw].
  - now apply update_contour_trajectory_built.
  - now apply update_run_stats_built.
Qed.

Lemma session_built rs : forall w, built w -> built (session rs w).
Proof.
  induction rs as [|r rs IH]; intros w Hw; cbn [session]; [exact Hw|].
  apply IH. now apply perform_built.
Qed.

(** The placeholder is determined by the shell of the widget. *)
Lemma show_placeholder_shell_only v v' :
  shell v = shell v' -> show_placeholder v = show_placeholder v'.
Proof.
  destruct v as [[fs fc lp dr] [p1 f1 c1 l1 k1] [p2 f2 c2 l2 k2] [p3 f3 c3 l3 k3]].
  destruct v' as [[fs' fc' lp' dr'] [p1' f1' c1' l1' k1'] [p2' f2' c2' l2' k2']
                    [p3' f3' c3' l3' k3']].
  unfold shell, untouched.
  cbn [figure figsize fig_facecolor ax_surface ax_fk ax_contour
       projection spine_color spine_linewidth].
  intros H. injection H; intros; subst. vm_compute. reflexivity.
Qed.

Lemma show_placeholder_init : after show_placeholder plot_view.__init__ = plot_view.__init__.
Proof. vm_compute. reflexivity. Qed.

Lemma clear_results_built w :
  built w -> clear_results w = (Ok tt, main_window.__init__).
Proof.
  intros [Ht [Hs [[t Htab] Hsh]]].
  destruct w as [title status pv tab t1 t2 t3].
  destruct pv as [[fs fc lp dr] [p1 f1 c1 l1 k1] [p2 f2 c2 l2 k2] [p3 f3 c3 l3 k3]].
  cbn [window_title status_message iterations_table plot_view] in *.
  subst title status tab. vm_compute in Hsh.
  injection Hsh; intros; subst. vm_compute. reflexivity.
Qed.

(** C5: after any sequence of [add_iteration], [add_iteration_row],
    [update_fk_plot], [update_contour_trajectory] and [update_run_stats]
    requests on a freshly constructed window, whether they return or
    raise, [clear_results] returns and leaves the window equal to a
    freshly constructed one: empty table, plot showing the placeholder,
    the three labels at their placeholder texts. *)
Theorem C5_clear_results_restores_fresh_window :
  forall rs : list Request,
    clear_results (session rs main_window.__init__)
    = (Ok tt, main_window.__init__) /\
    iterations_table main_window.__init__ = Some (table_view.mk_Table []) /\
    plot_view main_window.__init__
    = after show_placeholder (plot_view (session rs main_window.__init__)) /\
    label_func_evals main_window.__init__ = "f evals: –" /\
    label_outer_iters main_window.__init__ = "outer iters: –" /\
    label_last_step main_window.__init__ = "step: –".
Proof.
  intros rs.
  pose proof (session_built rs built_init) as Hb.
  split; [now apply clear_results_built|].
  split; [vm_compute; reflexivity|]. split.
  - destruct Hb as [_ [_ [_ Hsh]]].
    transitivity (after show_placeholder plot_view.__init__).
    + vm_compute. reflexivity.
    + unfold after. exact (f_equal snd (eq_sym (show_placeholder_shell_only Hsh))).
  - vm_compute. repeat split.
Qed.

(* ================================================================== *)
(** * Further properties of the plot widget                            *)
(* ================================================================== *)

Lemma plot_contour_trajectory_shell S (func : Callable S) its levels padding grid_size w :
  shell (self (after (plot_contour_trajectory func its levels padding grid_size) w))
  = shell (self w).
Proof.
  exact (proj1 (plot_contour_trajectory_sound func its levels padding grid_size w)).
Qed.

(** X1: [show_placeholder] erases every trace of earlier plots: it is
    idempotent, and after a [plot_fk] or a [plot_contour_trajectory],
    whether that call returned or raised, it leaves the widget exactly as
    it leaves one on which nothing was plotted. *)
Theorem show_placeholder_erases_earlier_plots :
  (forall v : PlotView,
      after show_placeholder (after show_placeholder v)
      = after show_placeholder v) /\
  (forall (its : list IterationResult.t) (v : PlotView),
      after show_placeholder (after (plot_fk its) v)
      = after show_placeholder v) /\
  (forall (S : Type) (func : Callable S) (its : list IterationResult.t)
          (levels : Z) (padding : float) (grid_size : Z) (w : Frame S),
      after show_placeholder
        (self (after (plot_contour_trajectory func its levels padding grid_size) w))
      = after show_placeholder (self w)).
Proof.
  split; [|split]; intros; unfold after at 1 3;
    apply (f_equal snd); apply show_placeholder_shell_only.
  - apply show_placeholder_shell.
  - apply plot_fk_shell.
  - apply plot_contour_trajectory_shell.
Qed.

Lemma bind2_agree {W B} (m1 m2 : M W unit) (K : unit -> M W B)
    (G1 G2 : W -> W) (w1 w2 : W) :
  (forall w, m1 w = (Ok tt, G1 w)) ->
  (forall w, m2 w = (Ok tt, G2 w)) ->
  G2 (G1 w1) = G2 (G1 w2) ->
  bind m1 (fun _ => bind m2 K) w1 = bind m1 (fun _ => bind m2 K) w2.
Proof.
  intros H1 H2 E. unfold bind. rewrite !H1, !H2, E. reflexivity.
Qed.

(** X2: a new plot never mixes with an old one.  What the contour and
    surface axes showed before has no influence on anything
    [plot_contour_trajectory] does, and what the f(k) axes showed before
    has no influence on anything [plot_fk] does. *)
Theorem replotting_never_accumulates :
  (forall (S : Type) (func : Callable S) (its : list IterationResult.t)
          (levels : Z) (padding : float) (grid_size : Z) (w : Frame S)
          (contour surface : list Call),
      plot_contour_trajectory func its levels padding grid_size
        (with_self (repaint contour surface (self w)) w)
      = plot_contour_trajectory func its levels padding grid_size w) /\
  (forall (its : list IterationResult.t) (v : PlotView) (fk : list Call),
      plot_fk its (repaint_fk fk v) = plot_fk its v).
Proof.
  split.
  - intros. unfold plot_contour_trajectory.
    apply bind2_agree
      with (G1 := after (on (self_ S) (on self_ax_contour clear)))
           (G2 := after (on (self_ S) (on self_ax_surface clear))).
    + intros w0. vm_compute. reflexivity.
    + intros w0. vm_compute. reflexivity.
    + vm_compute. reflexivity.
  - intros its v fk. destruct its as [|it its]; vm_compute; reflexivity.
Qed.

(** ** Which axes a plot writes *)

Lemma call_keeps {S B} (h : PlotView -> B) (func : Callable S) x :
  preserves (fun w : Frame S => h (self w)) (call func x).
Proof.
  intros w. unfold after, call. destruct (func x (callee w)). reflexivity.
Qed.

Lemma on_self_keeps {S A B} (h : PlotView -> B) (m : M PlotView A) :
  preserves h m -> preserves (fun w : Frame S => h (self w)) (on (self_ S) m).
Proof.
  intros H w. specialize (H (self w)). unfold after, on in *.
  cbn [getattr self_] in *. destruct (m (self w)) as [r v]. exact H.
Qed.

Lemma on_ax_contour_keeps_fk {A} (m : M Axes A) :
  preserves ax_fk (on self_ax_contour m).
Proof.
  intros v. unfold after, on. cbn [getattr self_ax_contour].
  destruct (m (ax_contour v)). reflexivity.
Qed.

Lemma on_ax_surface_keeps_fk {A} (m : M Axes A) :
  preserves ax_fk (on self_ax_surface m).
Proof.
  intros v. unfold after, on. cbn [getattr self_ax_surface].
  destruct (m (ax_surface v)). reflexivity.
Qed.

Lemma _redraw_keeps_fk : preserves ax_fk _redraw.
Proof. intros v. reflexivity. Qed.

Ltac keeps_fk :=
  repeat
    match goal with
    | |- preserves _ (bind _ _) => apply preserves_bind; [|intros ?]
    | |- preserves _ (lift _) => apply preserves_lift
    | |- preserves _ (call _ _) => apply call_keeps
    | |- preserves _ (for_each _ _ _) => apply preserves_for_each; intros ? ?
    | |- preserves _ (comprehension _ _) =>
        apply preserves_comprehension; intros ?
    | |- preserves _ (on (self_ _) _) => apply on_self_keeps
    | |- preserves ax_fk (on self_ax_contour _) => apply on_ax_contour_keeps_fk
    | |- preserves ax_fk (on self_ax_surface _) => apply on_ax_surface_keeps_fk
    | |- preserves ax_fk _redraw => apply _redraw_keeps_fk
    | |- preserves _ (if ?b then _ else _) => destruct b
    | |- preserves _ (let (_, _) := ?p in _) => destruct p
    end.

(** X3: each plot keeps to its own axes.  On a non-empty sequence
    [plot_fk] leaves the contour and the surface axes as they are, and
    [plot_contour_trajectory] leaves the f(k) axes as they are, also when
    it raises. *)
Theorem plots_keep_to_their_axes :
  (forall (its : list IterationResult.t) (v : PlotView),
      its <> [] ->
      ax_contour (after (plot_fk its) v) = ax_contour v /\
      ax_surface (after (plot_fk its) v) = ax_surface v) /\
  (forall (S : Type) (func : Callable S) (its : list IterationResult.t)
          (levels : Z) (padding : float) (grid_size : Z) (w : Frame S),
      its <> [] ->
      ax_fk (self (after (plot_contour_trajectory func its levels padding grid_size) w))
      = ax_fk (self w)).
Proof.
  split.
  - intros its v Hne. destruct its as [|it its]; [congruence|].
    vm_compute. split; reflexivity.
  - intros S func its levels padding grid_size w Hne.
    destruct its as [|it its]; [congruence|].
    revert w.
    change (preserves (fun w : Frame S => ax_fk (self w))
              (plot_contour_trajectory func (it :: its) levels padding grid_size)).
    unfold plot_contour_trajectory. cbn [is_empty]. keeps_fk.
Qed.

Lemma plots_keep_to_their_axes_witness :
  (ax_contour (after (plot_fk upright) plot_view.__init__)
   = ax_contour plot_view.__init__ /\
   ax_surface (after (plot_fk upright) plot_view.__init__)
   = ax_surface plot_view.__init__) /\
  ax_fk (self (after (plot_contour_trajectory refusing upright 20 0.5 3) fresh_frame))
  = ax_fk (self fresh_frame).
Proof.
  split.
  - apply (proj1 plots_keep_to_their_axes upright plot_view.__init__).
    discriminate.
  - apply (proj2 plots_keep_to_their_axes unit refusing upright 20%Z 0.5 3%Z fresh_frame).
    discriminate.
Defined.

(** ** Calls that raise before the grid is evaluated *)

Lemma shape_eqb_true s t : shape_eqb s t = true -> s = t.
Proof.
  unfold shape_eqb. destruct (list_eq_dec Nat.eq_dec s t); [trivial|discriminate].
Qed.

Lemma stack_not_uniform its :
  its <> [] -> (forall sh, ~ uniform sh its) ->
  stack (map IterationResult.x its)
  = Raise (inhomogeneous (map shape (map IterationResult.x its))).
Proof.
  destruct its as [|a rest]; [congruence|intros _ H].
  unfold stack. cbn [map].
  match goal with
  | |- context [forallb ?g ?l] => destruct (forallb g l) eqn:E
  end; [|reflexivity].
  exfalso. apply (H (shape (IterationResult.x a))).
  intros it [<-|Hin]; [reflexivity|].
  apply shape_eqb_true.
  rewrite forallb_forall in E. apply E. now apply in_map.
Qed.

(** X4: a negative [grid_size] on a planar trajectory makes
    [plot_contour_trajectory] raise the ValueError of [np.linspace] before
    [func] is evaluated anywhere; the contour and surface axes are left
    cleared and nothing else of the widget is changed. *)
Theorem negative_grid_size_raises_before_any_evaluation :
  forall (S : Type) (func : Callable S) (its : list IterationResult.t)
         (pts : list (float * float)) (levels : Z) (padding : float)
         (grid_size : Z) (w : Frame S),
    its <> [] -> planar its pts -> (grid_size < 0)%Z ->
    let run := plot_contour_trajectory func its levels padding grid_size in
    outcome run w = Raise (negative_samples grid_size) /\
    self (after run w) = blanked (self w) /\
    calls (ax_contour (self (after run w))) = [] /\
    calls (ax_surface (self (after run w))) = [] /\
    evaluations (after run w) = evaluations w /\
    callee (after run w) = callee w.
Proof.
  intros S func its pts levels padding grid_size w Hne Hpl Hneg run.
  subst run. unfold outcome, after at 1 2 3 4 5.
  rewrite (plot_contour_trajectory_negative_grid func levels padding Hne Hpl Hneg).
  vm_compute. repeat split.
Qed.

Lemma negative_grid_size_raises_before_any_evaluation_witness :
  let run := plot_contour_trajectory paraboloid upright 20 0.5 (-1) in
  outcome run fresh_frame
  = Raise (ValueError "Number of samples, -1, must be non-negative.") /\
  self (after run fresh_frame) = blanked (self fresh_frame) /\
  calls (ax_contour (self (after run fresh_frame))) = [] /\
  calls (ax_surface (self (after run fresh_frame))) = [] /\
  evaluations (after run fresh_frame) = evaluations fresh_frame /\
  callee (after run fresh_frame) = callee fresh_frame.
Proof.
  apply (@negative_grid_size_raises_before_any_evaluation unit paraboloid upright
           [(3, 1); (3, 2)] 20%Z 0.5 (-1)%Z fresh_frame).
  - discriminate.
  - reflexivity.
  - reflexivity.
Defined.

(** X5: points of differing shapes make [plot_contour_trajectory] raise
    the ValueError of [np.array] at line 249: [func] is not evaluated, the
    contour and surface axes are left cleared without a caption, and
    nothing else of the widget is changed. *)
Theorem points_of_differing_shapes_raise :
  forall (S : Type) (func : Callable S) (its : list IterationResult.t)
         (levels : Z) (padding : float) (grid_size : Z) (w : Frame S),
    its <> [] -> (forall sh, ~ uniform sh its) ->
    let run := plot_contour_trajectory func its levels padding grid_size in
    outcome run w
    = Raise (inhomogeneous (map shape (map IterationResult.x its))) /\
    self (after run w) = blanked (self w) /\
    calls (ax_contour (self (after run w))) = [] /\
    calls (ax_surface (self (after run w))) = [] /\
    evaluations (after run w) = evaluations w /\
    callee (after run w) = callee w.
Proof.
  intros S func its levels padding grid_size w Hne Hmix run.
  subst run. unfold plot_contour_trajectory.
  rewrite (stack_not_uniform Hne Hmix).
  destruct its as [|it its]; [congruence|]. cbn [is_empty].
  rewrite bind_lift_Raise. unfold outcome, after.
  vm_compute. repeat split.
Qed.

Lemma points_of_differing_shapes_raise_witness :
  let run := plot_contour_trajectory paraboloid mixed 20 0.5 100 in
  outcome run fresh_frame
  = Raise (inhomogeneous (map shape (map IterationResult.x mixed))) /\
  self (after run fresh_frame) = blanked (self fresh_frame) /\
  calls (ax_contour (self (after run fresh_frame))) = [] /\
  calls (ax_surface (self (after run fresh_frame))) = [] /\
  evaluations (after run fresh_frame) = evaluations fresh_frame /\
  callee (after run fresh_frame) = callee fresh_frame.
Proof.
  apply (@points_of_differing_shapes_raise unit paraboloid mixed 20%Z 0.5 100%Z
           fresh_frame).
  - discriminate.
  - intros sh H.
    pose proof (H _ (or_introl eq_refl)) as H1.
    pose proof (H _ (or_intror (or_introl eq_refl))) as H2.
    vm_compute in H1, H2. congruence.
Defined.

(* ================================================================== *)
(** * Further properties of the main window                            *)
(* ================================================================== *)

(** X6: [add_iteration_row] is all or nothing.  The four coercions are
    tried in the order index, point, value, step; the first one that
    raises decides the exception, and the window, its table included, is
    left exactly as it was. *)
Theorem add_iteration_row_failure_leaves_window :
  forall (k x f_val step_value : PyVal) (w : MainWindow) (e : exn),
    (PyVal_ops.int_ k = Raise e ->
     add_iteration_row k x f_val step_value w = (Raise e, w)) /\
    (forall index, PyVal_ops.int_ k = Ok index -> array x = Raise e ->
     add_iteration_row k x f_val step_value w = (Raise e, w)) /\
    (forall index xa, PyVal_ops.int_ k = Ok index -> array x = Ok xa ->
     PyVal_ops.float_ f_val = Raise e ->
     add_iteration_row k x f_val step_value w = (Raise e, w)) /\
    (forall index xa fv, PyVal_ops.int_ k = Ok index -> array x = Ok xa ->
     PyVal_ops.float_ f_val = Ok fv ->
     PyVal_ops.float_ (PyVal_ops.or_ step_value (PFloat 0.0)) = Raise e ->
     add_iteration_row k x f_val step_value w = (Raise e, w)).
Proof.
  intros k x f_val step_value w e. unfold add_iteration_row, rebuild.
  repeat split; intros;
    repeat match goal with
           | H : _ = Ok _ |- _ => rewrite H; clear H
           | H : _ = Raise _ |- _ => rewrite H; clear H
           end; reflexivity.
Qed.

Lemma add_iteration_row_failure_leaves_window_witness :
  add_iteration_row PNone (PList [PFloat 1.0; PFloat 2.0]) (PFloat 5.5) PNone
                    main_window.__init__
  = (Raise (TypeError "int() argument must be a string, a bytes-like object or a real number, not 'NoneType'"),
     main_window.__init__) /\
  add_iteration_row (PInt 3) (PList [PFloat 1.0; PList [PFloat 2.0]]) (PFloat 5.5)
                    PNone main_window.__init__
  = (Raise (inhomogeneous [[]; [1%nat]]), main_window.__init__).
Proof.
  split.
  - apply (proj1 (add_iteration_row_failure_leaves_window
                    PNone (PList [PFloat 1.0; PFloat 2.0]) (PFloat 5.5) PNone
                    main_window.__init__ _)).
    reflexivity.
  - apply (proj1 (proj2 (add_iteration_row_failure_leaves_window
                    (PInt 3) (PList [PFloat 1.0; PList [PFloat 2.0]]) (PFloat 5.5)
                    PNone main_window.__init__ _)) 3%Z).
    + reflexivity.
    + vm_compute. reflexivity.
Defined.



(** X8: every request writes its own part of the window and no other.
    No request changes the title or the status message; adding a row
    leaves the plot and the labels alone; the two plot updates leave the
    table and the labels alone, also when they raise; [update_run_stats]
    leaves the table and the plot alone. *)
Theorem requests_write_their_own_part :
  forall (r : Request) (w : MainWindow),
    let w' := after (perform r) w in
    window_title w' = window_title w /\
    status_message w' = status_message w /\
    match r with
    | AddIteration _ _ | AddIterationRow _ _ _ _ =>
        plot_view w' = plot_view w /\ labels w' = labels w
    | UpdateFkPlot _ | UpdateContourTrajectory _ _ _ =>
        iterations_table w' = iterations_table w /\ labels w' = labels w
    | UpdateRunStats _ _ _ =>
        iterations_table w' = iterations_table w /\ plot_view w' = plot_view w
    end.
Proof.
  intros r w w'. subst w'.
  destruct r as [it sv|k x f_val sv|its|S func s0 its|fe ls n]; cbn [perform].
  - unfold after, add_iteration, on_iterations_table.
    destruct (iterations_table w); repeat split.
  - unfold add_iteration_row. destruct (rebuild k x f_val sv).
    + rewrite bind_lift_Ok. unfold after, add_iteration, on_iterations_table.
      destruct (iterations_table w); repeat split.
    + rewrite bind_lift_Raise. repeat split.
  - unfold after, update_fk_plot, on. destruct (plot_fk its _). repeat split.
  - unfold after, update_contour_trajectory.
    destruct (plot_contour_trajectory _ _ _ _ _ _). repeat split.
  - repeat split.
Qed.

(** X9: the Clear button.  After any sequence of requests on a freshly
    constructed window, [_on_clear_requested] returns and leaves a fresh
    window whose status bar reads "Очищено"; pressing it again changes
    nothing. *)
Theorem clear_button_restores_fresh_window :
  forall rs : list Request,
    _on_clear_requested (session rs main_window.__init__) = (Ok tt, cleared) /\
    _on_clear_requested cleared = (Ok tt, cleared) /\
    status_message cleared = "Очищено" /\
    iterations_table cleared = Some (table_view.mk_Table []) /\
    plot_view cleared = plot_view.__init__ /\
    labels cleared = ("f evals: –", "outer iters: –", "step: –").
Proof.
  intros rs. split; [|split].
  - unfold _on_clear_requested, bind.
    rewrite (clear_results_built (session_built rs built_init)).
    vm_compute. reflexivity.
  - vm_compute. reflexivity.
  - vm_compute. repeat split.
Qed.

(* ================================================================== *)
(** * Where the objective is evaluated                                 *)
(* ================================================================== *)

Section VisitRules.

Variable S : Type.

Lemma visits_ret {A} (a : A) : visits (ret (W := Frame S) a) [].
Proof. intros w _. cbn. now rewrite app_nil_r. Qed.

Lemma visits_lift {A} (r : result A) : visits (lift (W := Frame S) r) [].
Proof. intros w _. cbn. now rewrite app_nil_r. Qed.

Lemma visits_on_self {A} (m : M PlotView A) : visits (on (self_ S) m) [].
Proof.
  intros w _. unfold after, on. cbn [getattr self_].
  destruct (m (self w)). cbn. now rewrite app_nil_r.
Qed.

Lemma visits_call (func : Callable S) (x : ndarray) : visits (call func x) [x].
Proof.
  intros w _. unfold after, call. destruct (func x (callee w)).
  cbn. now rewrite map_app.
Qed.

Lemma visits_bind {A B} (m : M (Frame S) A) (k : A -> M (Frame S) B) p1 p2 :
  visits m p1 -> (forall a, visits (k a) p2) -> visits (bind m k) (p1 ++ p2).
Proof.
  intros Hm Hk w. specialize (Hm w). unfold after, outcome, bind in *.
  destruct (m w) as [[a|e] w1]; cbn [fst snd] in *.
  - intros Hok. specialize (Hk a w1 Hok). unfold after in Hk.
    rewrite Hk, Hm by reflexivity. now rewrite app_assoc.
  - discriminate.
Qed.

Lemma visits_bind_lift {A B} (r : result A) (k : A -> M (Frame S) B) ps :
  (forall a, r = Ok a -> visits (k a) ps) -> visits (bind (lift r) k) ps.
Proof.
  intros H. destruct r as [a|e].
  - rewrite bind_lift_Ok. now apply H.
  - intros w Hok. discriminate.
Qed.

Lemma visits_for_each {A B} (g : A -> list ndarray) (xs : list A)
    (body : A -> B -> M (Frame S) B) :
  (forall x acc, In x xs -> visits (body x acc) (g x)) ->
  forall acc, visits (for_each xs acc body) (flat_map g xs).
Proof.
  induction xs as [|x xs IH]; intros Hb acc; cbn [for_each flat_map].
  - apply visits_ret.
  - apply visits_bind.
    + apply Hb. now left.
    + intros acc'. apply IH. intros y a Hy. apply Hb. now right.
Qed.

Lemma visits_comprehension (func : Callable S) (xs : list ndarray) :
  visits (comprehension xs (fun x => call func x)) xs.
Proof.
  induction xs as [|x xs IH]; cbn [comprehension].
  - apply visits_ret.
  - change (x :: xs) with ([x] ++ xs). apply visits_bind.
    + apply visits_call.
    + intros v. rewrite <- (app_nil_r xs) at 2. apply visits_bind.
      * exact IH.
      * intros vs. apply visits_ret.
Qed.

Lemma visits_eq {A} (m : M (Frame S) A) ps ps' :
  visits m ps -> ps = ps' -> visits m ps'.
Proof. now intros H <-. Qed.

End VisitRules.

(** ** Indexing the mesh *)

Lemma getitem_nth_error {A} (l : list A) (i : Z) (a : A) :
  (0 <= i)%Z -> getitem l i = Ok a -> nth_error l (Z.to_nat i) = Some a.
Proof.
  intros Hi. unfold getitem.
  destruct (Z.ltb_spec i 0); [lia|].
  destruct ((0 <=? i)%Z && (i <? Z.of_nat (List.length l))%Z); [|discriminate].
  destruct (nth_error l (Z.to_nat i)); [|discriminate].
  now intros [= ->].
Qed.

Lemma in_range i n : In i (range n) -> (0 <= i)%Z.
Proof.
  unfold range. intros H. apply in_map_iff in H. destruct H as [k [<- _]]. lia.
Qed.

Lemma getitem2_X1 (xv yv : list float) i j a :
  (0 <= i)%Z -> (0 <= j)%Z ->
  getitem2 (fst (meshgrid xv yv)) i j = Ok a ->
  nth_error xv (Z.to_nat j) = Some a /\ exists b, nth_error yv (Z.to_nat i) = Some b.
Proof.
  intros Hi Hj. unfold getitem2, meshgrid. cbn [fst].
  destruct (getitem (map (fun _ => xv) yv) i) as [r|e] eqn:E; [|discriminate].
  apply (getitem_nth_error _ Hi) in E. rewrite nth_error_map in E.
  destruct (nth_error yv (Z.to_nat i)) as [b|]; [|discriminate].
  injection E as <-. intros H. split; [now apply getitem_nth_error|now exists b].
Qed.

Lemma getitem2_X2 (xv yv : list float) i j b :
  (0 <= i)%Z -> (0 <= j)%Z ->
  getitem2 (snd (meshgrid xv yv)) i j = Ok b ->
  nth_error yv (Z.to_nat i) = Some b.
Proof.
  intros Hi Hj. unfold getitem2, meshgrid. cbn [snd].
  destruct (getitem (map (fun y => map (fun _ => y) xv) yv) i) as [r|e] eqn:E;
    [|discriminate].
  apply (getitem_nth_error _ Hi) in E. rewrite nth_error_map in E.
  destruct (nth_error yv (Z.to_nat i)) as [y|]; [|discriminate].
  injection E as <-. intros H. apply (getitem_nth_error _ Hj) in H.
  rewrite nth_error_map in H.
  destruct (nth_error xv (Z.to_nat j)); [|discriminate]. exact H.
Qed.

Lemma flat_map_indices {A B} (h : A -> list B) (l : list A) :
  flat_map (fun k => match nth_error l k with Some a => h a | None => [] end)
           (seq 0 (List.length l))
  = flat_map h l.
Proof.
  induction l as [|a l IH]; [reflexivity|].
  cbn [List.length seq flat_map nth_error]. f_equal.
  rewrite <- seq_shift, flat_map_concat_map, map_map, <- flat_map_concat_map.
  exact IH.
Qed.

Lemma flat_map_range {A B} (h : A -> list B) (l : list A) :
  flat_map (fun k => match nth_error l (Z.to_nat k) with
                     | Some a => h a
                     | None => []
                     end)
           (range (Z.of_nat (List.length l)))
  = flat_map h l.
Proof.
  unfold range. rewrite Nat2Z.id, flat_map_concat_map, map_map.
  rewrite <- (flat_map_indices h l), flat_map_concat_map.
  f_equal. apply map_ext. intros k. now rewrite Nat2Z.id.
Qed.

Lemma cells_are_grid_nodes (xv yv : list float) n :
  List.length xv = n -> List.length yv = n ->
  flat_map (fun i => flat_map (fun j => cell xv yv i j) (range (Z.of_nat n)))
           (range (Z.of_nat n))
  = grid_nodes xv yv.
Proof.
  intros Hx Hy. unfold grid_nodes.
  rewrite <- (flat_map_range (fun b => map (fun a => vec [a; b]) xv) yv), Hy.
  apply flat_map_ext. intros i. unfold cell.
  destruct (nth_error yv (Z.to_nat i)) as [b|].
  - rewrite <- Hx.
    rewrite (flat_map_range (fun a => [vec [a; b]]) xv).
    rewrite flat_map_concat_map. clear. induction xv; cbn; congruence.
  - clear. induction (range (Z.of_nat n)); cbn; trivial.
Qed.

Lemma linspace_length a b n l :
  linspace a b n = Ok l -> (0 <= n)%Z /\ List.length l = Z.to_nat n.
Proof.
  unfold linspace. destruct (Z.ltb_spec n 0); [discriminate|].
  intros [= <-]. split; [assumption|].
  match goal with
  | |- context [map (fun t => (t + a)%float) ?y] =>
      assert (Hy : List.length (map (fun t => (t + a)%float) y) = Z.to_nat n)
  end.
  { rewrite length_map.
    destruct (0 <? n - 1)%Z; [destruct (_ =? _)%float|];
      now rewrite length_map, length_map, length_range. }
  destruct (Z.ltb_spec 1 n); [|exact Hy].
  match goal with
  | |- context [removelast ?y] => set (ys := y) in *
  end.
  assert (Hne : ys <> []) by (intros E; rewrite E in Hy; cbn in Hy; lia).
  rewrite (app_removelast_last 0%float Hne), length_app in Hy.
  rewrite length_app. exact Hy.
Qed.

Ltac visits_steps :=
  repeat
    match goal with
    | |- visits (bind _ _) _ => eapply visits_bind; [|intros ?]
    | |- visits (on _ _) _ => apply visits_on_self
    | |- visits (lift _) _ => apply visits_lift
    | |- visits (call _ _) _ => apply visits_call
    | |- visits (comprehension _ _) _ => apply visits_comprehension
    end.

Lemma plot_contour_trajectory_visits S (func : Callable S) its pts levels padding
    grid_size a b c d xv yv :
  its <> [] -> planar its pts ->
  grid_domain padding (stacked pts) = Ok ((a, b), (c, d)) ->
  linspace a b grid_size = Ok xv -> linspace c d grid_size = Ok yv ->
  visits (plot_contour_trajectory func its levels padding grid_size)
         (grid_nodes xv yv ++ map IterationResult.x its).
Proof.
  intros Hne Hpl Hd Hx Hy.
  destruct (linspace_length _ _ _ Hx) as [Hg Hlx].
  destruct (linspace_length _ _ _ Hy) as [_ Hly].
  unfold plot_contour_trajectory.
  rewrite (planar_stack Hne Hpl).
  destruct its as [|it its]; [congruence|]. cbn [is_empty].
  rewrite bind_lift_Ok. unfold stacked at 1 2. rewrite planar_test.
  try take_else. rewrite Hd, bind_lift_Ok. cbn [fst snd].
  rewrite Hx, bind_lift_Ok, Hy, bind_lift_Ok.
  destruct (meshgrid xv yv) as [X1 X2] eqn:Em.
  assert (E1 : X1 = fst (meshgrid xv yv)) by now rewrite Em.
  assert (E2 : X2 = snd (meshgrid xv yv)) by now rewrite Em.
  clear Em. eapply visits_eq.
  - eapply visits_bind; [apply visits_on_self|intros ?].
    eapply visits_bind; [apply visits_on_self|intros ?].
    eapply visits_bind; [|intros ?].
    + apply (visits_for_each
               (fun i => flat_map (fun j => cell xv yv i j) (range grid_size))).
      intros i acc Hi.
      apply (visits_for_each (fun j => cell xv yv i j)).
      intros j acc' Hj.
      apply in_range in Hi. apply in_range in Hj.
      apply visits_bind_lift. intros va Ha.
      apply visits_bind_lift. intros vb Hb.
      rewrite E1 in Ha. rewrite E2 in Hb.
      destruct (getitem2_X1 _ _ Hi Hj Ha) as [Hxa _].
      pose proof (getitem2_X2 _ _ Hi Hj Hb) as Hyb.
      eapply visits_eq.
      * eapply visits_bind; [apply visits_call|intros ?; apply visits_lift].
      * unfold cell. now rewrite Hyb, Hxa.
    + visits_steps.
  - cbn [app]. rewrite ?app_nil_r, iter_rows_stacked, <- Hpl.
    f_equal.
    replace (range grid_size) with (range (Z.of_nat (Z.to_nat grid_size)))
      by (now rewrite Z2Nat.id).
    now apply cells_are_grid_nodes.
Qed.

(** X10: where [func] is evaluated.  On a non-empty planar trajectory, a
    call of [plot_contour_trajectory] that returns has evaluated [func],
    each time successfully, first at every node of the grid spanned by
    the [grid_size] samples of [np.linspace] on each axis of the plotting
    domain, row by row with x1 running fastest, and then at the points of
    the trajectory in their order, and nowhere else. *)
Theorem objective_is_evaluated_on_grid_then_trajectory :
  forall (S : Type) (func : Callable S) (its : list IterationResult.t)
         (pts : list (float * float)) (levels : Z) (padding : float)
         (grid_size : Z) (w : Frame S),
    its <> [] -> planar its pts ->
    outcome (plot_contour_trajectory func its levels padding grid_size) w = Ok tt ->
    exists d xv yv new,
      trajectory_domain padding its = Ok d /\
      linspace (fst (fst d)) (snd (fst d)) grid_size = Ok xv /\
      linspace (fst (snd d)) (snd (snd d)) grid_size = Ok yv /\
      List.length xv = Z.to_nat grid_size /\
      List.length yv = Z.to_nat grid_size /\
      evaluations (after (plot_contour_trajectory func its levels padding grid_size) w)
      = evaluations w ++ new /\
      map fst new = grid_nodes xv yv ++ map IterationResult.x its /\
      (forall p r, In (p, r) new -> exists z, r = Ok z).
Proof.
  intros S func its pts levels padding grid_size w Hne Hpl Hok.
  destruct (plot_contour_trajectory_sound func its levels padding grid_size w)
    as [_ [new [E P]]].
  assert (Hg : (0 <= grid_size)%Z).
  { destruct (Z.lt_ge_cases grid_size 0) as [Hneg|]; [|assumption].
    unfold outcome in Hok.
    rewrite (plot_contour_trajectory_negative_grid func levels padding Hne Hpl Hneg) in Hok.
    discriminate. }
  destruct (planar_grid_domain padding Hne Hpl) as [[[a b] [c d]] Hd].
  destruct (linspace a b grid_size) as [xv|e] eqn:Hx.
  2:{ unfold linspace in Hx. destruct (Z.ltb_spec grid_size 0); [lia|discriminate]. }
  destruct (linspace c d grid_size) as [yv|e] eqn:Hy.
  2:{ unfold linspace in Hy. destruct (Z.ltb_spec grid_size 0); [lia|discriminate]. }
  exists ((a, b), (c, d)), xv, yv, new.
  split.
  { unfold trajectory_domain. now rewrite (planar_stack Hne Hpl). }
  split; [exact Hx|]. split; [exact Hy|].
  split; [exact (proj2 (linspace_length _ _ _ Hx))|].
  split; [exact (proj2 (linspace_length _ _ _ Hy))|].
  split; [exact E|]. split.
  - pose proof (@plot_contour_trajectory_visits S func its pts levels padding
                  grid_size a b c d xv yv Hne Hpl Hd Hx Hy w) as Hv.
    rewrite Hok in Hv. specialize (Hv eq_refl).
    rewrite E, map_app in Hv. now apply app_inv_head in Hv.
  - intros p [z|e] Hin; [now exists z|].
    destruct (P _ _ Hin) as [Hraise _]. congruence.
Qed.

Lemma objective_is_evaluated_on_grid_then_trajectory_witness :
  exists d xv yv new,
    trajectory_domain 0.5 upright = Ok d /\
    linspace (fst (fst d)) (snd (fst d)) 3 = Ok xv /\
    linspace (fst (snd d)) (snd (snd d)) 3 = Ok yv /\
    List.length xv = Z.to_nat 3 /\
    List.length yv = Z.to_nat 3 /\
    evaluations (after (plot_contour_trajectory paraboloid upright 20 0.5 3) fresh_frame)
    = evaluations fresh_frame ++ new /\
    map fst new = grid_nodes xv yv ++ map IterationResult.x upright /\
    (forall p r, In (p, r) new -> exists z, r = Ok z).
Proof.
  apply (@objective_is_evaluated_on_grid_then_trajectory unit paraboloid upright
           [(3, 1); (3, 2)] 20%Z 0.5 3%Z fresh_frame).
  - discriminate.
  - reflexivity.
  - vm_compute. reflexivity.
Defined.

(** ** A failure while the grid is being evaluated *)

Lemma bind2_run {W B} (m1 m2 : M W unit) (K : unit -> M W B)
    (G1 G2 : W -> W) (w : W) :
  (forall w, m1 w = (Ok tt, G1 w)) ->
  (forall w, m2 w = (Ok tt, G2 w)) ->
  bind m1 (fun _ => bind m2 K) w = K tt (G2 (G1 w)).
Proof.
  intros H1 H2. unfold bind. rewrite H1, H2. reflexivity.
Qed.

Lemma linspace_nonneg a b n :
  (0 <= n)%Z -> exists l, linspace a b n = Ok l.
Proof.
  intros H. unfold linspace. destruct (Z.ltb_spec n 0); [lia|]. eauto.
Qed.

Ltac keeps_self :=
  repeat
    match goal with
    | |- preserves _ (bind _ _) => apply preserves_bind; [|intros ?]
    | |- preserves _ (lift _) => apply preserves_lift
    | |- preserves _ (call _ _) => apply (call_keeps (fun v => v))
    | |- preserves _ (for_each _ _ _) => apply preserves_for_each; intros ? ?
    end.

(** On a planar trajectory with a non-negative [grid_size] the call is the
    grid loop followed by the drawing, run on the widget with the contour
    and surface axes cleared. *)
Lemma plot_contour_trajectory_phases S (func : Callable S) its pts levels padding
    grid_size :
  its <> [] -> planar its pts -> (0 <= grid_size)%Z ->
  exists (LOOP : M (Frame S) (list (list float)))
         (REST : list (list float) -> M (Frame S) unit),
    (forall w,
        plot_contour_trajectory func its levels padding grid_size w
        = bind LOOP REST (with_self (blanked (self w)) w)) /\
    preserves (fun w : Frame S => self w) LOOP /\
    counts LOOP (Z.to_nat grid_size * Z.to_nat grid_size) /\
    sound LOOP /\
    (forall Zm, sound (REST Zm)).
Proof.
  intros Hne Hpl Hg.
  destruct (planar_grid_domain padding Hne Hpl) as [[[a b] [c d]] Hd].
  destruct (linspace_nonneg a b Hg) as [xv Hx].
  destruct (linspace_nonneg c d Hg) as [yv Hy].
  destruct its as [|it its]; [congruence|].
  eexists. eexists. split; [|split; [|split; [|split]]].
  - intros w. unfold plot_contour_trajectory.
    rewrite (planar_stack Hne Hpl). cbn [is_empty].
    rewrite bind_lift_Ok. unfold stacked at 1 2. rewrite planar_test.
    try take_else. rewrite Hd, bind_lift_Ok. cbn [fst snd].
    rewrite Hx, bind_lift_Ok, Hy, bind_lift_Ok.
    unfold meshgrid. cbv beta iota.
    rewrite bind2_run
      with (G1 := after (on (self_ S) (on self_ax_contour clear)))
           (G2 := after (on (self_ S) (on self_ax_surface clear)));
      [|intros w0; vm_compute; reflexivity|intros w0; vm_compute; reflexivity].
    replace (after (on (self_ S) (on self_ax_surface clear))
               (after (on (self_ S) (on self_ax_contour clear)) w))
      with (with_self (blanked (self w)) w) by (vm_compute; reflexivity).
    reflexivity.
  - keeps_self.
  - eapply counts_eq; [counts_steps|]. rewrite !length_range. lia.
  - sound_steps.
  - intros Zm. cbv beta. sound_steps.
Qed.

(** X11: nothing is drawn before the whole grid is evaluated.  On a
    non-empty planar trajectory, if [func] raises at one of the first
    grid_size * grid_size evaluations, [plot_contour_trajectory] leaves
    the contour and surface axes cleared and empty and the rest of the
    widget as it was. *)
Theorem failure_on_the_grid_leaves_blank_axes :
  forall (S : Type) (func : Callable S) (its : list IterationResult.t)
         (pts : list (float * float)) (levels : Z) (padding : float)
         (grid_size : Z) (w : Frame S)
         (new : list (ndarray * result float)) (p : ndarray) (e : exn),
    its <> [] -> planar its pts ->
    evaluations (after (plot_contour_trajectory func its levels padding grid_size) w)
    = evaluations w ++ new ->
    In (p, Raise e) new ->
    (List.length new <= Z.to_nat grid_size * Z.to_nat grid_size)%nat ->
    let w' := after (plot_contour_trajectory func its levels padding grid_size) w in
    self w' = blanked (self w) /\
    calls (ax_contour (self w')) = [] /\
    calls (ax_surface (self w')) = [] /\
    ax_fk (self w') = ax_fk (self w) /\
    figure (self w') = figure (self w).
Proof.
  intros S func its pts levels padding grid_size w new p e Hne Hpl E Hin Hlen w'.
  assert (Hself : self w' = blanked (self w)).
  { subst w'. destruct (Z.lt_ge_cases grid_size 0) as [Hneg|Hg].
    - unfold after at 1.
      rewrite (plot_contour_trajectory_negative_grid func levels padding Hne Hpl Hneg).
      vm_compute. reflexivity.
    - destruct (plot_contour_trajectory_phases func levels padding Hne Hpl Hg)
        as [LOOP [REST [Heq [Hkeep [Hcount [HsL HsR]]]]]].
      unfold after in *. rewrite Heq in *. unfold bind in *.
      set (w2 := with_self (blanked (self w)) w) in *.
      specialize (Hkeep w2). specialize (Hcount w2).
      destruct (HsL w2) as [_ [newL [EL PL]]].
      unfold after, outcome in *.
      destruct (LOOP w2) as [[Zm|e'] w3]; cbn [fst snd] in *.
      + exfalso. specialize (Hcount eq_refl).
        destruct (HsR Zm w3) as [_ [newR [ER PR]]]. unfold after in ER.
        rewrite ER, EL in E. change (evaluations w2) with (evaluations w) in E.
        rewrite <- app_assoc in E. apply app_inv_head in E. subst new.
        rewrite EL, length_app in Hcount.
        change (evaluations w2) with (evaluations w) in Hcount.
        apply in_app_or in Hin. destruct Hin as [H1|H2].
        * destruct (PL _ _ H1) as [contra _]. discriminate.
        * rewrite length_app in Hlen. destruct newR; [contradiction|].
          cbn [List.length] in Hlen. lia.
      + exact Hkeep. }
  split; [exact Hself|]. rewrite Hself.
  repeat match goal with |- _ /\ _ => split end; vm_compute; reflexivity.
Qed.

Lemma failure_on_the_grid_leaves_blank_axes_witness :
  let w' := after (plot_contour_trajectory refusing upright 20 0.5 3) fresh_frame in
  self w' = blanked (self fresh_frame) /\
  calls (ax_contour (self w')) = [] /\
  calls (ax_surface (self w')) = [] /\
  ax_fk (self w') = ax_fk (self fresh_frame) /\
  figure (self w') = figure (self fresh_frame).
Proof.
  apply (@failure_on_the_grid_leaves_blank_axes unit refusing upright
           [(3, 1); (3, 2)] 20%Z 0.5 3%Z fresh_frame
           [(vec [1.5; 0.5], Raise (UserError "refused"))]
           (vec [1.5; 0.5]) (UserError "refused")).
  - discriminate.
  - reflexivity.
  - vm_compute. reflexivity.
  - left. reflexivity.
  - vm_compute. lia.
Defined.
(* ================================================================== *)
(** * What is drawn                                                    *)
(* ================================================================== *)

(** ** Filling the matrix of values *)

Lemma getitem_middle {A} (l1 l2 : list A) (a : A) :
  getitem (l1 ++ a :: l2) (Z.of_nat (List.length l1)) = Ok a.
Proof.
  unfold getitem. rewrite length_app. cbn [List.length].
  destruct (Z.ltb_spec (Z.of_nat (List.length l1)) 0); [lia|].
  destruct (Z.leb_spec 0 (Z.of_nat (List.length l1))); [|lia].
  destruct (Z.ltb_spec (Z.of_nat (List.length l1))
              (Z.of_nat (List.length l1 + Datatypes.S (List.length l2)))); [|lia].
  cbn [andb]. rewrite Nat2Z.id, nth_error_app2 by lia.
  now rewrite Nat.sub_diag.
Qed.

Lemma set_nth_middle {A} (l1 l2 : list A) (a b : A) :
  set_nth (l1 ++ a :: l2) (List.length l1) b = l1 ++ b :: l2.
Proof. induction l1 as [|h t IH]; cbn; [reflexivity|now rewrite IH]. Qed.

Lemma setitem2_middle (done rest : list (list float)) (vs zs : list float)
    (z v : float) :
  setitem2 (done ++ (vs ++ z :: zs) :: rest)
           (Z.of_nat (List.length done)) (Z.of_nat (List.length vs)) v
  = Ok (done ++ (vs ++ v :: zs) :: rest).
Proof.
  unfold setitem2. rewrite getitem_middle, getitem_middle, !Nat2Z.id.
  now rewrite set_nth_middle, set_nth_middle.
Qed.

Lemma returned_app (l1 l2 : list (ndarray * result float)) :
  returned (l1 ++ l2) = returned l1 ++ returned l2.
Proof. unfold returned. now rewrite flat_map_app. Qed.

Section Filling.

Variable S : Type.
Variable func : Callable S.
Variables (A B : Z -> Z -> result float) (P : float -> float -> ndarray).

(** One cell: the statement returns only if [func] returned, and then with
  the matrix updated by the value. *)
Lemma cell_returns (K : float -> result (list (list float))) (ra rb : result float)
  (w w' : Frame S) (Zm : list (list float)) :
(a <- lift ra ;; b <- lift rb ;; v <- call func (P a b) ;; lift (K v)) w
= (Ok Zm, w') ->
exists x v, K v = Ok Zm /\ evaluations w' = evaluations w ++ [(x, Ok v)].
Proof.
destruct ra as [a|e]; [|discriminate]. destruct rb as [b|e]; [|discriminate].
rewrite !bind_lift_Ok. unfold bind, call, lift.
destruct (func (P a b) (callee w)) as [[v|e] s']; [|discriminate].
intros [= HK <-]. exists (P a b), v. split; [exact HK|reflexivity].
Qed.

Lemma row_is_filled (done rest : list (list float)) (m : nat) :
forall (vs : list float) (w w' : Frame S) (Zm : list (list float)),
  for_each (map Z.of_nat (seq (List.length vs) m))
    (done ++ (vs ++ repeat 0%float m) :: rest)
    (fun j Zc =>
       a <- lift (A (Z.of_nat (List.length done)) j) ;;
       b <- lift (B (Z.of_nat (List.length done)) j) ;;
       v <- call func (P a b) ;;
       lift (setitem2 Zc (Z.of_nat (List.length done)) j v)) w
  = (Ok Zm, w') ->
  exists vals new,
    List.length vals = m /\
    Zm = done ++ (vs ++ vals) :: rest /\
    evaluations w' = evaluations w ++ new /\
    returned new = vals.
Proof.
induction m as [|m IH]; intros vs w w' Zm; cbn [seq map for_each repeat].
- intros [= <- <-]. exists [], []. now rewrite !app_nil_r.
- unfold bind at 1.
  match goal with
  | |- context [match ?c w with _ => _ end] => destruct (c w) as [[Z1|e] w1] eqn:E1
  end; [|discriminate].
  apply cell_returns in E1. destruct E1 as [x [v [HK E1]]].
  rewrite setitem2_middle in HK. injection HK as <-.
  replace (vs ++ v :: repeat 0%float m) with ((vs ++ [v]) ++ repeat 0%float m)
    by (now rewrite <- app_assoc).
  replace (Datatypes.S (List.length vs)) with (List.length (vs ++ [v]))
    by (rewrite length_app; cbn; lia).
  intros H. apply IH in H. destruct H as [vals [new [Hl [HZ [He Hr]]]]].
  exists (v :: vals), ((x, Ok v) :: new).
  split; [cbn; lia|]. split; [now rewrite HZ, <- app_assoc|].
  split; [now rewrite He, E1, <- app_assoc|].
  change ((x, Ok v) :: new) with ([(x, @Ok float v)] ++ new).
  rewrite returned_app, Hr. reflexivity.
Qed.

Lemma rows_are_filled (n k : nat) :
forall (done : list (list float)) (w w' : Frame S) (Zm : list (list float)),
  for_each (map Z.of_nat (seq (List.length done) k))
    (done ++ repeat (repeat 0%float n) k)
    (fun i Zr =>
       for_each (range (Z.of_nat n)) Zr
         (fun j Zc =>
            a <- lift (A i j) ;;
            b <- lift (B i j) ;;
            v <- call func (P a b) ;;
            lift (setitem2 Zc i j v))) w
  = (Ok Zm, w') ->
  exists rows new,
    List.length rows = k /\
    Forall (fun r => List.length r = n) rows /\
    Zm = done ++ rows /\
    evaluations w' = evaluations w ++ new /\
    returned new = concat rows.
Proof.
induction k as [|k IH]; intros done w w' Zm; cbn [seq map for_each repeat].
- intros [= <- <-]. exists [], []. rewrite !app_nil_r. repeat split. constructor.
- unfold bind at 1.
  match goal with
  | |- context [match ?c w with _ => _ end] => destruct (c w) as [[Z1|e] w1] eqn:E1
  end; [|discriminate].
  unfold range in E1. rewrite Nat2Z.id in E1.
  apply (row_is_filled done (repeat (repeat 0%float n) k) n []) in E1.
  destruct E1 as [vals [new1 [Hl [HZ [He Hr]]]]]. cbn [app] in HZ. subst Z1.
  replace (done ++ vals :: repeat (repeat 0%float n) k)
    with ((done ++ [vals]) ++ repeat (repeat 0%float n) k)
    by (now rewrite <- app_assoc).
  replace (Datatypes.S (List.length done)) with (List.length (done ++ [vals]))
    by (rewrite length_app; cbn; lia).
  intros H. apply IH in H. destruct H as [rows [new [Hk [Hf [HZ [He' Hr']]]]]].
  exists (vals :: rows), (new1 ++ new).
  split; [cbn; lia|]. split; [now constructor|].
  split; [now rewrite HZ, <- app_assoc|].
  split; [now rewrite He', He, <- app_assoc|].
  rewrite returned_app, Hr, Hr'. reflexivity.
Qed.

Lemma zeros_like_repeat (X : list (list float)) (n : nat) :
Forall (fun r => List.length r = n) X ->
zeros_like X = repeat (repeat 0%float n) (List.length X).
Proof.
unfold zeros_like. induction 1 as [|r X Hr _ IH]; [reflexivity|].
cbn [map List.length repeat]. rewrite IH. f_equal.
subst n. clear. induction r; cbn; congruence.
Qed.

Lemma grid_loop_fills (X : list (list float)) (n : nat) :
List.length X = n -> Forall (fun r => List.length r = n) X ->
fills (for_each (range (Z.of_nat n)) (zeros_like X)
         (fun i Zr =>
            for_each (range (Z.of_nat n)) Zr
              (fun j Zc =>
                 a <- lift (A i j) ;;
                 b <- lift (B i j) ;;
                 v <- call func (P a b) ;;
                 lift (setitem2 Zc i j v)))) n.
Proof.
intros Hl Hf w Zm w' H.
rewrite (zeros_like_repeat Hf), Hl in H.
unfold range at 1 in H. rewrite Nat2Z.id in H.
apply (rows_are_filled n n []) in H.
destruct H as [rows [new [Hk [Hr [HZ [He Hv]]]]]]. cbn [app] in HZ. subst Zm.
split; [exact Hk|]. split; [exact Hr|]. now exists new.
Qed.

End Filling.
Lemma grid_loop_fills_range S (func : Callable S)
    (A B : Z -> Z -> result float) (P : float -> float -> ndarray)
    (X : list (list float)) (g : Z) :
  (0 <= g)%Z ->
  List.length X = Z.to_nat g -> Forall (fun r => List.length r = Z.to_nat g) X ->
  fills (for_each (range g) (zeros_like X)
           (fun i Zr =>
              for_each (range g) Zr
                (fun j Zc =>
                   a <- lift (A i j) ;;
                   b <- lift (B i j) ;;
                   v <- call func (P a b) ;;
                   lift (setitem2 Zc i j v)))) (Z.to_nat g).
Proof.
  intros Hg Hl Hf.
  pose proof (grid_loop_fills func A B P Hl Hf) as H.
  rewrite Z2Nat.id in H by assumption. exact H.
Qed.

(** ** Calls that stay on the axes *)

Lemma appends_invoke n a kw : appends (invoke n a kw).
Proof. intros ax. now exists [mk_call n a kw]. Qed.

Lemma appends_keep {A} (m : M Axes A) : preserves calls m -> appends m.
Proof. intros H ax. exists []. now rewrite H, app_nil_r. Qed.

Lemma appends_contour X Y Zm kw : appends (contour X Y Zm kw).
Proof.
  intros ax. unfold contour. destruct (_ || _).
  - exists []. cbn. now rewrite app_nil_r.
  - apply appends_invoke.
Qed.

Lemma appends_bind {A B} (m : M Axes A) (k : A -> M Axes B) :
  appends m -> (forall a, appends (k a)) -> appends (bind m k).
Proof.
  intros Hm Hk ax. destruct (Hm ax) as [c1 E1].
  unfold after, bind in *. destruct (m ax) as [[a|e] ax1]; cbn [snd] in *.
  - destruct (Hk a ax1) as [c2 E2]. unfold after in E2.
    exists (c1 ++ c2). now rewrite E2, E1, app_assoc.
  - now exists c1.
Qed.

Ltac appends_steps :=
  repeat
    match goal with
    | |- appends (bind _ _) => apply appends_bind; [|intros ?]
    | |- appends (invoke _ _ _) => apply appends_invoke
    | |- appends (set_facecolor _) => apply appends_keep; intros ?; reflexivity
    | |- appends (spines_set_color _) => apply appends_keep; intros ?; reflexivity
    | |- appends (spines_set_linewidth _) =>
        apply appends_keep; intros ?; reflexivity
    end.

Lemma _style_2d_axes_appends : appends _style_2d_axes.
Proof. unfold _style_2d_axes. appends_steps. Qed.

Lemma _style_3d_axes_appends : appends _style_3d_axes.
Proof. unfold _style_3d_axes. appends_steps. Qed.

Lemma grows_view_keep {A} (h : PlotView -> Axes) (m : M PlotView A) :
  preserves (fun v => calls (h v)) m -> grows_view h m.
Proof. intros H v. exists []. now rewrite H, app_nil_r. Qed.

Lemma on_ax_contour_grows_contour {A} (m : M Axes A) :
  appends m -> grows_view ax_contour (on self_ax_contour m).
Proof.
  intros H v. destruct (H (ax_contour v)) as [cs E]. exists cs.
  unfold after, on in *. cbn [getattr self_ax_contour] in *.
  destruct (m (ax_contour v)). exact E.
Qed.

Lemma on_ax_surface_grows_surface {A} (m : M Axes A) :
  appends m -> grows_view ax_surface (on self_ax_surface m).
Proof.
  intros H v. destruct (H (ax_surface v)) as [cs E]. exists cs.
  unfold after, on in *. cbn [getattr self_ax_surface] in *.
  destruct (m (ax_surface v)). exact E.
Qed.

Lemma on_ax_surface_grows_contour {A} (m : M Axes A) :
  grows_view ax_contour (on self_ax_surface m).
Proof.
  apply grows_view_keep. intros v. unfold after, on.
  destruct (m (getattr self_ax_surface v)). reflexivity.
Qed.

Lemma on_ax_contour_grows_surface {A} (m : M Axes A) :
  grows_view ax_surface (on self_ax_contour m).
Proof.
  apply grows_view_keep. intros v. unfold after, on.
  destruct (m (getattr self_ax_contour v)). reflexivity.
Qed.

Lemma _redraw_grows (h : PlotView -> Axes) :
  h = ax_contour \/ h = ax_surface -> grows_view h _redraw.
Proof.
  intros [-> | ->]; apply grows_view_keep; intros v; reflexivity.
Qed.

Section DrawingRules.

Variable S : Type.
Variable h : PlotView -> Axes.

Lemma grows_keep {A} (m : M (Frame S) A) :
preserves (fun w : Frame S => self w) m -> grows h m.
Proof. intros H w. exists []. now rewrite H, app_nil_r. Qed.

Lemma grows_on_self {A} (m : M PlotView A) :
grows_view h m -> grows h (on (self_ S) m).
Proof.
intros H w. destruct (H (self w)) as [cs E]. exists cs.
unfold after, on in *. cbn [getattr self_] in *.
destruct (m (self w)). exact E.
Qed.

Lemma grows_bind {A B} (m : M (Frame S) A) (k : A -> M (Frame S) B) :
grows h m -> (forall a, grows h (k a)) -> grows h (bind m k).
Proof.
intros Hm Hk w. destruct (Hm w) as [c1 E1].
unfold after, bind in *. destruct (m w) as [[a|e] w1]; cbn [snd] in *.
- destruct (Hk a w1) as [c2 E2]. unfold after in E2.
  exists (c1 ++ c2). now rewrite E2, E1, app_assoc.
- now exists c1.
Qed.

Lemma draws_later {A B} (m : M (Frame S) A) (k : A -> M (Frame S) B) c :
(forall a, draws h (k a) c) -> draws h (bind m k) c.
Proof.
intros Hk w. unfold outcome, after, bind.
destruct (m w) as [[a|e] w1]; [|discriminate]. apply Hk.
Qed.

Lemma draws_then {A B} (m : M (Frame S) A) (k : A -> M (Frame S) B) c :
draws h m c -> (forall a, grows h (k a)) -> draws h (bind m k) c.
Proof.
intros Hm Hk w. specialize (Hm w). unfold outcome, after, bind in *.
destruct (m w) as [[a|e] w1]; cbn [fst snd] in *; [|discriminate].
intros _. destruct (Hk a w1) as [cs E]. unfold after in E.
rewrite E. apply in_or_app. left. now apply Hm.
Qed.

End DrawingRules.

Lemma draws_on_ax_contour S n a kw :
  draws ax_contour (on (self_ S) (on self_ax_contour (invoke n a kw)))
        (mk_call n a kw).
Proof. intros w _. apply in_or_app. right. now left. Qed.

Lemma draws_contour S X Y Zm kw :
  draws ax_contour (on (self_ S) (on self_ax_contour (contour X Y Zm kw)))
        (mk_call "contour" [Mat X; Mat Y; Mat Zm] kw).
Proof.
  intros w. unfold outcome, after, on, contour.
  cbn [getattr self_ self_ax_contour].
  destruct (_ || _); [discriminate|].
  intros _. apply in_or_app. right. now left.
Qed.

Lemma draws_on_ax_surface S n a kw :
  draws ax_surface (on (self_ S) (on self_ax_surface (invoke n a kw)))
        (mk_call n a kw).
Proof. intros w _. apply in_or_app. right. now left. Qed.

Ltac grows_steps :=
  repeat
    match goal with
    | |- grows _ (bind _ _) => apply grows_bind; [|intros ?; cbv beta zeta]
    | |- grows ax_contour (on _ (on self_ax_contour _)) =>
        apply grows_on_self, on_ax_contour_grows_contour
    | |- grows ax_surface (on _ (on self_ax_surface _)) =>
        apply grows_on_self, on_ax_surface_grows_surface
    | |- grows ax_contour (on _ (on self_ax_surface _)) =>
        apply grows_on_self, on_ax_surface_grows_contour
    | |- grows ax_surface (on _ (on self_ax_contour _)) =>
        apply grows_on_self, on_ax_contour_grows_surface
    | |- grows _ (on _ _redraw) => apply grows_on_self, _redraw_grows; tauto
    | |- grows _ (lift _) => apply grows_keep, preserves_lift
    | |- grows _ (comprehension _ _) =>
        apply grows_keep, preserves_comprehension; intros ?;
        apply (call_keeps (fun v => v))
    | |- appends _style_2d_axes => apply _style_2d_axes_appends
    | |- appends _style_3d_axes => apply _style_3d_axes_appends
    | |- appends (invoke _ _ _) => apply appends_invoke
    | |- appends (contour _ _ _ _) => apply appends_contour
    end.

Ltac skip_to name :=
  repeat
    match goal with
    | |- draws _ (bind (on _ (on _ (invoke name _ _))) _) _ => fail 1
    | |- draws _ (bind _ _) _ => apply draws_later; intros ?; cbv beta zeta
    end.

Lemma meshgrid_shape (xv yv : list float) n :
  List.length xv = n -> List.length yv = n ->
  List.length (fst (meshgrid xv yv)) = n /\
  Forall (fun r => List.length r = n) (fst (meshgrid xv yv)).
Proof.
  intros Hx Hy. unfold meshgrid. cbn [fst]. split.
  - now rewrite length_map.
  - apply Forall_forall. intros r Hr. apply in_map_iff in Hr.
    now destruct Hr as [y [<- _]].
Qed.

(** On a planar trajectory the call is the grid loop followed by the
    drawing: the loop fills the matrix with the values [func] returned, and
    the drawing puts that matrix on both axes. *)
Lemma plot_contour_trajectory_drawing S (func : Callable S) its pts levels padding
    grid_size a b c d xv yv :
  its <> [] -> planar its pts ->
  grid_domain padding (stacked pts) = Ok ((a, b), (c, d)) ->
  linspace a b grid_size = Ok xv -> linspace c d grid_size = Ok yv ->
  exists (LOOP : M (Frame S) (list (list float)))
         (REST : list (list float) -> M (Frame S) unit),
    (forall w,
        plot_contour_trajectory func its levels padding grid_size w
        = bind LOOP REST (with_self (blanked (self w)) w)) /\
    fills LOOP (Z.to_nat grid_size) /\
    (forall Zm,
        draws ax_contour (REST Zm)
          (contour_call (fst (meshgrid xv yv)) (snd (meshgrid xv yv)) Zm levels)) /\
    (forall Zm,
        draws ax_surface (REST Zm)
          (surface_call (fst (meshgrid xv yv)) (snd (meshgrid xv yv)) Zm)) /\
    (forall Zm, sound (REST Zm)).
Proof.
  intros Hne Hpl Hd Hx Hy.
  destruct (linspace_length _ _ _ Hx) as [Hg Hlx].
  destruct (linspace_length _ _ _ Hy) as [_ Hly].
  destruct (meshgrid_shape xv yv Hlx Hly) as [Hl Hf].
  destruct its as [|it its]; [congruence|].
  eexists. eexists. split; [|split; [|split; [|split]]].
  - intros w. unfold plot_contour_trajectory.
    rewrite (planar_stack Hne Hpl). cbn [is_empty].
    rewrite bind_lift_Ok. unfold stacked at 1 2. rewrite planar_test.
    try take_else. rewrite Hd, bind_lift_Ok. cbn [fst snd].
    rewrite Hx, bind_lift_Ok, Hy, bind_lift_Ok.
    unfold meshgrid. cbv beta iota.
    rewrite bind2_run
      with (G1 := after (on (self_ S) (on self_ax_contour clear)))
           (G2 := after (on (self_ S) (on self_ax_surface clear)));
      [|intros w0; vm_compute; reflexivity|intros w0; vm_compute; reflexivity].
    replace (after (on (self_ S) (on self_ax_surface clear))
               (after (on (self_ S) (on self_ax_contour clear)) w))
      with (with_self (blanked (self w)) w) by (vm_compute; reflexivity).
    reflexivity.
  - unfold meshgrid in Hl, Hf. cbn [fst] in Hl, Hf.
    apply (grid_loop_fills_range func
             (getitem2 (map (fun _ => xv) yv))
             (getitem2 (map (fun y => map (fun _ => y) xv) yv))
             (fun a b => vec [a; b]) Hg Hl Hf).
  - intros Zm. unfold contour_call, meshgrid. cbn [fst snd]. cbv beta.
    apply draws_later; intros ?; cbv beta zeta.
    apply draws_then; [apply draws_contour|intros ?; cbv beta zeta].
    grows_steps.
  - intros Zm. unfold surface_call, meshgrid. cbn [fst snd]. cbv beta.
    skip_to "plot_surface"%string.
    apply draws_then; [apply draws_on_ax_surface|intros ?; cbv beta zeta].
    grows_steps.
  - intros Zm. cbv beta. sound_steps.
Qed.
Lemma returned_all (new : list (ndarray * result float)) :
  (forall p r, In (p, r) new -> exists z, r = Ok z) ->
  new = combine (map fst new) (map Ok (returned new)).
Proof.
  induction new as [|[p r] new IH]; intros H; [reflexivity|].
  destruct (H p r (or_introl eq_refl)) as [z ->].
  change (returned ((p, Ok z) :: new)) with (z :: returned new).
  cbn [map fst combine]. f_equal. apply IH.
  intros q s Hin. apply (H q s). now right.
Qed.

Lemma returned_length (new : list (ndarray * result float)) :
  (forall p r, In (p, r) new -> exists z, r = Ok z) ->
  List.length (returned new) = List.length new.
Proof.
  intros H. rewrite (@returned_all new H) at 2.
  rewrite length_combine, !length_map.
  induction new as [|[p r] new IH]; [reflexivity|].
  destruct (H p r (or_introl eq_refl)) as [z ->].
  change (returned ((p, Ok z) :: new)) with (z :: returned new).
  cbn [List.length].
  rewrite IH; [lia|]. intros q s Hin. apply (H q s). now right.
Qed.

Lemma concat_length {A} (rows : list (list A)) (n : nat) :
  Forall (fun r => List.length r = n) rows ->
  List.length (concat rows) = (List.length rows * n)%nat.
Proof.
  induction 1 as [|r rows Hr _ IH]; [reflexivity|].
  cbn [concat List.length]. rewrite length_app, IH, Hr. lia.
Qed.

Lemma grid_nodes_length (xv yv : list float) :
  List.length (grid_nodes xv yv) = (List.length yv * List.length xv)%nat.
Proof.
  unfold grid_nodes. induction yv as [|y yv IH]; [reflexivity|].
  cbn [flat_map List.length]. rewrite length_app, length_map, IH. lia.
Qed.

(** X12: what is drawn is the objective on the grid.  On a non-empty
    planar trajectory, a call of [plot_contour_trajectory] that returns
    has put on the contour axes a [contour] call, and on the surface axes
    a [plot_surface] call, of the mesh of the two [np.linspace] samplings
    of the plotting domain and of one and the same matrix [Zm]; [Zm] has
    grid_size rows and columns, and its entry in row i and column j is the
    value [func] returned at the node (i, j) of the grid: read row by
    row, the matrix is the list of values returned at the nodes of the
    grid in their order, and the remaining values are those at the points
    of the trajectory. *)
Theorem drawn_matrix_is_the_objective_on_the_grid :
  forall (S : Type) (func : Callable S) (its : list IterationResult.t)
         (pts : list (float * float)) (levels : Z) (padding : float)
         (grid_size : Z) (w : Frame S),
    its <> [] -> planar its pts ->
    outcome (plot_contour_trajectory func its levels padding grid_size) w = Ok tt ->
    let w' := after (plot_contour_trajectory func its levels padding grid_size) w in
    exists d xv yv Zm z_traj,
      trajectory_domain padding its = Ok d /\
      linspace (fst (fst d)) (snd (fst d)) grid_size = Ok xv /\
      linspace (fst (snd d)) (snd (snd d)) grid_size = Ok yv /\
      List.length xv = Z.to_nat grid_size /\
      List.length yv = Z.to_nat grid_size /\
      List.length Zm = Z.to_nat grid_size /\
      Forall (fun row => List.length row = Z.to_nat grid_size) Zm /\
      List.length z_traj = List.length its /\
      evaluations w'
      = evaluations w
        ++ combine (grid_nodes xv yv ++ map IterationResult.x its)
                   (map Ok (concat Zm ++ z_traj)) /\
      In (contour_call (fst (meshgrid xv yv)) (snd (meshgrid xv yv)) Zm levels)
         (calls (ax_contour (self w'))) /\
      In (surface_call (fst (meshgrid xv yv)) (snd (meshgrid xv yv)) Zm)
         (calls (ax_surface (self w'))).
Proof.
  intros S func its pts levels padding grid_size w Hne Hpl Hok w'.
  assert (Hg : (0 <= grid_size)%Z).
  { destruct (Z.lt_ge_cases grid_size 0) as [Hneg|]; [|assumption].
    unfold outcome in Hok.
    rewrite (plot_contour_trajectory_negative_grid func levels padding Hne Hpl Hneg) in Hok.
    discriminate. }
  destruct (planar_grid_domain padding Hne Hpl) as [[[a b] [c d]] Hd].
  destruct (linspace_nonneg a b Hg) as [xv Hx].
  destruct (linspace_nonneg c d Hg) as [yv Hy].
  destruct (linspace_length _ _ _ Hx) as [_ Hlx].
  destruct (linspace_length _ _ _ Hy) as [_ Hly].
  pose proof (@plot_contour_trajectory_visits S func its pts levels padding
                grid_size a b c d xv yv Hne Hpl Hd Hx Hy w) as Hv.
  rewrite Hok in Hv. specialize (Hv eq_refl). fold w' in Hv.
  destruct (plot_contour_trajectory_sound func its levels padding grid_size w)
    as [_ [new [E PS]]]. fold w' in E.
  assert (Hall : forall p r, In (p, r) new -> exists z, r = Ok z).
  { intros p [z|e] Hin; [now exists z|].
    destruct (PS _ _ Hin) as [Hraise _]. congruence. }
  rewrite E, map_app in Hv. apply app_inv_head in Hv.
  destruct (@plot_contour_trajectory_drawing S func its pts levels padding
              grid_size a b c d xv yv Hne Hpl Hd Hx Hy)
    as [LOOP [REST [Heq [Hfill [Hdc [Hds HsR]]]]]].
  unfold outcome in Hok. subst w'. unfold after in *. rewrite Heq in *.
  unfold bind in *.
  set (w2 := with_self (blanked (self w)) w) in *.
  destruct (LOOP w2) as [[Zm|e] w3] eqn:EL; cbn [fst snd] in *; [|discriminate].
  destruct (Hfill _ _ _ EL) as [HZl [HZf [newL [EvL RL]]]].
  destruct (HsR Zm w3) as [_ [newR [EvR _]]]. unfold after in EvR.
  change (evaluations w2) with (evaluations w) in EvL.
  assert (Enew : new = newL ++ newR).
  { rewrite EvR, EvL, <- app_assoc in E. now apply app_inv_head in E. }
  assert (Hret : returned new = concat Zm ++ returned newR).
  { now rewrite Enew, returned_app, RL. }
  exists ((a, b), (c, d)), xv, yv, Zm, (returned newR). cbn [fst snd].
  split.
  { unfold trajectory_domain. now rewrite (planar_stack Hne Hpl). }
  split; [exact Hx|]. split; [exact Hy|].
  split; [exact Hlx|]. split; [exact Hly|].
  split; [exact HZl|]. split; [exact HZf|].
  split.
  { pose proof (@returned_length new Hall) as Hlen.
    rewrite Hret, length_app, (@concat_length _ Zm _ HZf), HZl in Hlen.
    rewrite <- (length_map fst new), Hv, length_app, grid_nodes_length in Hlen.
    rewrite length_map, Hlx, Hly in Hlen. lia. }
  split.
  { rewrite E. f_equal. rewrite <- Hret, <- Hv. now apply returned_all. }
  split.
  - apply (Hdc Zm w3). unfold outcome. now rewrite Hok.
  - apply (Hds Zm w3). unfold outcome. now rewrite Hok.
Qed.

Lemma drawn_matrix_is_the_objective_on_the_grid_witness :
  let w' := after (plot_contour_trajectory paraboloid upright 20 0.5 3) fresh_frame in
  exists d xv yv Zm z_traj,
    trajectory_domain 0.5 upright = Ok d /\
    linspace (fst (fst d)) (snd (fst d)) 3 = Ok xv /\
    linspace (fst (snd d)) (snd (snd d)) 3 = Ok yv /\
    List.length xv = Z.to_nat 3 /\
    List.length yv = Z.to_nat 3 /\
    List.length Zm = Z.to_nat 3 /\
    Forall (fun row => List.length row = Z.to_nat 3) Zm /\
    List.length z_traj = List.length upright /\
    evaluations w'
    = evaluations fresh_frame
      ++ combine (grid_nodes xv yv ++ map IterationResult.x upright)
                 (map Ok (concat Zm ++ z_traj)) /\
    In (contour_call (fst (meshgrid xv yv)) (snd (meshgrid xv yv)) Zm 20)
       (calls (ax_contour (self w'))) /\
    In (surface_call (fst (meshgrid xv yv)) (snd (meshgrid xv yv)) Zm)
       (calls (ax_surface (self w'))).
Proof.
  apply (@drawn_matrix_is_the_objective_on_the_grid unit paraboloid upright
           [(3, 1); (3, 2)] 20%Z 0.5 3%Z fresh_frame).
  - discriminate.
  - reflexivity.
  - vm_compute. reflexivity.
Defined.
(** ** The trajectory on the contour axes *)

Lemma draws_bind_lift S (h : PlotView -> Axes) {A B} (r : result A)
    (k : A -> M (Frame S) B) c :
  (forall a, r = Ok a -> draws h (k a) c) -> draws h (bind (lift r) k) c.
Proof.
  intros H. destruct r as [a|e].
  - rewrite bind_lift_Ok. now apply H.
  - intros w Hok. discriminate.
Qed.

Lemma getitem_first {A} (l : list A) (a : A) :
  getitem l 0 = Ok a -> hd_error l = Some a.
Proof.
  intros H. apply getitem_nth_error in H; [|lia]. now destruct l.
Qed.

Lemma getitem_last {A} (l : list A) (a d : A) :
  getitem l (-1) = Ok a -> last l d = a.
Proof.
  unfold getitem. cbn [Z.ltb Z.compare].
  destruct ((0 <=? -1 + Z.of_nat (List.length l))%Z
            && (-1 + Z.of_nat (List.length l) <? Z.of_nat (List.length l))%Z)
    eqn:E; [|discriminate].
  apply andb_prop in E. destruct E as [E _]. apply Z.leb_le in E.
  destruct l as [|x l] using rev_ind; [cbn in E; lia|].
  rewrite length_app in *. cbn [List.length] in *.
  replace (Z.to_nat (-1 + Z.of_nat (List.length l + 1))) with (List.length l)
    by lia.
  rewrite nth_error_app2, Nat.sub_diag by lia. cbn [nth_error].
  intros [= <-]. apply last_last.
Qed.

Lemma last_of_map {A B} (f : A -> B) (l : list A) (d : A) :
  last (map f l) (f d) = f (last l d).
Proof.
  induction l as [|a l IH]; [reflexivity|].
  destruct l as [|b l]; [reflexivity|]. exact IH.
Qed.

Ltac skip_lifts_to name :=
  repeat
    match goal with
    | |- draws _ (bind (on _ (on _ (invoke name _ _))) _) _ => fail 1
    | |- draws _ (bind (lift _) _) _ =>
        apply draws_bind_lift; intros ? ?; cbv beta zeta
    | |- draws _ (bind _ _) _ => apply draws_later; intros ?; cbv beta zeta
    | |- draws _ (let (_, _) := fst ?p in _) _ =>
        destruct p as [[? ?] [? ?]]; cbn [fst snd]
    | |- draws _ (let (_, _) := meshgrid _ _ in _) _ =>
        unfold meshgrid; cbv beta iota
    end.

Ltac enter_planar Hne Hpl :=
  unfold plot_contour_trajectory;
  rewrite (planar_stack Hne Hpl);
  match goal with
  | |- context [is_empty ?l] =>
      destruct l; [congruence|]; cbn [is_empty]
  end;
  rewrite bind_lift_Ok; unfold stacked at 1 2; rewrite planar_test;
  try take_else.

Lemma plot_contour_trajectory_draws_line S (func : Callable S) its pts levels
    padding grid_size :
  its <> [] -> planar its pts ->
  draws ax_contour (plot_contour_trajectory func its levels padding grid_size)
        (trajectory_call (map fst pts) (map snd pts)).
Proof.
  intros Hne Hpl.
  rewrite <- (column_0_stacked pts), <- (column_1_stacked pts).
  unfold trajectory_call.
  enter_planar Hne Hpl.
  skip_lifts_to "plot"%string.
  apply draws_then; [apply draws_on_ax_contour|intros ?; cbv beta zeta].
  grows_steps.
Qed.

Lemma plot_contour_trajectory_draws_start S (func : Callable S) its pts levels
    padding grid_size p :
  its <> [] -> planar its pts -> hd_error pts = Some p ->
  draws ax_contour (plot_contour_trajectory func its levels padding grid_size)
        (start_call p).
Proof.
  intros Hne Hpl Hp. unfold start_call.
  enter_planar Hne Hpl. rewrite column_0_stacked, column_1_stacked.
  skip_lifts_to "scatter"%string.
  repeat match goal with
         | H : getitem (map _ pts) 0 = Ok _ |- _ =>
             apply getitem_first in H; destruct pts; [discriminate|];
             cbn [map hd_error] in H, Hp
         | H : getitem (map _ (_ :: _)) 0 = Ok _ |- _ =>
             apply getitem_first in H; cbn [map hd_error] in H
         end.
  repeat match goal with
         | H : Some _ = Some _ |- _ => injection H as H; try subst
         end.
  apply draws_then; [apply draws_on_ax_contour|intros ?; cbv beta zeta].
  grows_steps.
Qed.

Lemma plot_contour_trajectory_draws_minimum S (func : Callable S) its pts levels
    padding grid_size p :
  its <> [] -> planar its pts ->
  draws ax_contour (plot_contour_trajectory func its levels padding grid_size)
        (minimum_call (last pts p)).
Proof.
  intros Hne Hpl. unfold minimum_call.
  enter_planar Hne Hpl. rewrite column_0_stacked, column_1_stacked.
  skip_lifts_to "scatter"%string.
  apply draws_later; intros ?; cbv beta zeta.
  repeat match goal with
         | H : getitem (map fst pts) (-1) = Ok _ |- _ =>
             apply (getitem_last _ (fst p)) in H; rewrite last_of_map in H
         | H : getitem (map snd pts) (-1) = Ok _ |- _ =>
             apply (getitem_last _ (snd p)) in H; rewrite last_of_map in H
         end.
  subst.
  apply draws_then; [apply draws_on_ax_contour|intros ?; cbv beta zeta].
  grows_steps.
Qed.

(** X13: the trajectory on the contour axes.  On a non-empty planar
    trajectory, a call of [plot_contour_trajectory] that returns has drawn
    on the contour axes the line through all the iterates in their order,
    the start marker at the first iterate and the minimum marker at the
    last one. *)
Theorem contour_trajectory_runs_from_first_to_last_iterate :
  forall (S : Type) (func : Callable S) (its : list IterationResult.t)
         (pts : list (float * float)) (levels : Z) (padding : float)
         (grid_size : Z) (w : Frame S),
    its <> [] -> planar its pts ->
    outcome (plot_contour_trajectory func its levels padding grid_size) w = Ok tt ->
    let drawn :=
      calls (ax_contour (self
        (after (plot_contour_trajectory func its levels padding grid_size) w))) in
    exists first,
      hd_error pts = Some first /\
      In (trajectory_call (map fst pts) (map snd pts)) drawn /\
      In (start_call first) drawn /\
      In (minimum_call (last pts first)) drawn.
Proof.
  intros S func its pts levels padding grid_size w Hne Hpl Hok drawn.
  assert (Hr : is_ok (outcome (plot_contour_trajectory func its levels padding
                                 grid_size) w) = true) by now rewrite Hok.
  destruct pts as [|p0 rest] eqn:Ep.
  { exfalso. now apply (planar_nonempty Hpl Hne). }
  rewrite <- Ep in *. assert (Hp : hd_error pts = Some p0) by now rewrite Ep.
  exists p0. split; [exact Hp|]. subst drawn. split; [|split].
  - now apply (@plot_contour_trajectory_draws_line S func its pts).
  - now apply (@plot_contour_trajectory_draws_start S func its pts).
  - now apply (@plot_contour_trajectory_draws_minimum S func its pts).
Qed.

Lemma contour_trajectory_runs_from_first_to_last_iterate_witness :
  let drawn :=
    calls (ax_contour (self
      (after (plot_contour_trajectory paraboloid upright 20 0.5 3) fresh_frame))) in
  exists first,
    hd_error [(3, 1); (3, 2)] = Some first /\
    In (trajectory_call (map fst [(3, 1); (3, 2)]) (map snd [(3, 1); (3, 2)])) drawn /\
    In (start_call first) drawn /\
    In (minimum_call (last [(3, 1); (3, 2)] first)) drawn.
Proof.
  apply (@contour_trajectory_runs_from_first_to_last_iterate unit paraboloid upright
           [(3, 1); (3, 2)] 20%Z 0.5 3%Z fresh_frame).
  - discriminate.
  - reflexivity.
  - vm_compute. reflexivity.
Defined.
(** ** The trajectory on the surface axes *)

Section TraceRules.

Variable S : Type.
Variable h : PlotView -> Axes.

Lemma traces_later {A B} (m : M (Frame S) A) (k : A -> M (Frame S) B) ps cs :
sound m -> (forall a, traces h (k a) ps cs) -> traces h (bind m k) ps cs.
Proof.
intros Hm Hk w. destruct (Hm w) as [_ [new [E _]]].
unfold outcome, after, bind in *.
destruct (m w) as [[a|e] w1]; cbn [fst snd] in *; [|discriminate].
intros Hok. destruct (Hk a w1 Hok) as [earlier [zs [Hl [Ev Hc]]]].
unfold after in *. exists (new ++ earlier), zs.
split; [exact Hl|]. split; [|exact Hc].
now rewrite Ev, E, <- !app_assoc.
Qed.

Lemma traces_bind_lift {A B} (r : result A) (k : A -> M (Frame S) B) ps cs :
(forall a, r = Ok a -> traces h (k a) ps cs) ->
traces h (bind (lift r) k) ps cs.
Proof.
intros H. destruct r as [a|e].
- rewrite bind_lift_Ok. now apply H.
- intros w Hok. discriminate.
Qed.

Lemma comprehension_returns (func : Callable S) (ps : list ndarray) :
forall (w w' : Frame S) (zs : list float),
  comprehension ps (fun x => call func x) w = (Ok zs, w') ->
  List.length zs = List.length ps /\
  evaluations w' = evaluations w ++ combine ps (map Ok zs).
Proof.
induction ps as [|p ps IH]; intros w w' zs; cbn [comprehension].
- intros [= <- <-]. now rewrite app_nil_r.
- unfold bind at 1. unfold call at 1.
  destruct (func p (callee w)) as [[z|e] s']; [|discriminate].
  unfold bind at 1.
  match goal with
  | |- context [comprehension ps ?f ?w1] =>
      destruct (comprehension ps f w1) as [[zs'|e] w2] eqn:E; [|discriminate]
  end.
  apply IH in E. destruct E as [Hl Ev]. cbn [evaluations] in Ev.
  intros [= <- <-]. cbn [List.length map combine]. split; [now rewrite Hl|].
  now rewrite Ev, <- app_assoc.
Qed.

Lemma traces_comprehension {B} (func : Callable S) (ps : list ndarray)
  (k : list float -> M (Frame S) B) cs :
(forall zs c, In c (cs zs) -> draws h (k zs) c) ->
(forall zs, preserves (fun w : Frame S => evaluations w) (k zs)) ->
traces h (bind (comprehension ps (fun x => call func x)) k) ps cs.
Proof.
intros Hd Hk w. unfold outcome, after, bind.
destruct (comprehension ps (fun x => call func x) w) as [[zs|e] w1] eqn:E;
  [|discriminate].
apply comprehension_returns in E. destruct E as [Hl Ev].
intros Hok. exists [], zs. split; [exact Hl|]. split.
- pose proof (Hk zs w1) as Hp. unfold after in Hp. now rewrite Hp, Ev.
- intros c Hc. now apply (Hd zs c Hc w1).
Qed.

Lemma on_self_evaluations {A} (m : M PlotView A) :
preserves (fun w : Frame S => evaluations w) (on (self_ S) m).
Proof.
intros w. unfold after, on. cbn [getattr self_].
destruct (m (self w)). reflexivity.
Qed.

End TraceRules.

Ltac keeps_evaluations :=
  repeat
    match goal with
    | |- preserves _ (bind _ _) =>
        apply preserves_bind; [|intros ?; cbv beta zeta]
    | |- preserves _ (lift _) => apply preserves_lift
    | |- preserves _ (on _ _) => apply on_self_evaluations
    end.

Ltac skip_to_evaluations :=
  repeat
    match goal with
    | |- traces _ (bind (comprehension _ _) _) _ _ => fail 1
    | |- traces _ (bind (lift _) _) _ _ =>
        apply traces_bind_lift; intros ? ?; cbv beta zeta
    | |- traces _ (bind _ _) _ _ =>
        apply traces_later; [sound_steps|intros ?; cbv beta zeta]
    | |- traces _ (let (_, _) := fst ?p in _) _ _ =>
        destruct p as [[? ?] [? ?]]; cbn [fst snd]
    | |- traces _ (let (_, _) := meshgrid _ _ in _) _ _ =>
        unfold meshgrid; cbv beta iota
    end.

Lemma hd_of_getitem {A} (l : list A) (a d : A) :
  getitem l 0 = Ok a -> hd d l = a.
Proof.
  intros H. apply getitem_first in H. destruct l; [discriminate|].
  now injection H.
Qed.

Lemma last_default {A} (l : list A) (d d' : A) :
  l <> [] -> last l d = last l d'.
Proof.
  induction l as [|a l IH]; [congruence|]. intros _.
  destruct l as [|b l]; [reflexivity|].
  change (last (b :: l) d = last (b :: l) d'). apply IH. discriminate.
Qed.

Lemma plot_contour_trajectory_traces S (func : Callable S) its pts levels
    padding grid_size p :
  its <> [] -> planar its pts -> hd_error pts = Some p ->
  traces ax_surface (plot_contour_trajectory func its levels padding grid_size)
    (map IterationResult.x its)
    (fun zs =>
       [surface_trajectory_call (map fst pts) (map snd pts) zs;
        surface_start_call p (hd 0%float zs);
        surface_minimum_call (last pts p) (last zs 0%float)]).
Proof.
  intros Hne Hpl Hp.
  unfold surface_trajectory_call, surface_start_call, surface_minimum_call.
  rewrite Hpl, <- iter_rows_stacked.
  enter_planar Hne Hpl. rewrite column_0_stacked, column_1_stacked.
  skip_to_evaluations.
  repeat match goal with
         | H : getitem (map fst pts) 0 = Ok _ |- _ =>
             apply (hd_of_getitem _ (fst p)) in H
         | H : getitem (map snd pts) 0 = Ok _ |- _ =>
             apply (hd_of_getitem _ (snd p)) in H
         | H : getitem (map fst pts) (-1) = Ok _ |- _ =>
             apply (getitem_last _ (fst p)) in H; rewrite last_of_map in H
         | H : getitem (map snd pts) (-1) = Ok _ |- _ =>
             apply (getitem_last _ (snd p)) in H; rewrite last_of_map in H
         end.
  destruct pts as [|q pts']; [discriminate|]. injection Hp as ->.
  cbn [map hd] in *. subst.
  apply traces_comprehension.
  - intros zs c [<- | [<- | [<- | []]]].
    + apply draws_later; intros ?; cbv beta zeta.
      apply draws_then; [apply draws_on_ax_surface|intros ?; cbv beta zeta].
      grows_steps.
    + skip_lifts_to "scatter"%string.
      repeat match goal with
             | H : getitem zs 0 = Ok _ |- _ =>
                 apply (hd_of_getitem _ 0%float) in H
             end.
      subst.
      apply draws_then; [apply draws_on_ax_surface|intros ?; cbv beta zeta].
      grows_steps.
    + skip_lifts_to "scatter"%string.
      apply draws_later; intros ?; cbv beta zeta.
      repeat match goal with
             | H : getitem zs (-1) = Ok _ |- _ =>
                 apply (getitem_last _ 0%float) in H
             end.
      subst.
      apply draws_then; [apply draws_on_ax_surface|intros ?; cbv beta zeta].
      grows_steps.
  - intros zs. keeps_evaluations.
Qed.

(** X14: the trajectory on the surface axes lies on the objective.  On a
    non-empty planar trajectory, a call of [plot_contour_trajectory] that
    returns has ended with evaluating [func] at the iterates in their
    order, and has drawn on the surface axes the line through the iterates
    at the heights [func] returned there, the start marker at the first
    iterate and its height and the minimum marker at the last iterate and
    its height.  The heights are those values of [func], not the [f]
    fields of the records. *)
Theorem surface_trajectory_lies_on_the_objective :
  forall (S : Type) (func : Callable S) (its : list IterationResult.t)
         (pts : list (float * float)) (levels : Z) (padding : float)
         (grid_size : Z) (w : Frame S),
    its <> [] -> planar its pts ->
    outcome (plot_contour_trajectory func its levels padding grid_size) w = Ok tt ->
    let w' := after (plot_contour_trajectory func its levels padding grid_size) w in
    exists first earlier z_traj z_first,
      hd_error pts = Some first /\
      hd_error z_traj = Some z_first /\
      List.length z_traj = List.length its /\
      evaluations w'
      = evaluations w ++ earlier
        ++ combine (map IterationResult.x its) (map Ok z_traj) /\
      In (surface_trajectory_call (map fst pts) (map snd pts) z_traj)
         (calls (ax_surface (self w'))) /\
      In (surface_start_call first z_first) (calls (ax_surface (self w'))) /\
      In (surface_minimum_call (last pts first) (last z_traj z_first))
         (calls (ax_surface (self w'))).
Proof.
  intros S func its pts levels padding grid_size w Hne Hpl Hok w'.
  assert (Hr : is_ok (outcome (plot_contour_trajectory func its levels padding
                                 grid_size) w) = true) by now rewrite Hok.
  destruct pts as [|p0 rest] eqn:Ep.
  { exfalso. now apply (planar_nonempty Hpl Hne). }
  rewrite <- Ep in *. assert (Hp : hd_error pts = Some p0) by now rewrite Ep.
  destruct (@plot_contour_trajectory_traces S func its pts levels padding
              grid_size p0 Hne Hpl Hp w Hr) as [earlier [zs [Hl [Ev Hc]]]].
  fold w' in Ev, Hc. rewrite length_map in Hl.
  destruct zs as [|z0 zs'] eqn:Ez.
  { destruct its; [congruence|discriminate]. }
  rewrite <- Ez in *.
  assert (Hlast : last zs 0%float = last zs z0).
  { apply last_default. rewrite Ez. discriminate. }
  exists p0, earlier, zs, z0.
  split; [exact Hp|]. split; [now rewrite Ez|]. split; [exact Hl|].
  split; [exact Ev|].
  split; [apply Hc; now left|].
  split.
  - replace z0 with (hd 0%float zs) by now rewrite Ez.
    apply Hc. right. now left.
  - rewrite <- Hlast. apply Hc. right. right. now left.
Qed.

Lemma surface_trajectory_lies_on_the_objective_witness :
  let w' := after (plot_contour_trajectory paraboloid upright 20 0.5 3) fresh_frame in
  exists first earlier z_traj z_first,
    hd_error [(3, 1); (3, 2)] = Some first /\
    hd_error z_traj = Some z_first /\
    List.length z_traj = List.length upright /\
    evaluations w'
    = evaluations fresh_frame ++ earlier
      ++ combine (map IterationResult.x upright) (map Ok z_traj) /\
    In (surface_trajectory_call (map fst [(3, 1); (3, 2)]) (map snd [(3, 1); (3, 2)])
          z_traj)
       (calls (ax_surface (self w'))) /\
    In (surface_start_call first z_first) (calls (ax_surface (self w'))) /\
    In (surface_minimum_call (last [(3, 1); (3, 2)] first) (last z_traj z_first))
       (calls (ax_surface (self w'))).
Proof.
  apply (@surface_trajectory_lies_on_the_objective unit paraboloid upright
           [(3, 1); (3, 2)] 20%Z 0.5 3%Z fresh_frame).
  - discriminate.
  - reflexivity.
  - vm_compute. reflexivity.
Defined.
(* ================================================================== *)
(** * The plotting domain                                              *)
(* ================================================================== *)

Lemma finite_self_difference c : is_finite c = true -> c - c = 0.
Proof.
  unfold is_finite, is_nan, is_infinity. rewrite !eqb_spec, abs_spec.
  intros H. rewrite <- (SF2Prim_Prim2SF (c - c)), sub_spec.
  destruct (Prim2SF c) as [s|s| |s m e].
  - destruct s; reflexivity.
  - destruct s; discriminate H.
  - discriminate H.
  - unfold SF64sub, SFsub. rewrite Z.sub_diag. reflexivity.
Qed.

Lemma finite_degenerate c : is_finite c = true -> degenerate c c = true.
Proof.
  intros H. unfold degenerate. rewrite finite_self_difference by exact H.
  reflexivity.
Qed.

(** On a planar trajectory, a call that returns has drawn the contour and
    the surface over the [np.linspace] samples of the domain computed from
    the trajectory. *)
Lemma plot_contour_trajectory_samples S (func : Callable S) its pts levels
    padding grid_size (w : Frame S) axis :
  (axis < 2)%nat -> its <> [] -> planar its pts ->
  outcome (plot_contour_trajectory func its levels padding grid_size) w = Ok tt ->
  exists d,
    trajectory_domain padding its = Ok d /\
    sampled (after (plot_contour_trajectory func its levels padding grid_size) w)
            levels grid_size axis (interval axis d).
Proof.
  intros Hax Hne Hpl Hok.
  assert (Hg : (0 <= grid_size)%Z).
  { destruct (Z.lt_ge_cases grid_size 0) as [Hneg|]; [|assumption].
    unfold outcome in Hok.
    rewrite (plot_contour_trajectory_negative_grid func levels padding Hne Hpl Hneg) in Hok.
    discriminate. }
  destruct (planar_grid_domain padding Hne Hpl) as [[[a b] [c d]] Hd].
  destruct (linspace_nonneg a b Hg) as [xv Hx].
  destruct (linspace_nonneg c d Hg) as [yv Hy].
  destruct (@plot_contour_trajectory_drawing S func its pts levels padding
              grid_size a b c d xv yv Hne Hpl Hd Hx Hy)
    as [LOOP [REST [Heq [_ [Hdc [Hds _]]]]]].
  exists ((a, b), (c, d)). split.
  { unfold trajectory_domain. now rewrite (planar_stack Hne Hpl). }
  unfold outcome in Hok. unfold sampled, after. rewrite Heq in *.
  unfold bind in *.
  set (w2 := with_self (blanked (self w)) w) in *.
  destruct (LOOP w2) as [[Zm|e] w3]; cbn [fst snd] in *; [|discriminate].
  exists xv, yv, Zm. split; [|split].
  - destruct axis as [|[|k]]; [| |lia]; cbn [interval fst snd]; assumption.
  - apply (Hdc Zm w3). unfold outcome. now rewrite Hok.
  - apply (Hds Zm w3). unfold outcome. now rewrite Hok.
Qed.

(** C3, as amended: on an axis where every point of a non-empty planar
    trajectory has the same finite coordinate [c], the bounds
    [plot_contour_trajectory] computes are [(c - 1.0) - padding] and
    [(c + 1.0) + padding], evaluated in binary64 arithmetic, and a call
    that returns has drawn the contour and the surface over the
    [np.linspace] samples between these two bounds. *)
Theorem C3_degenerate_axis_bounds :
  forall (S : Type) (func : Callable S) (axis : nat)
         (its : list IterationResult.t) (pts : list (float * float))
         (levels : Z) (padding c : float) (grid_size : Z) (w : Frame S),
    (axis < 2)%nat -> its <> [] -> planar its pts ->
    (forall p, In p pts -> coordinate axis p = c) ->
    is_finite c = true ->
    outcome (plot_contour_trajectory func its levels padding grid_size) w = Ok tt ->
    exists d,
      trajectory_domain padding its = Ok d /\
      interval axis d = ((c - 1.0) - padding, (c + 1.0) + padding) /\
      sampled (after (plot_contour_trajectory func its levels padding grid_size) w)
              levels grid_size axis
              ((c - 1.0) - padding, (c + 1.0) + padding).
Proof.
  intros S func axis its pts levels padding c grid_size w
         Hax Hne Hpl Hc Hfin Hok.
  destruct (@plot_contour_trajectory_samples S func its pts levels padding
              grid_size w axis Hax Hne Hpl Hok) as [d [Ed Hs]].
  destruct (trajectory_domain_axis padding Hax Hne Hpl)
    as [lo [hi [d' [Emin [Emax [Ed' Ei]]]]]].
  assert (d' = d) by congruence. subst d'.
  pose proof (planar_nonempty Hpl Hne) as Hpts.
  assert (Hall : forall y, In y (map (coordinate axis) pts) -> y = c).
  { intros y Hy. apply in_map_iff in Hy. destruct Hy as [p [<- Hp']]. auto. }
  pose proof (amin_const (map_nonempty (coordinate axis) Hpts) Hall) as Emin'.
  pose proof (amax_const (map_nonempty (coordinate axis) Hpts) Hall) as Emax'.
  assert (lo = c) by congruence. assert (hi = c) by congruence. subst lo hi.
  rewrite axis_bounds_unfold, finite_degenerate in Ei by exact Hfin.
  exists d. split; [exact Ed|]. split; [exact Ei|]. now rewrite <- Ei.
Qed.

Lemma C3_degenerate_axis_bounds_witness :
  exists d,
    trajectory_domain 0.5 upright = Ok d /\
    interval 0 d = ((3 - 1.0) - 0.5, (3 + 1.0) + 0.5) /\
    sampled (after (plot_contour_trajectory paraboloid upright 20 0.5 3) fresh_frame)
            20 3 0 ((3 - 1.0) - 0.5, (3 + 1.0) + 0.5).
Proof.
  apply (@C3_degenerate_axis_bounds unit paraboloid 0%nat upright [(3, 1); (3, 2)]
           20%Z 0.5 3 3%Z fresh_frame).
  - lia.
  - discriminate.
  - reflexivity.
  - intros p [<-|[<-|[]]]; reflexivity.
  - reflexivity.
  - vm_compute. reflexivity.
Defined.

(** C3, as stated, fails: with every point at x1 = 1e17 and the padding
    0.5, the additions of 1.0 and of the padding are absorbed by rounding;
    the call returns, the bounds it computes on x1 are both 1e17, the
    three samples it draws the contour and the surface over are all
    1e17, and the bounds are not 2 + 2 * 0.5 apart. *)
Lemma C3_counterexample :
  let run := plot_contour_trajectory paraboloid far_away 20 0.5 3 in
  planar far_away [(1e17, 0); (1e17, 1)] /\
  is_finite 1e17 = true /\
  outcome run fresh_frame = Ok tt /\
  trajectory_domain 0.5 far_away = Ok ((1e17, 1e17), (-0.5, 1.5)) /\
  sampled (after run fresh_frame) 20 3 0 (1e17, 1e17) /\
  linspace 1e17 1e17 3 = Ok [1e17; 1e17; 1e17] /\
  (2 + 2 * 0.5 <=? 1e17 - 1e17) = false /\
  ~ covers_two_plus_padding 0.5 (1e17, 1e17).
Proof.
  intros run. split; [reflexivity|]. split; [reflexivity|].
  split; [vm_compute; reflexivity|].
  split; [vm_compute; reflexivity|].
  split.
  { destruct (@plot_contour_trajectory_samples unit paraboloid far_away
                [(1e17, 0); (1e17, 1)] 20%Z 0.5 3%Z fresh_frame 0%nat)
      as [d [Ed Hs]];
      [lia|discriminate|reflexivity|vm_compute; reflexivity|].
    replace d with ((1e17, 1e17), (-0.5, 1.5)) in Hs; [exact Hs|].
    assert (E : trajectory_domain 0.5 far_away = Ok ((1e17, 1e17), (-0.5, 1.5)))
      by (vm_compute; reflexivity).
    congruence. }
  split; [vm_compute; reflexivity|]. split; [reflexivity|].
  intros [qlo [qhi [qp [Hlo [Hhi [Hp Hle]]]]]].
  unfold exactly in Hlo, Hhi, Hp. cbn [fst snd] in Hlo, Hhi.
  set (e := PyNum.exact 1e17) in Hlo, Hhi. vm_compute in e. subst e.
  set (e := PyNum.exact 0.5) in Hp. vm_compute in e. subst e.
  cbv beta iota in Hlo, Hhi, Hp. lra.
Qed.

(** C4, as amended: on each axis of a non-empty planar trajectory the
    bounds are built from the least coordinate [lo] and the greatest
    coordinate [hi] (both attained, and bounding every coordinate when
    none is NaN).  On a degenerate axis 1.0 is subtracted from [lo] and
    added to [hi], in binary64 arithmetic, before the padding is applied;
    on any other axis the bounds are [lo - padding] and [hi + padding].  A
    call that returns has drawn the contour and the surface over the
    [np.linspace] samples between these bounds. *)
Theorem C4_axis_bounds :
  forall (S : Type) (func : Callable S) (axis : nat)
         (its : list IterationResult.t) (pts : list (float * float))
         (levels : Z) (padding : float) (grid_size : Z) (w : Frame S),
    (axis < 2)%nat -> its <> [] -> planar its pts ->
    outcome (plot_contour_trajectory func its levels padding grid_size) w = Ok tt ->
    exists lo hi d,
      In lo (map (coordinate axis) pts) /\
      In hi (map (coordinate axis) pts) /\
      ((forall p, In p pts -> number (coordinate axis p)) ->
       forall p, In p pts ->
         (lo <=? coordinate axis p) = true /\
         (coordinate axis p <=? hi) = true) /\
      trajectory_domain padding its = Ok d /\
      interval axis d
      = (if degenerate lo hi
         then ((lo - 1.0) - padding, (hi + 1.0) + padding)
         else (lo - padding, hi + padding)) /\
      sampled (after (plot_contour_trajectory func its levels padding grid_size) w)
              levels grid_size axis (interval axis d).
Proof.
  intros S func axis its pts levels padding grid_size w Hax Hne Hpl Hok.
  destruct (@plot_contour_trajectory_samples S func its pts levels padding
              grid_size w axis Hax Hne Hpl Hok) as [d [Ed Hs]].
  destruct (trajectory_domain_axis padding Hax Hne Hpl)
    as [lo [hi [d' [Emin [Emax [Ed' Ei]]]]]].
  assert (d' = d) by congruence. subst d'.
  exists lo, hi, d.
  split; [now apply amin_In|]. split; [now apply amax_In|].
  split.
  - intros Hnum p Hp.
    assert (Hcol : forall y, In y (map (coordinate axis) pts) -> number y).
    { intros y Hy. apply in_map_iff in Hy. destruct Hy as [q [<- Hq]]. auto. }
    split.
    + apply (amin_below _ Emin Hcol). now apply in_map.
    + apply (amax_above _ Emax Hcol). now apply in_map.
  - split; [exact Ed|]. split; [|exact Hs].
    now rewrite Ei, axis_bounds_unfold.
Qed.

Lemma C4_axis_bounds_witness :
  exists lo hi d,
    In lo (map (coordinate 0) [(3, 1); (3, 2)]) /\
    In hi (map (coordinate 0) [(3, 1); (3, 2)]) /\
    ((forall p, In p [(3, 1); (3, 2)] -> number (coordinate 0 p)) ->
     forall p, In p [(3, 1); (3, 2)] ->
       (lo <=? coordinate 0 p) = true /\ (coordinate 0 p <=? hi) = true) /\
    trajectory_domain 0.5 upright = Ok d /\
    interval 0 d
    = (if degenerate lo hi
       then ((lo - 1.0) - 0.5, (hi + 1.0) + 0.5)
       else (lo - 0.5, hi + 0.5)) /\
    sampled (after (plot_contour_trajectory paraboloid upright 20 0.5 3) fresh_frame)
            20 3 0 (interval 0 d).
Proof.
  apply (@C4_axis_bounds unit paraboloid 0%nat upright [(3, 1); (3, 2)]
           20%Z 0.5 3%Z fresh_frame).
  - lia.
  - discriminate.
  - reflexivity.
  - vm_compute. reflexivity.
Defined.

(** C4, as stated, fails: the trajectory (3, 1), (3, 2) is degenerate on
    x1; with the padding 0 the call returns, the bounds it computes on x1
    are 2 and 4, the contour and the surface are drawn over the samples
    2, 3, 4, and the span is 2, not 1. *)
Lemma C4_counterexample :
  let run := plot_contour_trajectory paraboloid upright 20 0 3 in
  planar upright [(3, 1); (3, 2)] /\
  degenerate 3 3 = true /\
  expand_degenerate 3 3 = (2, 4) /\
  outcome run fresh_frame = Ok tt /\
  trajectory_domain 0 upright = Ok ((2, 4), (1, 2)) /\
  sampled (after run fresh_frame) 20 3 0 (2, 4) /\
  linspace 2 4 3 = Ok [2; 3; 4] /\
  (4 - 2 =? 1) = false /\ (4 - 2 =? 2) = true.
Proof.
  intros run. split; [reflexivity|]. split; [reflexivity|].
  split; [vm_compute; reflexivity|].
  split; [vm_compute; reflexivity|].
  split; [vm_compute; reflexivity|].
  split.
  { destruct (@plot_contour_trajectory_samples unit paraboloid upright
                [(3, 1); (3, 2)] 20%Z 0 3%Z fresh_frame 0%nat)
      as [d [Ed Hs]];
      [lia|discriminate|reflexivity|vm_compute; reflexivity|].
    replace d with ((2, 4), (1, 2)) in Hs; [exact Hs|].
    assert (E : trajectory_domain 0 upright = Ok ((2, 4), (1, 2)))
      by (vm_compute; reflexivity).
    congruence. }
  split; [vm_compute; reflexivity|]. split; reflexivity.
Qed.
(* ================================================================== *)
(** * An iterate that is not a number                                  *)
(* ================================================================== *)

Lemma is_nan_nan x : is_nan x = true -> x = nan.
Proof.
  unfold is_nan. rewrite eqb_spec. intros H.
  rewrite <- (SF2Prim_Prim2SF x).
  destruct (Prim2SF x) as [s|s| |s m e]; try (destruct s; discriminate).
  - reflexivity.
  - exfalso. cbn in H. rewrite Z.compare_refl, Pos.compare_cont_refl in H.
    destruct s; discriminate.
Qed.

Lemma nan_sub x : nan - x = nan.
Proof.
  rewrite <- (SF2Prim_Prim2SF (nan - x)), sub_spec.
  destruct (Prim2SF x) as [s|s| |s m e]; reflexivity.
Qed.

Lemma nan_add x : nan + x = nan.
Proof.
  rewrite <- (SF2Prim_Prim2SF (nan + x)), add_spec.
  destruct (Prim2SF x) as [s|s| |s m e]; reflexivity.
Qed.

Lemma add_nan x : x + nan = nan.
Proof.
  rewrite <- (SF2Prim_Prim2SF (x + nan)), add_spec.
  destruct (Prim2SF x) as [s|s| |s m e]; reflexivity.
Qed.

Lemma mul_nan x : x * nan = nan.
Proof.
  rewrite <- (SF2Prim_Prim2SF (x * nan)), mul_spec.
  destruct (Prim2SF x) as [s|s| |s m e]; reflexivity.
Qed.

Lemma nan_div x : nan / x = nan.
Proof.
  rewrite <- (SF2Prim_Prim2SF (nan / x)), div_spec.
  destruct (Prim2SF x) as [s|s| |s m e]; reflexivity.
Qed.

Lemma ltb_nan_r x : (x <? nan) = false.
Proof.
  rewrite ltb_spec. destruct (Prim2SF x) as [s|s| |s m e]; reflexivity.
Qed.

Lemma ltb_nan_l x : (nan <? x) = false.
Proof.
  rewrite ltb_spec. destruct (Prim2SF x) as [s|s| |s m e]; reflexivity.
Qed.

Lemma min2_nan a b : a = nan \/ b = nan -> min2 a b = nan.
Proof.
  unfold min2. intros [-> | ->]; [reflexivity|].
  destruct (is_nan a) eqn:E; [now apply is_nan_nan|].
  now rewrite ltb_nan_r.
Qed.

Lemma max2_nan a b : a = nan \/ b = nan -> max2 a b = nan.
Proof.
  unfold max2. intros [-> | ->]; [reflexivity|].
  destruct (is_nan a) eqn:E; [now apply is_nan_nan|].
  now rewrite ltb_nan_l.
Qed.

Lemma fold_min2_nan l a : In nan (a :: l) -> fold_left min2 l a = nan.
Proof.
  revert a. induction l as [|y l IH]; intros a H; cbn [fold_left].
  - destruct H as [H|[]]. exact H.
  - apply IH. destruct H as [H|[H|H]].
    + left. apply min2_nan. now left.
    + left. apply min2_nan. now right.
    + now right.
Qed.

Lemma fold_max2_nan l a : In nan (a :: l) -> fold_left max2 l a = nan.
Proof.
  revert a. induction l as [|y l IH]; intros a H; cbn [fold_left].
  - destruct H as [H|[]]. exact H.
  - apply IH. destruct H as [H|[H|H]].
    + left. apply max2_nan. now left.
    + left. apply max2_nan. now right.
    + now right.
Qed.

Lemma amin_nan l m : In nan l -> amin l = Ok m -> m = nan.
Proof.
  destruct l as [|a l]; [contradiction|]. intros H [= <-].
  now apply fold_min2_nan.
Qed.

Lemma amax_nan l m : In nan l -> amax l = Ok m -> m = nan.
Proof.
  destruct l as [|a l]; [contradiction|]. intros H [= <-].
  now apply fold_max2_nan.
Qed.

Lemma axis_bounds_nan padding : axis_bounds padding nan nan = (nan, nan).
Proof.
  unfold axis_bounds, apply_padding, expand_degenerate.
  replace (abs (nan - nan) <? 1e-9) with false by (vm_compute; reflexivity).
  cbn [fst snd]. now rewrite nan_sub, nan_add.
Qed.

Lemma map_to_nan {A} (g : A -> float) (l : list A) :
  (forall a, g a = nan) -> map g l = repeat nan (List.length l).
Proof.
  intros H. induction l as [|a l IH]; [reflexivity|].
  cbn [map List.length repeat]. now rewrite H, IH.
Qed.

Lemma removelast_repeat {A} (a : A) n :
  removelast (repeat a n) ++ [a] = repeat a n \/ n = O.
Proof.
  destruct n as [|n]; [now right|left].
  induction n as [|n IH]; [reflexivity|].
  change (repeat a (Datatypes.S (Datatypes.S n)))
    with (a :: repeat a (Datatypes.S n)).
  change (removelast (a :: repeat a (Datatypes.S n)))
    with (a :: removelast (repeat a (Datatypes.S n))).
  cbn [app]. now rewrite IH.
Qed.

Lemma linspace_nan n :
  (0 <= n)%Z -> linspace nan nan n = Ok (repeat nan (Z.to_nat n)).
Proof.
  intros Hn. unfold linspace.
  destruct (Z.ltb_spec n 0); [lia|].
  replace (nan - nan) with nan by (vm_compute; reflexivity).
  rewrite nan_div.
  replace (nan =? 0) with false by (vm_compute; reflexivity).
  assert (E : forall l : list float,
             map (fun t => t + nan) l = repeat nan (List.length l)).
  { intros l. apply map_to_nan. apply add_nan. }
  f_equal.
  match goal with
  | |- (if _ then removelast ?y ++ _ else ?y) = _ =>
      assert (Hy : y = repeat nan (Z.to_nat n))
  end.
  { rewrite E. f_equal.
    destruct (0 <? n - 1)%Z; now rewrite length_map, length_map, length_range. }
  rewrite Hy.
  destruct (Z.ltb_spec 1 n); [|reflexivity].
  destruct (removelast_repeat nan (Z.to_nat n)) as [H1|H1]; [exact H1|lia].
Qed.

Lemma grid_nodes_nan axis xv yv n x :
  (axis < 2)%nat ->
  interval axis (xv, yv) = repeat nan n ->
  In x (grid_nodes xv yv) ->
  exists q, x = point q /\ coordinate axis q = nan.
Proof.
  intros Hax Hn Hin. unfold grid_nodes in Hin.
  apply in_flat_map in Hin. destruct Hin as [b [Hb Hin]].
  apply in_map_iff in Hin. destruct Hin as [a [<- Ha]].
  exists (a, b). split; [reflexivity|].
  destruct axis as [|[|k]]; [| |lia]; cbn [interval coordinate fst snd] in *.
  - rewrite Hn in Ha. now apply repeat_spec in Ha.
  - rewrite Hn in Hb. now apply repeat_spec in Hb.
Qed.

(** ** Where a call that may raise has evaluated the objective *)

Section PartRules.

Variable S : Type.

Lemma visits_part_lift {A} (r : result A) :
visits_part (lift (W := Frame S) r) [].
Proof. intros w. exists [], []. cbn. now rewrite app_nil_r. Qed.

Lemma visits_part_ret {A} (a : A) : visits_part (ret (W := Frame S) a) [].
Proof. intros w. exists [], []. cbn. now rewrite app_nil_r. Qed.

Lemma visits_part_on_self {A} (m : M PlotView A) :
visits_part (on (self_ S) m) [].
Proof.
intros w. exists [], []. unfold after, on. cbn [getattr self_].
destruct (m (self w)). cbn. now rewrite app_nil_r.
Qed.

Lemma visits_part_call (func : Callable S) (x : ndarray) :
visits_part (call func x) [x].
Proof.
intros w. exists [x], []. unfold after, call.
destruct (func x (callee w)). cbn. now rewrite map_app.
Qed.

Lemma visits_part_bind {A B} (m : M (Frame S) A) (k : A -> M (Frame S) B)
  p1 p2 :
visits_part m p1 -> (forall a, visits_part (k a) p2) ->
visits_part (bind m k) (p1 ++ p2).
Proof.
intros Hm Hk w. destruct (Hm w) as [d1 [r1 [E1 [V1 O1]]]].
unfold after, outcome, bind in *.
destruct (m w) as [[a|e] w1]; cbn [fst snd] in *.
- rewrite (O1 eq_refl), app_nil_r in E1. subst d1.
  destruct (Hk a w1) as [d2 [r2 [E2 [V2 O2]]]]. unfold after, outcome in *.
  exists (p1 ++ d2), r2. split; [now rewrite E2, app_assoc|].
  split; [now rewrite V2, V1, app_assoc|exact O2].
- exists d1, (r1 ++ p2). split; [now rewrite E1, app_assoc|].
  split; [exact V1|discriminate].
Qed.

Lemma visits_part_bind_lift {A B} (r : result A) (k : A -> M (Frame S) B) ps :
(forall a, r = Ok a -> visits_part (k a) ps) ->
visits_part (bind (lift r) k) ps.
Proof.
intros H. destruct r as [a|e].
- rewrite bind_lift_Ok. now apply H.
- intros w. exists [], ps. cbn. rewrite app_nil_r.
  repeat split. discriminate.
Qed.

Lemma visits_part_for_each {A B} (g : A -> list ndarray) (xs : list A)
  (body : A -> B -> M (Frame S) B) :
(forall x acc, In x xs -> visits_part (body x acc) (g x)) ->
forall acc, visits_part (for_each xs acc body) (flat_map g xs).
Proof.
induction xs as [|x xs IH]; intros Hb acc; cbn [for_each flat_map].
- apply visits_part_ret.
- apply visits_part_bind.
  + apply Hb. now left.
  + intros acc'. apply IH. intros y a Hy. apply Hb. now right.
Qed.

Lemma visits_part_comprehension (func : Callable S) (xs : list ndarray) :
visits_part (comprehension xs (fun x => call func x)) xs.
Proof.
induction xs as [|x xs IH]; cbn [comprehension].
- apply visits_part_ret.
- change (x :: xs) with ([x] ++ xs). apply visits_part_bind.
  + apply visits_part_call.
  + intros v. rewrite <- (app_nil_r xs) at 2. apply visits_part_bind.
    * exact IH.
    * intros vs. apply visits_part_ret.
Qed.

Lemma visits_part_eq {A} (m : M (Frame S) A) ps ps' :
visits_part m ps -> ps = ps' -> visits_part m ps'.
Proof. now intros H <-. Qed.

Lemma begins_call (func : Callable S) (x : ndarray) : begins (call func x).
Proof.
intros w. unfold after, call. destruct (func x (callee w)) as [r s'].
now exists x, r, [].
Qed.

Lemma begins_bind {A B} (m : M (Frame S) A) (k : A -> M (Frame S) B) :
begins m -> (forall a, sound (k a)) -> begins (bind m k).
Proof.
intros Hm Hk w. destruct (Hm w) as [x [r [rest E]]].
unfold after, bind in *. destruct (m w) as [[a|e] w1]; cbn [snd] in *.
- destruct (Hk a w1) as [_ [new [E2 _]]]. unfold after in E2.
  exists x, r, (rest ++ new). rewrite E2, E, <- app_assoc. reflexivity.
- now exists x, r, rest.
Qed.

Lemma begins_later {A B} (m : M (Frame S) A) (k : A -> M (Frame S) B) :
total m -> preserves (fun w : Frame S => evaluations w) m ->
(forall a, begins (k a)) -> begins (bind m k).
Proof.
intros Ht Hp Hk w. destruct (Ht w) as [a Ha]. specialize (Hp w).
unfold outcome, after, bind in *.
destruct (m w) as [[a'|e] w1]; cbn [fst snd] in *; [|discriminate].
destruct (Hk a' w1) as [x [r [rest E]]]. unfold after in E.
exists x, r, rest. now rewrite E, Hp.
Qed.

Lemma begins_for_each {A B} (x : A) (xs : list A) (acc : B)
  (body : A -> B -> M (Frame S) B) :
begins (body x acc) -> (forall y acc', sound (body y acc')) ->
begins (for_each (x :: xs) acc body).
Proof.
intros Hb Hs. cbn [for_each]. apply begins_bind; [exact Hb|].
intros acc'. now apply sound_for_each.
Qed.

End PartRules.

Lemma range_positive g : (0 < g)%Z -> exists tl, range g = 0%Z :: tl.
Proof.
  intros H. unfold range. destruct (Z.to_nat g) as [|n] eqn:E; [lia|].
  cbn [seq map]. eauto.
Qed.

Lemma getitem_head {A} (a : A) (l : list A) : getitem (a :: l) 0 = Ok a.
Proof. exact (getitem_middle [] l a). Qed.

Ltac visits_part_steps :=
  repeat
    match goal with
    | |- visits_part (bind _ _) _ => eapply visits_part_bind; [|intros ?]
    | |- visits_part (on _ _) _ => apply visits_part_on_self
    | |- visits_part (lift _) _ => apply visits_part_lift
    | |- visits_part (call _ _) _ => apply visits_part_call
    | |- visits_part (comprehension _ _) _ => apply visits_part_comprehension
    end.

(** On a planar trajectory, whether the call returns or raises, it has
    evaluated [func] at the first so many nodes of the grid, row by row,
    and then of the iterates. *)
Lemma plot_contour_trajectory_visits_part S (func : Callable S) its pts levels
    padding grid_size a b c d xv yv :
  its <> [] -> planar its pts ->
  grid_domain padding (stacked pts) = Ok ((a, b), (c, d)) ->
  linspace a b grid_size = Ok xv -> linspace c d grid_size = Ok yv ->
  visits_part (plot_contour_trajectory func its levels padding grid_size)
              (grid_nodes xv yv ++ map IterationResult.x its).
Proof.
  intros Hne Hpl Hd Hx Hy.
  destruct (linspace_length _ _ _ Hx) as [Hg Hlx].
  destruct (linspace_length _ _ _ Hy) as [_ Hly].
  unfold plot_contour_trajectory.
  rewrite (planar_stack Hne Hpl).
  destruct its as [|it its]; [congruence|]. cbn [is_empty].
  rewrite bind_lift_Ok. unfold stacked at 1 2. rewrite planar_test.
  try take_else. rewrite Hd, bind_lift_Ok. cbn [fst snd].
  rewrite Hx, bind_lift_Ok, Hy, bind_lift_Ok.
  destruct (meshgrid xv yv) as [X1 X2] eqn:Em.
  assert (E1 : X1 = fst (meshgrid xv yv)) by now rewrite Em.
  assert (E2 : X2 = snd (meshgrid xv yv)) by now rewrite Em.
  clear Em. eapply visits_part_eq.
  - eapply visits_part_bind; [apply visits_part_on_self|intros ?].
    eapply visits_part_bind; [apply visits_part_on_self|intros ?].
    eapply visits_part_bind; [|intros ?].
    + apply (visits_part_for_each
               (fun i => flat_map (fun j => cell xv yv i j) (range grid_size))).
      intros i acc Hi.
      apply (visits_part_for_each (fun j => cell xv yv i j)).
      intros j acc' Hj.
      apply in_range in Hi. apply in_range in Hj.
      apply visits_part_bind_lift. intros va Ha.
      apply visits_part_bind_lift. intros vb Hb.
      rewrite E1 in Ha. rewrite E2 in Hb.
      destruct (getitem2_X1 _ _ Hi Hj Ha) as [Hxa _].
      pose proof (getitem2_X2 _ _ Hi Hj Hb) as Hyb.
      eapply visits_part_eq.
      * eapply visits_part_bind;
          [apply visits_part_call|intros ?; apply visits_part_lift].
      * unfold cell. now rewrite Hyb, Hxa.
    + visits_part_steps.
  - cbn [app]. rewrite ?app_nil_r, iter_rows_stacked, <- Hpl.
    f_equal.
    replace (range grid_size) with (range (Z.of_nat (Z.to_nat grid_size)))
      by (now rewrite Z2Nat.id).
    now apply cells_are_grid_nodes.
Qed.

Lemma clear_total_on_frame S (a : Attr PlotView Axes) :
  total (on (self_ S) (on a clear)).
Proof. apply total_on, total_on, total_modify. Qed.

(** On a planar trajectory with a positive [grid_size] the call gets as
    far as evaluating [func]. *)
Lemma plot_contour_trajectory_begins S (func : Callable S) its pts levels
    padding grid_size :
  its <> [] -> planar its pts -> (0 < grid_size)%Z ->
  begins (plot_contour_trajectory func its levels padding grid_size).
Proof.
  intros Hne Hpl Hpos.
  assert (Hg : (0 <= grid_size)%Z) by lia.
  destruct (planar_grid_domain padding Hne Hpl) as [[[a b] [c d]] Hd].
  destruct (linspace_nonneg a b Hg) as [xv Hx].
  destruct (linspace_nonneg c d Hg) as [yv Hy].
  destruct (linspace_length _ _ _ Hx) as [_ Hlx].
  destruct (linspace_length _ _ _ Hy) as [_ Hly].
  destruct xv as [|x0 xv]; [cbn in Hlx; lia|].
  destruct yv as [|y0 yv]; [cbn in Hly; lia|].
  destruct (range_positive Hpos) as [tl Hr].
  unfold plot_contour_trajectory.
  rewrite (planar_stack Hne Hpl).
  destruct its as [|it its]; [congruence|]. cbn [is_empty].
  rewrite bind_lift_Ok. unfold stacked at 1 2. rewrite planar_test.
  try take_else. rewrite Hd, bind_lift_Ok. cbn [fst snd].
  rewrite Hx, bind_lift_Ok, Hy, bind_lift_Ok.
  unfold meshgrid. cbv beta iota. rewrite Hr.
  apply begins_later;
    [apply clear_total_on_frame|apply on_self_evaluations|intros ?].
  apply begins_later;
    [apply clear_total_on_frame|apply on_self_evaluations|intros ?].
  apply begins_bind; [|intros Zm; cbv beta; sound_steps].
  apply begins_for_each; [|intros; sound_steps].
  apply begins_for_each; [|intros; sound_steps].
  unfold getitem2. cbn [map]. rewrite !getitem_head, !bind_lift_Ok.
  apply begins_bind; [apply begins_call|intros ?; apply sound_lift].
Qed.

(** X16: an iterate that is not a number.  When some iterate of a
    non-empty planar trajectory has a NaN coordinate and [grid_size] is
    positive, [plot_contour_trajectory] raises nothing before the grid
    loop: the plotting interval on that axis is (nan, nan) whatever the
    padding, every [np.linspace] sample on it is NaN, [func] is evaluated
    at least once, and, whether the call then returns or raises, every
    one of its first grid_size * grid_size evaluations of [func] is at a
    node of the grid that has NaN for that coordinate. *)
Theorem nan_iterate_poisons_the_grid :
  forall (S : Type) (func : Callable S) (axis : nat)
         (its : list IterationResult.t) (pts : list (float * float))
         (levels : Z) (padding : float) (grid_size : Z)
         (p : float * float) (w : Frame S),
    (axis < 2)%nat -> its <> [] -> planar its pts ->
    In p pts -> is_nan (coordinate axis p) = true ->
    (0 < grid_size)%Z ->
    let w' := after (plot_contour_trajectory func its levels padding grid_size) w in
    exists d xv yv new,
      trajectory_domain padding its = Ok d /\
      interval axis d = (nan, nan) /\
      linspace (fst (fst d)) (snd (fst d)) grid_size = Ok xv /\
      linspace (fst (snd d)) (snd (snd d)) grid_size = Ok yv /\
      interval axis (xv, yv) = repeat nan (Z.to_nat grid_size) /\
      evaluations w' = evaluations w ++ new /\
      new <> [] /\
      (exists rest,
          grid_nodes xv yv ++ map IterationResult.x its = map fst new ++ rest) /\
      forall k x r,
        (k < Z.to_nat grid_size * Z.to_nat grid_size)%nat ->
        nth_error new k = Some (x, r) ->
        exists q, x = point q /\ is_nan (coordinate axis q) = true.
Proof.
  intros S func axis its pts levels padding grid_size p w
         Hax Hne Hpl Hin Hnan Hpos w'.
  assert (Hg : (0 <= grid_size)%Z) by lia.
  destruct (trajectory_domain_axis padding Hax Hne Hpl)
    as [lo [hi [d [Elo [Ehi [Ed Ei]]]]]].
  assert (Hcol : In nan (map (coordinate axis) pts)).
  { apply in_map_iff. exists p. split; [now apply is_nan_nan|exact Hin]. }
  apply (amin_nan _ Hcol) in Elo. apply (amax_nan _ Hcol) in Ehi. subst lo hi.
  rewrite axis_bounds_nan in Ei.
  destruct d as [[a b] [c e]]. cbn [fst snd].
  destruct (linspace_nonneg a b Hg) as [xv Hx].
  destruct (linspace_nonneg c e Hg) as [yv Hy].
  destruct (linspace_length _ _ _ Hx) as [_ Hlx].
  destruct (linspace_length _ _ _ Hy) as [_ Hly].
  assert (Hs : interval axis (xv, yv) = repeat nan (Z.to_nat grid_size)).
  { destruct axis as [|[|k]]; [| |lia]; cbn [interval fst snd] in *.
    - injection Ei as -> ->. rewrite (linspace_nan Hg) in Hx. now injection Hx.
    - injection Ei as -> ->. rewrite (linspace_nan Hg) in Hy. now injection Hy. }
  assert (Hd : grid_domain padding (stacked pts) = Ok ((a, b), (c, e))).
  { unfold trajectory_domain in Ed. rewrite (planar_stack Hne Hpl) in Ed.
    exact Ed. }
  destruct (@plot_contour_trajectory_visits_part S func its pts levels padding
              grid_size a b c e xv yv Hne Hpl Hd Hx Hy w)
    as [done [rest [Eps [Ev _]]]].
  destruct (@plot_contour_trajectory_begins S func its pts levels padding
              grid_size Hne Hpl Hpos w) as [x0 [r0 [rest0 E0]]].
  fold w' in Ev, E0.
  exists ((a, b), (c, e)), xv, yv, ((x0, r0) :: rest0).
  rewrite E0, map_app in Ev. apply app_inv_head in Ev.
  split; [exact Ed|]. split; [exact Ei|]. split; [exact Hx|].
  split; [exact Hy|]. split; [exact Hs|]. split; [exact E0|].
  split; [discriminate|]. split; [exists rest; now rewrite Ev|].
  intros k x r Hk Hnth.
  assert (Hx' : In x (grid_nodes xv yv)).
  { apply (map_nth_error fst) in Hnth. cbn [fst] in Hnth. rewrite Ev in Hnth.
    assert (Hn : nth_error (grid_nodes xv yv ++ map IterationResult.x its) k
                 = Some x).
    { rewrite Eps. rewrite nth_error_app1; [exact Hnth|].
      apply nth_error_Some. congruence. }
    rewrite nth_error_app1 in Hn
      by (rewrite grid_nodes_length, Hlx, Hly; exact Hk).
    now apply nth_error_In in Hn. }
  destruct (@grid_nodes_nan axis xv yv _ x Hax Hs Hx') as [q [-> Hq]].
  exists q. split; [reflexivity|]. now rewrite Hq.
Qed.

Lemma nan_iterate_poisons_the_grid_witness :
  let w' :=
    after (plot_contour_trajectory paraboloid [step 0 nan 1; step 1 3 2] 20 0.5 3)
          fresh_frame in
  exists d xv yv new,
    trajectory_domain 0.5 [step 0 nan 1; step 1 3 2] = Ok d /\
    interval 0 d = (nan, nan) /\
    linspace (fst (fst d)) (snd (fst d)) 3 = Ok xv /\
    linspace (fst (snd d)) (snd (snd d)) 3 = Ok yv /\
    interval 0 (xv, yv) = repeat nan (Z.to_nat 3) /\
    evaluations w' = evaluations fresh_frame ++ new /\
    new <> [] /\
    (exists rest,
        grid_nodes xv yv ++ map IterationResult.x [step 0 nan 1; step 1 3 2]
        = map fst new ++ rest) /\
    forall k x r,
      (k < Z.to_nat 3 * Z.to_nat 3)%nat ->
      nth_error new k = Some (x, r) ->
      exists q, x = point q /\ is_nan (coordinate 0 q) = true.
Proof.
  apply (@nan_iterate_poisons_the_grid unit paraboloid 0%nat
           [step 0 nan 1; step 1 3 2] [(nan, 1); (3, 2)] 20%Z 0.5 3%Z
           (nan, 1) fresh_frame).
  - lia.
  - discriminate.
  - reflexivity.
  - left. reflexivity.
  - reflexivity.
  - lia.
Defined.
